(** * MagicLens: the generation endpoint, the Bria client and the canvas editor

    A shallow embedding of
    - [src/app/lib/bria.ts] (the client of the external image API),
    - [src/app/api/generate/route.ts] (the [POST /api/generate] handler),
    - [src/app/components/QuickActionsPanel.tsx] (the quick-action buttons and
      the canvas editor: mask history, mask export, crop rectangle),
    followed by the properties of the specification, stated on these
    definitions.

    Conventions of the embedding.
    - A JavaScript number is a [number]: a rational, one of the two
      infinities, or NaN; the sign of zero is not kept.  Where the result of
      the code depends on the rounding of IEEE doubles (the crop rectangle,
      the seed of the placeholder image), the arithmetic is that of doubles,
      in [Double]; the comparisons, [Math.max], [Math.min] and the clamps of
      the other numbers are exact in doubles as they are here.
    - A JavaScript string is a [string], the bytes of its UTF-8 encoding;
      [undefined] for an optional value is [None].
    - [await fetch(...)] is a question to the [World]; a run of asynchronous
      code returns the list of requests it sent together with its result or
      the value it threw.  [console.log] and [console.error] are left out. *)

From Stdlib Require Import ZArith QArith Qabs Qround Qminmax Qpower Lqa Setoid String Ascii List Bool Lia DecimalString.
From stdpp Require Import base list strings.

Set Warnings "-register-all".

Open Scope Z_scope.
Open Scope string_scope.

(** ** JavaScript values *)

Module Js.

(** Numbers. *)
Inductive number : Type :=
| NaN
| PosInf
| NegInf
| Num (q : Q).

Definition num_of_Z (z : Z) : number := Num (inject_Z z).

(** [a < b] and [a <= b] on numbers: false as soon as one side is NaN. *)
Definition num_ltb (a b : number) : bool :=
  match a, b with
  | NaN, _ | _, NaN => false
  | _, NegInf => false
  | NegInf, _ => true
  | PosInf, _ => false
  | Num _, PosInf => true
  | Num x, Num y => negb (Qle_bool y x)
  end.

Definition num_leb (a b : number) : bool :=
  match a, b with
  | NaN, _ | _, NaN => false
  | NegInf, _ => true
  | _, NegInf => false
  | _, PosInf => true
  | PosInf, Num _ => false
  | Num x, Num y => Qle_bool x y
  end.

Definition num_gtb (a b : number) : bool := num_ltb b a.

(** [a / b] for a finite non-zero divisor, the only use the sources make. *)
Definition num_div (a : number) (b : Q) : number :=
  match a with
  | Num x => Num (x / b)
  | PosInf => if Qle_bool 0 b then PosInf else NegInf
  | NegInf => if Qle_bool 0 b then NegInf else PosInf
  | NaN => NaN
  end.

(** [Math.round]: the nearest integer, halves going up. *)
Definition Math_round (a : number) : number :=
  match a with
  | Num x => num_of_Z (Qfloor (x + (1 # 2)))
  | other => other
  end.

Definition Math_max (a b : number) : number :=
  match a, b with
  | NaN, _ | _, NaN => NaN
  | _, _ => if num_leb a b then b else a
  end.

Definition Math_min (a b : number) : number :=
  match a, b with
  | NaN, _ | _, NaN => NaN
  | _, _ => if num_leb a b then a else b
  end.

Definition Math_abs (a : number) : number :=
  match a with
  | Num x => Num (Qabs x)
  | NegInf => PosInf
  | other => other
  end.

(** Truthiness of a number: 0 and NaN are falsy. *)
Definition num_truthy (a : number) : bool :=
  match a with
  | NaN => false
  | Num x => negb (Qeq_bool x 0)
  | _ => true
  end.

(** Values, as [JSON.parse] builds them and as object literals hold them. *)
Inductive JsVal : Type :=
| JUndefined
| JNull
| JBool (b : bool)
| JNum (n : number)
| JStr (s : string)
| JArr (items : list JsVal)
| JObj (fields : list (string * JsVal)).

Definition truthy (v : JsVal) : bool :=
  match v with
  | JUndefined | JNull => false
  | JBool b => b
  | JNum n => num_truthy n
  | JStr s => negb (String.eqb s "")
  | JArr _ | JObj _ => true
  end.

(** [a || b] *)
Definition or_else (a b : JsVal) : JsVal := if truthy a then a else b.

(** Truthiness of an optional string: [undefined] and [""] are falsy. *)
Definition str_truthy (s : option string) : bool :=
  match s with
  | Some x => negb (String.eqb x "")
  | None => false
  end.

(** [a || b] where [a] is an optional string and [b] a string. *)
Definition str_or (a : option string) (b : string) : string :=
  match a with
  | Some x => if String.eqb x "" then b else x
  | None => b
  end.

(** [a || b] where [a] is an optional number and [b] a number. *)
Definition num_or (a : option number) (b : number) : number :=
  match a with
  | Some x => if num_truthy x then x else b
  | None => b
  end.

Definition of_opt_str (s : option string) : JsVal :=
  match s with
  | Some x => JStr x
  | None => JUndefined
  end.

(** The own property [k] of an object literal, [undefined] when absent. *)
Fixpoint lookup_field (k : string) (fields : list (string * JsVal)) : JsVal :=
  match fields with
  | [] => JUndefined
  | (k', v) :: rest => if String.eqb k k' then v else lookup_field k rest
  end.

Definition keys (v : JsVal) : list string :=
  match v with
  | JObj fields => map fst fields
  | _ => []
  end.

(** The decimal text of an integer, as a template literal prints it. *)
Definition Z_to_string (z : Z) : string := NilZero.string_of_int (Z.to_int z).

(** *** Strings

    A string is the sequence of the bytes of its UTF-8 encoding, a surrogate
    that stands alone being encoded on three bytes like the code points
    around it.  The patterns the code searches, splits at and replaces are
    ASCII, for which bytes and code units agree. *)

(** [s.includes(sub)] *)
Definition includes (s sub : string) : bool :=
  match String.index 0 sub s with
  | Some _ => true
  | None => false
  end.

(** [s.split(c)] for a one-character separator: never empty. *)
Fixpoint split (c : ascii) (s : string) : list string :=
  match s with
  | EmptyString => [EmptyString]
  | String a rest =>
      if Ascii.eqb a c then EmptyString :: split c rest
      else match split c rest with
           | [] => [String a EmptyString]
           | piece :: pieces => String a piece :: pieces
           end
  end.

(** [s.replace(c, by)] for a one-character pattern: the first occurrence only. *)
Fixpoint replace_first (c : ascii) (by_ : string) (s : string) : string :=
  match s with
  | EmptyString => EmptyString
  | String a rest =>
      if Ascii.eqb a c then by_ ++ rest else String a (replace_first c by_ rest)
  end.

(** The byte [a] is one of [l]. *)
Definition one_of (a : ascii) (l : list ascii) : bool := existsb (Ascii.eqb a) l.

(** White space and line terminators, by the bytes of their encoding.
    One byte: TAB, LF, VT, FF, CR, SP. *)
Definition white_space_1 (a : ascii) : bool :=
  one_of a ["009"; "010"; "011"; "012"; "013"; "032"]%char.

(** Two bytes: U+00A0. *)
Definition white_space_2 (a b : ascii) : bool :=
  Ascii.eqb a "194" && Ascii.eqb b "160".

(** Three bytes: U+1680; U+2000 to U+200A, U+2028, U+2029 and U+202F;
    U+205F; U+3000; U+FEFF. *)
Definition white_space_3 (a b c : ascii) : bool :=
  (Ascii.eqb a "225" && Ascii.eqb b "154" && Ascii.eqb c "128")
  || (Ascii.eqb a "226" && Ascii.eqb b "128"
      && one_of c ["128"; "129"; "130"; "131"; "132"; "133"; "134"; "135";
                   "136"; "137"; "138"; "168"; "169"; "175"]%char)
  || (Ascii.eqb a "226" && Ascii.eqb b "129" && Ascii.eqb c "159")
  || (Ascii.eqb a "227" && Ascii.eqb b "128" && Ascii.eqb c "128")
  || (Ascii.eqb a "239" && Ascii.eqb b "187" && Ascii.eqb c "191").

(** [s.trimStart()] *)
Fixpoint trim_start (s : string) : string :=
  match s with
  | EmptyString => s
  | String a s1 =>
      if white_space_1 a then trim_start s1
      else
        match s1 with
        | EmptyString => s
        | String b s2 =>
            if white_space_2 a b then trim_start s2
            else
              match s2 with
              | EmptyString => s
              | String c s3 => if white_space_3 a b c then trim_start s3 else s
              end
        end
  end.

(** [s] is made of white space only. *)
Fixpoint all_white_space (s : string) : bool :=
  match s with
  | EmptyString => true
  | String a s1 =>
      if white_space_1 a then all_white_space s1
      else
        match s1 with
        | EmptyString => false
        | String b s2 =>
            if white_space_2 a b then all_white_space s2
            else
              match s2 with
              | EmptyString => false
              | String c s3 => if white_space_3 a b c then all_white_space s3 else false
              end
        end
  end.

(** [s.trimEnd()]: the longest end of [s] made of white space is dropped. *)
Fixpoint trim_end (s : string) : string :=
  if all_white_space s then EmptyString
  else
    match s with
    | EmptyString => EmptyString
    | String a rest => String a (trim_end rest)
    end.

(** [s.trim()] *)
Definition trim (s : string) : string := trim_end (trim_start s).

(** [parts.join(sep)] *)
Definition join (sep : string) (parts : list string) : string :=
  String.concat sep parts.

(** [table[k]] for a table of strings written as an object literal; the
    properties an object inherits are not modelled. *)
Fixpoint table_get (k : string) (table : list (string * string)) : option string :=
  match table with
  | [] => None
  | (k', v) :: rest => if String.eqb k k' then Some v else table_get k rest
  end.

End Js.

(** ** The arithmetic of doubles

    A finite double is the rational it stands for.  [round64] rounds a
    rational to the nearest double, ties to the even significand, with 53
    bits and exponents from -1074 on (so that the subnormal numbers are
    rounded as they are); [fl] is the result of an operation whose exact
    value is [q], with the overflow to the infinities. *)

Module Double.
Import Js.

Local Open Scope Q_scope.

Definition pow2 (e : Z) : Q := 2 ^ e.

(** The integer [k] with [2^k <= q < 2^(k+1)], for a positive [q]. *)
Definition ilog2 (q : Q) : Z :=
  let k := (Z.log2 (Qnum q) - Z.log2 (Zpos (Qden q)))%Z in
  if Qle_bool (pow2 k) q then k else (k - 1)%Z.

(** The nearest integer, a tie going to the even one. *)
Definition rne (x : Q) : Z :=
  let f := Qfloor x in
  match Qcompare (x - inject_Z f) (1 # 2) with
  | Lt => f
  | Gt => (f + 1)%Z
  | Eq => if Z.even f then f else (f + 1)%Z
  end.

(** The exponent of the last place of the doubles around [q]. *)
Definition exponent (q : Q) : Z := Z.max (ilog2 (Qabs q) - 52) (-1074).

Definition round64 (q : Q) : Q :=
  if Qeq_bool q 0 then 0
  else Qred (inject_Z (rne (q / pow2 (exponent q))) * pow2 (exponent q)).

Definition fl (q : Q) : number :=
  let r := round64 q in
  if Qle_bool (pow2 1024) r then PosInf
  else if Qle_bool r (- pow2 1024) then NegInf
  else Num r.


(** [-a] *)
Definition neg (a : number) : number :=
  match a with
  | NaN => NaN
  | PosInf => NegInf
  | NegInf => PosInf
  | Num x => Num (- x)
  end.

(** [a + b] *)
Definition add (a b : number) : number :=
  match a, b with
  | NaN, _ | _, NaN => NaN
  | PosInf, NegInf | NegInf, PosInf => NaN
  | PosInf, _ | _, PosInf => PosInf
  | NegInf, _ | _, NegInf => NegInf
  | Num x, Num y => fl (x + y)
  end.

(** [a - b] *)
Definition sub (a b : number) : number := add a (neg b).

(** The infinity with the sign of [q], NaN for zero. *)
Definition infinity_of_sign (q : Q) : number :=
  match Qcompare q 0 with
  | Gt => PosInf
  | Lt => NegInf
  | Eq => NaN
  end.

(** [a * b] *)
Definition mul (a b : number) : number :=
  match a, b with
  | NaN, _ | _, NaN => NaN
  | Num x, Num y => fl (x * y)
  | PosInf, Num y | Num y, PosInf => infinity_of_sign y
  | NegInf, Num y | Num y, NegInf => infinity_of_sign (- y)
  | PosInf, PosInf | NegInf, NegInf => PosInf
  | PosInf, NegInf | NegInf, PosInf => NegInf
  end.

(** [a / b]; a zero divisor is taken as [+0]. *)
Definition div (a b : number) : number :=
  match a, b with
  | NaN, _ | _, NaN => NaN
  | Num x, Num y => if Qeq_bool y 0 then infinity_of_sign x else fl (x / y)
  | Num _, _ => Num 0
  | PosInf, Num y => if Qle_bool 0 y then PosInf else NegInf
  | NegInf, Num y => if Qle_bool 0 y then NegInf else PosInf
  | _, _ => NaN
  end.

(** The decimal literal whose exact value is [q]. *)
Definition literal (q : Q) : number := fl q.

End Double.

(** ** The types shared by the client and the handler *)

Module Types.
Import Js.

Record Camera : Type := {
  yaw : number;
  pitch : number;
  roll : number;
  fov : number
}.

(** Modelled from the spec: the declaration of [FIBOParams] ([lib/types.ts])
    is not among the sources.  The record has the fields the sources read;
    a field the sources read without a guard is required, a field read
    through [||] or a truthiness test is optional. *)
Record FIBOParams : Type := {
  lighting : string;
  composition : string;
  realism_level : string;
  output_format : string;
  camera : Camera;
  color_palette : option string;
  subject_description : option string;
  blur_intensity : option number;
  new_background : option string;
  expand_direction : option string;
  expand_amount : option number;
  upscale_factor : option number;
  hdr_resolution : option string
}.

(** [GenerateResponse] is an object with the properties [imageUrl], [seed]
    and [structuredPrompt]; it is kept as the object literal the code
    returns. *)
Definition GenerateResponse : Type := JsVal.

End Types.

(** ** The outside world and asynchronous code *)

Module Http.
Import Js.

(** What a [throw] carries: an instance of [Error] or any other value. *)
Inductive Thrown : Type :=
| Error (message : string)
| NonError (v : JsVal).

(** A [fetch] of the client: always a POST with a JSON content type; the
    body is the object handed to [JSON.stringify]. *)
Record Request : Type := {
  url : string;
  api_token : string;
  body : JsVal
}.

(** A response: its status, what [await response.text()] gives and what
    [await response.json()] gives or throws. *)
Record Response : Type := {
  status : Z;
  text : string;
  json : Thrown + JsVal
}.

(** [response.ok]: the status is in the range 200-299. *)
Definition ok (r : Response) : bool := ((200 <=? status r) && (status r <=? 299))%Z.

(** What the code asks of its surroundings: the environment variable, the
    answer of the network to a request (a response, or the error [fetch]
    rejects with), the double [Math.random()] returns (as the rational it is), and the
    built-in conversions. *)
Record World : Type := {
  BRIA_API_TOKEN : option string;
  fetch_answer : Request -> Thrown + Response;
  Math_random : Q;
  JSON_parse : string -> Thrown + JsVal;
  JSON_stringify : JsVal -> string;
  ToString : JsVal -> string
}.

(** A run: the requests sent, in order, and the outcome. *)
Definition M (A : Type) : Type := World -> list Request * (Thrown + A).

Definition ret {A} (a : A) : M A := fun _ => ([], inr a).

Definition throw {A} (e : Thrown) : M A := fun _ => ([], inl e).

Definition bind {A B} (m : M A) (k : A -> M B) : M B :=
  fun w =>
    match m w with
    | (sent, inl e) => (sent, inl e)
    | (sent, inr a) => let (sent', r) := k a w in ((sent ++ sent')%list, r)
    end.

(** [try { m } catch (e) { handler e }] *)
Definition try_catch {A} (m : M A) (handler : Thrown -> M A) : M A :=
  fun w =>
    match m w with
    | (sent, inl e) => let (sent', r) := handler e w in ((sent ++ sent')%list, r)
    | (sent, inr a) => (sent, inr a)
    end.

(** Reading the world, and a step that returns or throws without sending. *)
Definition ask : M World := fun w => ([], inr w).

Definition lift {A} (r : Thrown + A) : M A := fun _ => ([], r).

(** [await fetch(url, { method: 'POST', headers, body })] *)
Definition fetch (rq : Request) : M Response :=
  fun w => ([rq], fetch_answer w rq).

(** [const x = await m; k] *)
Notation "'let*' x ':=' m 'in' k" := (bind m (fun x => k))
  (at level 10, x name, m at level 100, k at level 200, only parsing).

Definition type_error_read (of_ k : string) : Thrown :=
  Error ("Cannot read properties of " ++ of_ ++ " (reading '" ++ k ++ "')").

(** [v.k]: reading a property of [undefined] or [null] throws a TypeError
    (with the message of V8); only the own properties of objects are
    modelled, so a property of any other value reads as [undefined]. *)
Definition get_prop (v : JsVal) (k : string) : M JsVal :=
  match v with
  | JUndefined => throw (type_error_read "undefined" k)
  | JNull => throw (type_error_read "null" k)
  | JObj fields => ret (lookup_field k fields)
  | _ => ret JUndefined
  end.

(** [v?.k] *)
Definition opt_chain (v : JsVal) (k : string) : JsVal :=
  match v with
  | JObj fields => lookup_field k fields
  | _ => JUndefined
  end.

(** The message of [new Error(v)] for a value [v] other than [undefined]. *)
Definition error_message (w : World) (v : JsVal) : string :=
  match v with
  | JStr s => s
  | _ => ToString w v
  end.

End Http.

(** ** [src/app/lib/bria.ts]: the client of the Bria API *)

Module Bria.
Import Js Types Http.

Definition BRIA_API_BASE : string := "https://engine.prod.bria-api.com/v2".
Definition BRIA_EDIT_BASE : string := "https://engine.prod.bria-api.com/v2/image/edit".

(** [dataUrl.includes(',') ? dataUrl.split(',')[1] : dataUrl] *)
Definition stripDataUrl (dataUrl : string) : string :=
  if includes dataUrl "," then nth 1 (split "," dataUrl) "" else dataUrl.

(** [if (c) parts.push(x)] *)
Definition push_if (c : bool) (x : string) (parts : list string) : list string :=
  if c then (parts ++ [x])%list else parts.

Definition describeCameraAngle (camera : Camera) : string :=
  let parts := [] in
  let parts :=
    push_if (num_gtb (Math_abs (pitch camera)) (num_of_Z 10))
      (if num_gtb (pitch camera) (num_of_Z 0) then "high angle" else "low angle") parts in
  let parts :=
    push_if (num_gtb (Math_abs (yaw camera)) (num_of_Z 10))
      (if num_gtb (yaw camera) (num_of_Z 0) then "from the right" else "from the left") parts in
  let parts :=
    push_if (num_gtb (Math_abs (roll camera)) (num_of_Z 5)) "dutch angle" parts in
  if (0 <? length parts)%nat then join ", " parts else "straight on".

Definition fovToFocalLength (fov : number) : string :=
  if num_ltb fov (num_of_Z 20) then "135mm telephoto"
  else if num_ltb fov (num_of_Z 35) then "85mm portrait"
  else if num_ltb fov (num_of_Z 50) then "50mm standard"
  else if num_ltb fov (num_of_Z 70) then "35mm wide"
  else "24mm ultra-wide".

Definition lighting_mapping : list (string * string) :=
  [ ("studio_soft", "soft studio lighting with diffused shadows");
    ("natural_daylight", "natural daylight, golden hour warmth");
    ("dramatic_side", "dramatic side lighting with strong contrast");
    ("backlit", "backlit with rim lighting");
    ("overcast", "soft overcast ambient lighting");
    ("neon", "colorful neon lighting");
    ("candlelight", "warm candlelight ambiance") ].

Definition mapLightingType (lighting : string) : string :=
  str_or (table_get lighting lighting_mapping) (replace_first "_" " " lighting).

Definition paramsToStructuredPrompt (params : FIBOParams)
    (subjectDescription : option string) : JsVal :=
  let cameraAngle := describeCameraAngle (camera params) in
  let focalLength := fovToFocalLength (fov (camera params)) in
  JObj
    [ ("short_description",
        JStr (str_or subjectDescription "A professionally composed image"));
      ("lighting", JObj
        [ ("type", JStr (mapLightingType (lighting params)));
          ("direction", JStr "front");
          ("shadows",
            JStr (if includes (lighting params) "dramatic" then "strong" else "soft")) ]);
      ("aesthetics", JObj
        [ ("composition", JStr (replace_first "_" " " (composition params)));
          ("color_scheme", JStr (str_or (color_palette params) "natural"));
          ("mood_atmosphere",
            JStr (if String.eqb (realism_level params) "stylized"
                  then "artistic" else "realistic")) ]);
      ("photographic_characteristics", JObj
        [ ("depth_of_field",
            JStr (if num_ltb (fov (camera params)) (num_of_Z 30)
                  then "shallow" else "medium"));
          ("focus", JStr "sharp on subject");
          ("camera_angle", JStr cameraAngle);
          ("lens_focal_length", JStr focalLength) ]);
      ("style_medium",
        JStr (if String.eqb (realism_level params) "high"
              then "photograph" else "digital art")) ].

Definition composition_rich : list (string * string) :=
  [ ("rule_of_thirds", "composed using rule of thirds");
    ("centered", "centered composition");
    ("golden_ratio", "golden ratio composition");
    ("symmetrical", "symmetrical composition");
    ("leading_lines", "leading lines composition") ].

(** [if (s) parts.push(s)] for an optional string. *)
Definition push_opt (s : option string) (parts : list string) : list string :=
  match s with
  | Some x => push_if (negb (String.eqb x "")) x parts
  | None => parts
  end.

(** [if (key && table[key]) parts.push(table[key])] *)
Definition push_mapped (key : string) (table : list (string * string))
    (parts : list string) : list string :=
  if negb (String.eqb key "") then push_opt (table_get key table) parts else parts.

Definition buildRichPrompt (params : FIBOParams) (userPrompt : option string) : string :=
  let parts := [] in
  let parts := push_opt userPrompt parts in
  let parts := push_opt (subject_description params) parts in
  let parts := push_mapped (lighting params) lighting_mapping parts in
  let parts := push_mapped (composition params) composition_rich parts in
  let parts :=
    match color_palette params with
    | Some c => push_if (negb (String.eqb c "")) (c ++ " color palette") parts
    | None => parts
    end in
  let parts :=
    if String.eqb (realism_level params) "high"
    then (parts ++ ["photorealistic, highly detailed"])%list
    else if String.eqb (realism_level params) "stylized"
    then (parts ++ ["artistic, stylized"])%list
    else parts in
  str_or (Some (join ". " parts)) "A high quality image".

(** The reply without a token: [{ imageUrl: image, seed: undefined }]. *)
Definition mock_edit_response (image : string) : GenerateResponse :=
  JObj [("imageUrl", JStr image); ("seed", JUndefined)].

(** The headers of every request carry the token; it is non-empty wherever
    a request is built. *)
Definition token (apiToken : option string) : string := default "" apiToken.

(** [data.result?.image_url || data.result_url] *)
Definition result_image_url (data : JsVal) : M JsVal :=
  let* result := get_prop data "result" in
  let image_url := opt_chain result "image_url" in
  if truthy image_url then ret image_url else get_prop data "result_url".

(** [data.result?.seed] *)
Definition result_seed (data : JsVal) : M JsVal :=
  let* result := get_prop data "result" in
  ret (opt_chain result "seed").

(** [`${label} failed: ${response.status} - ${errorText}`] *)
Definition failed_message (label : string) (response : Response) : string :=
  label ++ " failed: " ++ Z_to_string (status response) ++ " - " ++ text response.

(** The request of [removeBackground]. *)
Definition removeBackground_request (image : string) (apiToken : option string)
    : Request :=
  let rawBase64 := stripDataUrl image in
  {| url := BRIA_EDIT_BASE ++ "/remove_background";
    api_token := token apiToken;
    body := JObj [("image", JStr rawBase64); ("sync", JBool true)] |}.

Definition removeBackground (image : string) (apiToken : option string)
    : M GenerateResponse :=
  if negb (str_truthy apiToken) then ret (mock_edit_response image)
  else
    let* response := fetch (removeBackground_request image apiToken) in
    if negb (ok response) then
      throw (Error (failed_message "Background removal" response))
    else
      let* data := lift (json response) in
      let* imageUrl := result_image_url data in
      ret (JObj [("imageUrl", imageUrl); ("seed", JUndefined)]).

(** The request of [blurBackground]. *)
Definition blurBackground_request (image : string) (intensity : number) (apiToken : option string)
    : Request :=
  let rawBase64 := stripDataUrl image in
  {| url := BRIA_EDIT_BASE ++ "/blur_background";
    api_token := token apiToken;
    body := JObj
      [ ("image", JStr rawBase64);
        ("scale", JNum (Math_min (num_of_Z 5)
                         (Math_max (num_of_Z 1)
                           (Math_round (num_div intensity 20)))));
        ("sync", JBool true) ] |}.

Definition blurBackground (image : string) (intensity : number)
    (apiToken : option string) : M GenerateResponse :=
  if negb (str_truthy apiToken) then ret (mock_edit_response image)
  else
    let* response := fetch (blurBackground_request image intensity apiToken) in
    if negb (ok response) then
      throw (Error (failed_message "Background blur" response))
    else
      let* data := lift (json response) in
      let* imageUrl := result_image_url data in
      ret (JObj [("imageUrl", imageUrl); ("seed", JUndefined)]).

(** The request of [replaceBackground]. *)
Definition replaceBackground_request (image prompt : string) (apiToken : option string)
    : Request :=
  let rawBase64 := stripDataUrl image in
  {| url := BRIA_EDIT_BASE ++ "/replace_background";
    api_token := token apiToken;
    body := JObj
      [ ("image", JStr rawBase64);
        ("prompt", JStr prompt);
        ("mode", JStr "high_control");
        ("sync", JBool true) ] |}.

Definition replaceBackground (image : string) (prompt : string)
    (apiToken : option string) : M GenerateResponse :=
  if negb (str_truthy apiToken) then ret (mock_edit_response image)
  else
    let* response := fetch (replaceBackground_request image prompt apiToken) in
    if negb (ok response) then
      throw (Error (failed_message "Background replace" response))
    else
      let* data := lift (json response) in
      let* imageUrl := result_image_url data in
      ret (JObj [("imageUrl", imageUrl); ("seed", JUndefined)]).

(** The [switch (direction)] of [expandImage]. *)
Definition expand_aspect_ratio (direction : string) : string :=
  if String.eqb direction "left" || String.eqb direction "right" then "3:2"
  else if String.eqb direction "up" || String.eqb direction "down" then "2:3"
  else "4:3".

(** The request of [expandImage]: the prompt is added only when it is
    not blank. *)
Definition expandImage_request (image direction : string) (prompt apiToken : option string)
    : Request :=
  let rawBase64 := stripDataUrl image in
  let aspectRatio := expand_aspect_ratio direction in
  let requestBody :=
    [ ("image", JStr rawBase64);
      ("aspect_ratio", JStr aspectRatio);
      ("sync", JBool true) ] in
  let requestBody :=
    match prompt with
    | Some p =>
        if negb (String.eqb p "") && negb (String.eqb (trim p) "")
        then (requestBody ++ [("prompt", JStr p)])%list
        else requestBody
    | None => requestBody
    end in
  {| url := BRIA_EDIT_BASE ++ "/expand";
     api_token := token apiToken;
     body := JObj requestBody |}.

Definition expandImage (image : string) (direction : string) (amount : number)
    (prompt : option string) (apiToken : option string) : M GenerateResponse :=
  if negb (str_truthy apiToken) then ret (mock_edit_response image)
  else
    let* response := fetch (expandImage_request image direction prompt apiToken) in
    if negb (ok response) then
      if includes (text response) "canvas_size is too big" then
        throw (Error "Image is too large to expand. Please use a smaller image (max ~5000x5000 pixels).")
      else
        throw (Error (failed_message "Image expansion" response))
    else
      let* data := lift (json response) in
      let* imageUrl := result_image_url data in
      let* seed := result_seed data in
      ret (JObj [("imageUrl", imageUrl); ("seed", seed)]).

(** The request of [upscaleImage]. *)
Definition upscaleImage_request (image : string) (factor : number) (apiToken : option string)
    : Request :=
  let rawBase64 := stripDataUrl image in
  {| url := BRIA_EDIT_BASE ++ "/increase_resolution";
    api_token := token apiToken;
    body := JObj
      [ ("image", JStr rawBase64);
        ("desired_increase", JNum factor);
        ("sync", JBool true) ] |}.

Definition upscaleImage (image : string) (factor : number)
    (apiToken : option string) : M GenerateResponse :=
  if negb (str_truthy apiToken) then ret (mock_edit_response image)
  else
    let* response := fetch (upscaleImage_request image factor apiToken) in
    if negb (ok response) then
      throw (Error (failed_message "Image upscale" response))
    else
      let* data := lift (json response) in
      let* imageUrl := result_image_url data in
      ret (JObj [("imageUrl", imageUrl); ("seed", JUndefined)]).

(** The request of [enhanceImage]. *)
Definition enhanceImage_request (image resolution : string) (apiToken : option string)
    : Request :=
  let rawBase64 := stripDataUrl image in
  {| url := BRIA_EDIT_BASE ++ "/enhance";
    api_token := token apiToken;
    body := JObj
      [ ("image", JStr rawBase64);
        ("resolution", JStr resolution);
        ("steps_num", JNum (num_of_Z 20));
        ("sync", JBool true) ] |}.

Definition enhanceImage (image : string) (resolution : string)
    (apiToken : option string) : M GenerateResponse :=
  if negb (str_truthy apiToken) then ret (mock_edit_response image)
  else
    let* response := fetch (enhanceImage_request image resolution apiToken) in
    if negb (ok response) then
      throw (Error (failed_message "Image enhance" response))
    else
      let* data := lift (json response) in
      let* imageUrl := result_image_url data in
      let* seed := result_seed data in
      ret (JObj [("imageUrl", imageUrl); ("seed", seed)]).

(** The request of [eraseElements]. *)
Definition eraseElements_request (image mask : string) (apiToken : option string)
    : Request :=
  let rawBase64 := stripDataUrl image in
  let rawMask := stripDataUrl mask in
  {| url := BRIA_EDIT_BASE ++ "/erase";
    api_token := token apiToken;
    body := JObj
      [ ("image", JStr rawBase64);
        ("mask", JStr rawMask);
        ("sync", JBool true) ] |}.

Definition eraseElements (image : string) (mask : string)
    (apiToken : option string) : M GenerateResponse :=
  if negb (str_truthy apiToken) then ret (mock_edit_response image)
  else
    let* response := fetch (eraseElements_request image mask apiToken) in
    if negb (ok response) then
      throw (Error (failed_message "Erase elements" response))
    else
      let* data := lift (json response) in
      let* imageUrl := result_image_url data in
      ret (JObj [("imageUrl", imageUrl); ("seed", JUndefined)]).

(** The message of the error the two generation calls throw on a failed
    response: [`API error: ${response.status}`] unless the text of the
    response is JSON carrying a message. *)
Definition api_error_message (response : Response) : M JsVal :=
  let errorMessage := JStr ("API error: " ++ Z_to_string (status response)) in
  try_catch
    (let* w := ask in
     let* errorData := lift (JSON_parse w (text response)) in
     let* error := get_prop errorData "error" in
     let* message := get_prop errorData "message" in
     ret (or_else (or_else (opt_chain error "message") message) errorMessage))
    (fun _ => ret errorMessage).

(** [throw new Error(v)] *)
Definition throw_new_Error {A} (v : JsVal) : M A :=
  let* w := ask in
  throw (Error (error_message w v)).

(** The request of [generateWithGenFill]. *)
Definition generateWithGenFill_request (image mask prompt apiToken : string)
    : Request :=
  let rawImageBase64 := stripDataUrl image in
  let rawMaskBase64 := stripDataUrl mask in
  let requestBody :=
    JObj [ ("image", JStr rawImageBase64);
           ("mask", JStr rawMaskBase64);
           ("prompt", JStr prompt);
           ("sync", JBool true);
           ("version", JNum (num_of_Z 2));
           ("mask_type", JStr "manual") ] in
  {| url := BRIA_EDIT_BASE ++ "/gen_fill";
     api_token := apiToken;
     body := requestBody |}.

Definition generateWithGenFill (image mask prompt apiToken : string)
    : M GenerateResponse :=
  try_catch
    (let* response := fetch (generateWithGenFill_request image mask prompt apiToken) in
     if negb (ok response) then
       let* errorMessage := api_error_message response in
       throw_new_Error errorMessage
     else
       let* data := lift (json response) in
       let* result := get_prop data "result" in
       let* image_url := get_prop result "image_url" in
       ret (JObj [ ("imageUrl", image_url);
                   ("seed", JUndefined);
                   ("structuredPrompt", JUndefined) ]))
    (fun error => throw error).

(** The request of [generateStandard]: the image is added when there is one. *)
Definition generateStandard_request (image : option string) (prompt apiToken : string)
    : Request :=
  let requestBody :=
    [ ("sync", JBool true);
      ("aspect_ratio", JStr "1:1");
      ("prompt", JStr prompt) ] in
  let requestBody :=
    match image with
    | Some img =>
        if negb (String.eqb img "")
        then (requestBody ++ [("images", JArr [JStr (stripDataUrl img)])])%list
        else requestBody
    | None => requestBody
    end in
  {| url := BRIA_API_BASE ++ "/image/generate";
     api_token := apiToken;
     body := JObj requestBody |}.

Definition generateStandard (image : option string) (prompt apiToken : string)
    : M GenerateResponse :=
  try_catch
    (let* response := fetch (generateStandard_request image prompt apiToken) in
     if negb (ok response) then
       let* errorMessage := api_error_message response in
       throw_new_Error errorMessage
     else
       let* data := lift (json response) in
       let* result := get_prop data "result" in
       let* image_url := get_prop result "image_url" in
       let* seed := get_prop result "seed" in
       let* structured_prompt := get_prop result "structured_prompt" in
       ret (JObj [ ("imageUrl", image_url);
                   ("seed", seed);
                   ("structuredPrompt", structured_prompt) ]))
    (fun error => throw error).

(** [Math.floor(Math.random() * 1000000)]: the product of two doubles is
    rounded to a double before it is floored; it is finite, [Math.random()]
    being below 1. *)
Definition random_seed (w : World) : Z :=
  Qfloor (Double.round64 (Math_random w * 1000000)).

Definition mockGenerateResponse (params : FIBOParams) : M GenerateResponse :=
  let* w := ask in
  let seed := random_seed w in
  let placeholderUrl :=
    "https://picsum.photos/seed/" ++ Z_to_string seed ++ "/1024/1024" in
  ret (JObj [ ("imageUrl", JStr placeholderUrl);
              ("seed", JNum (num_of_Z seed));
              ("structuredPrompt",
                JStr (JSON_stringify w (paramsToStructuredPrompt params None))) ]).

Definition generateImage (image : string) (mask : option string)
    (params : FIBOParams) (prompt : option string) (apiToken : option string)
    : M GenerateResponse :=
  if negb (str_truthy apiToken) then mockGenerateResponse params
  else
    let textPrompt := buildRichPrompt params prompt in
    if negb (String.eqb image "") && str_truthy mask then
      generateWithGenFill image (default "" mask) textPrompt (token apiToken)
    else
      generateStandard (Some image) textPrompt (token apiToken).

End Bria.

(** ** [src/app/api/generate/route.ts]: the generation endpoint *)

Module Route.
Import Js Types Http Bria.

Record GenerateRequestBody : Type := {
  image : option string;
  secondImage : option string;
  mask : option string;
  params : option FIBOParams;
  prompt : option string;
  operation : option string
}.

(** A request is what [await request.json()] makes of it. *)
Record NextRequest : Type := {
  request_json : Thrown + GenerateRequestBody
}.

Record NextResponse : Type := {
  response_status : Z;
  response_body : JsVal
}.

(** [NextResponse.json(body, { status })] *)
Definition NextResponse_json (body : JsVal) (status : Z) : NextResponse :=
  {| response_status := status; response_body := body |}.

Definition lightingMap : list (string * string) :=
  [ ("studio_soft", "soft studio lighting");
    ("natural_daylight", "natural daylight");
    ("dramatic_side", "dramatic side lighting");
    ("backlit", "backlit with rim lighting");
    ("overcast", "soft overcast lighting");
    ("neon", "colorful neon lighting");
    ("candlelight", "warm candlelight") ].

Definition compositionMap : list (string * string) :=
  [ ("centered", "centered composition");
    ("rule_of_thirds", "rule of thirds composition");
    ("golden_ratio", "golden ratio composition");
    ("symmetrical", "symmetrical composition");
    ("dynamic", "dynamic composition") ].

Definition buildPromptFromParams (params : FIBOParams) : string :=
  let parts := [] in
  let parts := push_opt (subject_description params) parts in
  let parts := push_mapped (lighting params) lightingMap parts in
  let parts :=
    match color_palette params with
    | Some c => push_if (negb (String.eqb c "")) (c ++ " color palette") parts
    | None => parts
    end in
  let cam := camera params in
  let parts :=
    push_if (num_gtb (Math_abs (yaw cam)) (num_of_Z 15))
      ("camera rotated " ++ (if num_gtb (yaw cam) (num_of_Z 0) then "right" else "left"))
      parts in
  let parts :=
    push_if (num_gtb (Math_abs (pitch cam)) (num_of_Z 15))
      ((if num_gtb (pitch cam) (num_of_Z 0) then "high" else "low") ++ " angle shot")
      parts in
  let parts :=
    if num_ltb (fov cam) (num_of_Z 30)
    then (parts ++ ["telephoto lens, shallow depth of field"])%list
    else if num_gtb (fov cam) (num_of_Z 60)
    then (parts ++ ["wide angle lens"])%list
    else parts in
  let parts := push_mapped (composition params) compositionMap parts in
  let parts :=
    if String.eqb (realism_level params) "high"
    then (parts ++ ["photorealistic, highly detailed"])%list
    else if String.eqb (realism_level params) "stylized"
    then (parts ++ ["stylized, artistic"])%list
    else parts in
  let parts :=
    push_if (String.eqb (output_format params) "hdr_16bit") "HDR, high dynamic range" parts in
  str_or (Some (join ", " parts)) "A professional photograph".

(** [result = await call; break;] followed by [return NextResponse.json(result)] *)
Definition respond (call : M GenerateResponse) : M NextResponse :=
  let* result := call in
  ret (NextResponse_json result 200).

Definition erase_needs_mask : NextResponse :=
  NextResponse_json
    (JObj [ ("error", JStr "Please draw on the element you want to erase first!");
            ("needsMask", JBool true) ]) 400.

Definition inpaint_needs_mask : NextResponse :=
  NextResponse_json
    (JObj [ ("error", JStr "Please draw on the area you want to edit first! Use the brush tool to mark the region, then try again.");
            ("needsMask", JBool true) ]) 400.

(** [operation === name] *)
Definition op_is (operation : option string) (name : string) : bool :=
  match operation with
  | Some op => String.eqb op name
  | None => false
  end.

(** The [default:] branch of the switch, which the three inpainting cases
    fall through to. *)
Definition default_generation (image : string) (mask : option string)
    (params : FIBOParams) (prompt operation : option string)
    (apiToken : option string) : M NextResponse :=
  let effectivePrompt := str_or prompt "" in
  let effectivePrompt :=
    if op_is operation "inpaint_remove"
    then str_or prompt "empty, background continues naturally"
    else if String.eqb effectivePrompt "" then buildPromptFromParams params
    else effectivePrompt in
  respond (generateImage image mask params (Some effectivePrompt) apiToken).

(** [switch (operation) { ... }] *)
Definition route (image : string) (mask : option string) (params : FIBOParams)
    (prompt operation : option string) (apiToken : option string) : M NextResponse :=
  let case := op_is operation in
  if case "background_remove" then
    respond (removeBackground image apiToken)
  else if case "background_blur" then
    let blurIntensity := num_or (blur_intensity params) (num_of_Z 50) in
    respond (blurBackground image blurIntensity apiToken)
  else if case "background_replace" then
    let bgPrompt :=
      str_or (new_background params) (str_or prompt "professional studio background") in
    respond (replaceBackground image bgPrompt apiToken)
  else if case "image_expand" then
    let expandDir := str_or (expand_direction params) "all" in
    let expandAmt := num_or (expand_amount params) (num_of_Z 25) in
    respond (expandImage image expandDir expandAmt prompt apiToken)
  else if case "image_upscale" then
    let scaleFactor := num_or (upscale_factor params) (num_of_Z 2) in
    respond (upscaleImage image scaleFactor apiToken)
  else if case "hdr_enhance" then
    let resolution := str_or (hdr_resolution params) "2MP" in
    respond (enhanceImage image resolution apiToken)
  else if case "erase_element" then
    match mask with
    | None | Some "" => ret erase_needs_mask
    | Some m => respond (eraseElements image m apiToken)
    end
  else if case "inpaint_remove" || case "inpaint_replace" || case "inpaint_add" then
    if negb (str_truthy mask) then ret inpaint_needs_mask
    else default_generation image mask params prompt operation apiToken
  else
    default_generation image mask params prompt operation apiToken.

(** [catch (error) { return NextResponse.json({ error: ... }, { status: 500 }) }] *)
Definition on_error (error : Thrown) : M NextResponse :=
  ret (NextResponse_json
         (JObj [("error",
                  JStr (match error with
                        | Error message => message
                        | NonError _ => "Failed to generate image"
                        end))]) 500).

Definition POST (request : NextRequest) : M NextResponse :=
  try_catch
    (let* body := lift (request_json request) in
     match image body with
     | None | Some "" =>
         ret (NextResponse_json (JObj [("error", JStr "Image is required")]) 400)
     | Some image =>
         match params body with
         | None =>
             ret (NextResponse_json
                    (JObj [("error", JStr "FIBO parameters are required")]) 400)
         | Some params =>
             let* w := ask in
             let apiToken := BRIA_API_TOKEN w in
             route image (mask body) params (prompt body) (operation body) apiToken
         end
     end)
    on_error.

End Route.

(** ** [src/app/components/QuickActionsPanel.tsx]: the quick-action buttons *)

Module QuickActions.

(** The union type [QuickAction]. *)
Inductive QuickAction : Type :=
| background_remove
| background_blur
| background_replace
| image_expand
| image_upscale
| erase_element
| hdr_enhance.

Definition QuickAction_eqb (a b : QuickAction) : bool :=
  match a, b with
  | background_remove, background_remove
  | background_blur, background_blur
  | background_replace, background_replace
  | image_expand, image_expand
  | image_upscale, image_upscale
  | erase_element, erase_element
  | hdr_enhance, hdr_enhance => true
  | _, _ => false
  end.

(** The identifier sent as [operation] to the endpoint. *)
Definition QuickAction_name (a : QuickAction) : string :=
  match a with
  | background_remove => "background_remove"
  | background_blur => "background_blur"
  | background_replace => "background_replace"
  | image_expand => "image_expand"
  | image_upscale => "image_upscale"
  | erase_element => "erase_element"
  | hdr_enhance => "hdr_enhance"
  end.

(** An entry of the table [QUICK_ACTIONS]; the icon is presentation only. *)
Record Entry : Type := {
  id : QuickAction;
  label : string;
  description : string;
  color : string
}.

Definition QUICK_ACTIONS : list Entry :=
  [ {| id := background_remove; label := "Remove BG";
       description := "Remove background (transparent)";
       color := "from-red-500 to-pink-500" |};
    {| id := background_blur; label := "Blur BG";
       description := "Add depth-of-field blur";
       color := "from-blue-500 to-cyan-500" |};
    {| id := background_replace; label := "Replace BG";
       description := "Generate new background";
       color := "from-purple-500 to-indigo-500" |};
    {| id := image_expand; label := "Expand";
       description := "Extend image boundaries";
       color := "from-emerald-500 to-teal-500" |};
    {| id := image_upscale; label := "Upscale 2x";
       description := "Increase resolution";
       color := "from-orange-500 to-amber-500" |};
    {| id := erase_element; label := "Erase";
       description := "Remove & fill marked area";
       color := "from-rose-500 to-red-500" |} ].

(** A rendered button: its caption and what a click hands to [onAction]. *)
Record Button : Type := {
  caption : string;
  onClick : QuickAction
}.

(** [QUICK_ACTIONS.map((action) => <button onClick={() => onAction(action.id)}>)] *)
Definition QuickActionsPanel : list Button :=
  map (fun action => {| caption := label action; onClick := id action |}) QUICK_ACTIONS.

(** Whether the panel has a button that dispatches [a]. *)
Definition has_button (a : QuickAction) : bool :=
  existsb (fun b => QuickAction_eqb (onClick b) a) QuickActionsPanel.

End QuickActions.

(** ** [src/app/components/QuickActionsPanel.tsx]: the canvas editor *)

Module Canvas.

Local Open Scope list_scope.
Local Open Scope Z_scope.

(** [ImageData]: the bytes R, G, B, A of the pixels, row by row. *)
Record ImageData : Type := {
  width : nat;
  height : nat;
  data : list Z
}.

(** The part of the state of [AdvancedCanvasEditor] that the mask, its
    history and its export use.  [maskCanvas] is the content of
    [maskCanvasRef.current], [None] while the canvas is not mounted;
    [exported] lists the arguments [onMaskChange] was called with, the
    latest first, an image standing for its PNG data URL. *)
Record Editor : Type := {
  maskCanvas : option ImageData;
  history : list ImageData;
  historyIndex : Z;
  hasMask : bool;
  isDrawing : bool;
  exported : list (option ImageData)
}.

Definition initial : Editor :=
  {| maskCanvas := None; history := []; historyIndex := -1;
     hasMask := false; isDrawing := false; exported := [] |}.

(** [l.slice(0, stop)] *)
Definition slice0 {A} (stop : Z) (l : list A) : list A :=
  let len := Z.of_nat (length l) in
  let stop := if stop <? 0 then Z.max 0 (len + stop) else Z.min stop len in
  take (Z.to_nat stop) l.

(** [l[i]] *)
Definition at_index {A} (l : list A) (i : Z) : option A :=
  if i <? 0 then None else l !! Z.to_nat i.

Definition saveToHistory (s : Editor) : Editor :=
  match maskCanvas s with
  | None => s
  | Some imageData =>
      let newHistory := slice0 (historyIndex s + 1) (history s) in
      let newHistory := newHistory ++ [imageData] in
      let newHistory :=
        if (50 <? length newHistory)%nat then drop 1 newHistory else newHistory in
      {| maskCanvas := maskCanvas s;
         history := newHistory;
         historyIndex := Z.of_nat (length newHistory) - 1;
         hasMask := hasMask s;
         isDrawing := isDrawing s;
         exported := exported s |}
  end.

(** The pixels of a canvas after [fillStyle = 'black'; fillRect(...)]. *)
Definition black_pixels (w h : nat) : list Z :=
  concat (replicate (w * h) [0; 0; 0; 255]).

(** The pixels of a canvas after [clearRect(...)]: transparent black. *)
Definition clear_pixels (w h : nat) : list Z :=
  replicate (4 * w * h) 0.

(** [for (let i = 0; i < maskData.data.length; i += 4) { ... }], started at
    [i]; [fuel] bounds the number of iterations. *)
Fixpoint binarize (fuel i : nat) (maskData exportData : list Z) : list Z :=
  match fuel with
  | O => exportData
  | S fuel =>
      if (i <? length maskData)%nat then
        let white :=
          match maskData !! (i + 3)%nat with
          | Some alpha => 10 <? alpha
          | None => false
          end in
        let exportData :=
          if white then
            <[(i + 3)%nat := 255]>
              (<[(i + 2)%nat := 255]>
                (<[(i + 1)%nat := 255]>
                  (<[i := 255]> exportData)))
          else exportData in
        binarize fuel (i + 4) maskData exportData
      else exportData
  end.

(** The image [exportMask] draws on its export canvas. *)
Definition binary_mask (canvas : ImageData) : ImageData :=
  let maskData := data canvas in
  let exportData := black_pixels (width canvas) (height canvas) in
  {| width := width canvas;
     height := height canvas;
     data := binarize (length maskData) 0 maskData exportData |}.

(** What [exportMask] hands to [onMaskChange], for the canvas it finds and
    the value of [hasMask] it closed over. *)
Definition exportMask_argument (canvas : option ImageData) (hasMask : bool)
    : option ImageData :=
  match canvas with
  | Some c => if hasMask then Some (binary_mask c) else None
  | None => None
  end.

Definition onMaskChange (arg : option ImageData) (s : Editor) : Editor :=
  {| maskCanvas := maskCanvas s; history := history s;
     historyIndex := historyIndex s; hasMask := hasMask s;
     isDrawing := isDrawing s; exported := arg :: exported s |}.

(** [exportMask], called from a handler that closed over [hasMask']. *)
Definition exportMask (hasMask' : bool) (s : Editor) : Editor :=
  onMaskChange (exportMask_argument (maskCanvas s) hasMask') s.

Definition set_canvas (c : option ImageData) (s : Editor) : Editor :=
  {| maskCanvas := c; history := history s;
     historyIndex := historyIndex s; hasMask := hasMask s;
     isDrawing := isDrawing s; exported := exported s |}.

Definition setHasMask (b : bool) (s : Editor) : Editor :=
  {| maskCanvas := maskCanvas s; history := history s;
     historyIndex := historyIndex s; hasMask := b;
     isDrawing := isDrawing s; exported := exported s |}.

Definition setHistoryIndex (i : Z) (s : Editor) : Editor :=
  {| maskCanvas := maskCanvas s; history := history s;
     historyIndex := i; hasMask := hasMask s;
     isDrawing := isDrawing s; exported := exported s |}.

Definition setIsDrawing (b : bool) (s : Editor) : Editor :=
  {| maskCanvas := maskCanvas s; history := history s;
     historyIndex := historyIndex s; hasMask := hasMask s;
     isDrawing := b; exported := exported s |}.

Definition cleared (c : ImageData) : ImageData :=
  {| width := width c; height := height c;
     data := clear_pixels (width c) (height c) |}.

(** [drawStroke]: the 2D context paints the stroke; [painted] is the
    content of the canvas afterwards. *)
Definition drawStroke (painted : ImageData) (s : Editor) : Editor :=
  match maskCanvas s with
  | None => s
  | Some _ => setHasMask true (set_canvas (Some painted) s)
  end.

(** [handlePointerDown] with the brush or the eraser, the editor enabled. *)
Definition handlePointerDown (painted : ImageData) (s : Editor) : Editor :=
  drawStroke painted (setIsDrawing true s).

(** [handlePointerMove] with the brush or the eraser, no panning. *)
Definition handlePointerMove (painted : ImageData) (s : Editor) : Editor :=
  if isDrawing s then drawStroke painted s else s.

Definition handlePointerUp (s : Editor) : Editor :=
  let s' := if isDrawing s then exportMask (hasMask s) (saveToHistory s) else s in
  setIsDrawing false s'.

Definition clearMask (s : Editor) : Editor :=
  match maskCanvas s with
  | None => s
  | Some canvas =>
      let s := set_canvas (Some (cleared canvas)) s in
      let s := setHasMask false s in
      let s := saveToHistory s in
      onMaskChange None s
  end.

(** [undo].  Had [history[newIndex]] been [undefined], [putImageData] would
    throw before any state is set: the state stays as it is. *)
Definition undo (s : Editor) : Editor :=
  if historyIndex s <=? 0 then s
  else
    match maskCanvas s with
    | None => s
    | Some canvas =>
        let newIndex := historyIndex s - 1 in
        if newIndex <? 0 then
          let s' := setHasMask false (set_canvas (Some (cleared canvas)) s) in
          exportMask (hasMask s) (setHistoryIndex newIndex s')
        else
          match at_index (history s) newIndex with
          | None => s
          | Some imageData =>
              let s' := setHasMask true (set_canvas (Some imageData) s) in
              exportMask (hasMask s) (setHistoryIndex newIndex s')
          end
    end.

Definition redo (s : Editor) : Editor :=
  if Z.of_nat (length (history s)) - 1 <=? historyIndex s then s
  else
    match maskCanvas s with
    | None => s
    | Some canvas =>
        let newIndex := historyIndex s + 1 in
        match at_index (history s) newIndex with
        | None => s
        | Some imageData =>
            let s' := set_canvas (Some imageData) s in
            let s' := setHistoryIndex newIndex s' in
            let s' := setHasMask true s' in
            exportMask (hasMask s) s'
        end
    end.

(** [img.onload] of the effect that loads [imageUrl]: with the canvas
    mounted, it is resized to the image and cleared, and the history is
    emptied. *)
Definition imageLoaded (w h : nat) (s : Editor) : Editor :=
  match maskCanvas s with
  | None => s
  | Some _ =>
      {| maskCanvas := Some {| width := w; height := h; data := clear_pixels w h |};
         history := [];
         historyIndex := -1;
         hasMask := false;
         isDrawing := isDrawing s;
         exported := exported s |}
  end.

(** What can happen to the editor.  The canvas element is mounted while an
    image is shown and unmounted while none is. *)
Inductive Event : Type :=
| CanvasMounted (w h : nat)
| CanvasUnmounted
| ImageLoaded (w h : nat)
| PointerDown (painted : ImageData)
| PointerMove (painted : ImageData)
| PointerUp
| ClearMask
| Undo
| Redo.

Definition step (s : Editor) (e : Event) : Editor :=
  match e with
  | CanvasMounted w h =>
      set_canvas (Some {| width := w; height := h; data := clear_pixels w h |}) s
  | CanvasUnmounted => set_canvas None s
  | ImageLoaded w h => imageLoaded w h s
  | PointerDown painted => handlePointerDown painted s
  | PointerMove painted => handlePointerMove painted s
  | PointerUp => handlePointerUp s
  | ClearMask => clearMask s
  | Undo => undo s
  | Redo => redo s
  end.

Definition run (events : list Event) : Editor := fold_left step events initial.

Definition reachable (s : Editor) : Prop := exists events, run events = s.

End Canvas.

(** ** [src/app/components/QuickActionsPanel.tsx]: the crop rectangle of the editor

    Coordinates and sizes are numbers, and the arithmetic on them is that of
    doubles. *)

Module Crop.
Import Js.

Record Point : Type := { px : number; py : number }.

Record Area : Type := { x : number; y : number; width : number; height : number }.

(** [{ width, height }] of the image, and of the rectangle it is shown in. *)
Record Dimensions : Type := { dim_width : number; dim_height : number }.

(** The crop part of the state of [AdvancedCanvasEditor]. *)
Record State : Type := {
  imageDimensions : Dimensions;
  isCropping : bool;
  cropArea : Area;
  isDraggingCrop : bool;
  cropDragStart : Point;
  cropStartArea : Area;
  cropResizeHandle : option string;
  hasCropChanges : bool
}.

Definition initializeCrop (s : State) : State :=
  let margin := Double.literal (1 # 10) in
  let dims := imageDimensions s in
  let inner := Double.sub (num_of_Z 1) (Double.mul margin (num_of_Z 2)) in
  {| imageDimensions := dims;
     isCropping := true;
     cropArea :=
       {| x := Double.mul (dim_width dims) margin;
          y := Double.mul (dim_height dims) margin;
          width := Double.mul (dim_width dims) inner;
          height := Double.mul (dim_height dims) inner |};
     isDraggingCrop := isDraggingCrop s;
     cropDragStart := cropDragStart s;
     cropStartArea := cropStartArea s;
     cropResizeHandle := cropResizeHandle s;
     hasCropChanges := false |}.

(** [handleCropMouseDown(e, handle)] with the pointer at [client]. *)
Definition handleCropMouseDown (client : Point) (handle : option string)
    (s : State) : State :=
  if negb (isCropping s) then s
  else
    let grabs := Js.str_truthy handle in
    {| imageDimensions := imageDimensions s;
       isCropping := isCropping s;
       cropArea := cropArea s;
       isDraggingCrop := if grabs then isDraggingCrop s else true;
       cropDragStart := client;
       cropStartArea := cropArea s;
       cropResizeHandle := if grabs then handle else cropResizeHandle s;
       hasCropChanges := hasCropChanges s |}.

Definition handleCropMouseUp (s : State) : State :=
  {| imageDimensions := imageDimensions s;
     isCropping := isCropping s;
     cropArea := cropArea s;
     isDraggingCrop := false;
     cropDragStart := cropDragStart s;
     cropStartArea := cropStartArea s;
     cropResizeHandle := None;
     hasCropChanges := hasCropChanges s |}.

(** [setCropArea(area); setHasCropChanges(true)] *)
Definition setCropArea (area : Area) (s : State) : State :=
  {| imageDimensions := imageDimensions s;
     isCropping := isCropping s;
     cropArea := area;
     isDraggingCrop := isDraggingCrop s;
     cropDragStart := cropDragStart s;
     cropStartArea := cropStartArea s;
     cropResizeHandle := cropResizeHandle s;
     hasCropChanges := true |}.

(** [img.onload] in the effect that loads the image: [setImageDimensions]
    with the size of the new image.  The crop is left as it is. *)
Definition image_onload (img : Dimensions) (s : State) : State :=
  {| imageDimensions := img;
     isCropping := isCropping s;
     cropArea := cropArea s;
     isDraggingCrop := isDraggingCrop s;
     cropDragStart := cropDragStart s;
     cropStartArea := cropStartArea s;
     cropResizeHandle := cropResizeHandle s;
     hasCropChanges := hasCropChanges s |}.

Definition minSize : number := num_of_Z 50.

(** The branch [if (isDraggingCrop)]: the whole rectangle moves. *)
Definition moved (dims : Dimensions) (start : Area) (deltaX deltaY : number) : Area :=
  let newX :=
    Math_max (num_of_Z 0)
      (Math_min (Double.add (x start) deltaX)
         (Double.sub (dim_width dims) (width start))) in
  let newY :=
    Math_max (num_of_Z 0)
      (Math_min (Double.add (y start) deltaY)
         (Double.sub (dim_height dims) (height start))) in
  {| x := newX; y := newY; width := width start; height := height start |}.

(** The branch [else if (cropResizeHandle)]: the four tests on the letters
    of the handle, each assigning to [newArea]. *)
Definition resized (dims : Dimensions) (start : Area) (handle : string)
    (deltaX deltaY : number) : Area :=
  let newArea := start in
  let newArea :=
    if Js.includes handle "e" then
      let newWidth := Math_max minSize (Double.add (width start) deltaX) in
      {| x := x newArea; y := y newArea;
         width := Math_min newWidth (Double.sub (dim_width dims) (x start));
         height := height newArea |}
    else newArea in
  let newArea :=
    if Js.includes handle "w" then
      let maxDeltaX := Double.sub (width start) minSize in
      let clampedDeltaX := Math_max (Double.neg (x start)) (Math_min deltaX maxDeltaX) in
      {| x := Double.add (x start) clampedDeltaX; y := y newArea;
         width := Double.sub (width start) clampedDeltaX;
         height := height newArea |}
    else newArea in
  let newArea :=
    if Js.includes handle "s" then
      let newHeight := Math_max minSize (Double.add (height start) deltaY) in
      {| x := x newArea; y := y newArea;
         width := width newArea;
         height := Math_min newHeight (Double.sub (dim_height dims) (y start)) |}
    else newArea in
  let newArea :=
    if Js.includes handle "n" then
      let maxDeltaY := Double.sub (height start) minSize in
      let clampedDeltaY := Math_max (Double.neg (y start)) (Math_min deltaY maxDeltaY) in
      {| x := x newArea; y := Double.add (y start) clampedDeltaY;
         width := width newArea;
         height := Double.sub (height start) clampedDeltaY |}
    else newArea in
  newArea.

(** [handleCropMouseMove(e)] with the pointer at [client].  [imgRect] is
    what [imageRef.current.getBoundingClientRect()] answers, [None] while the
    image or the container is not mounted. *)
Definition handleCropMouseMove (client : Point) (imgRect : option Dimensions)
    (s : State) : State :=
  if negb (isCropping s)
     || (negb (isDraggingCrop s) && negb (Js.str_truthy (cropResizeHandle s)))
  then s
  else
    match imgRect with
    | None => s
    | Some rect =>
        let dims := imageDimensions s in
        let scaleX := Double.div (dim_width dims) (dim_width rect) in
        let scaleY := Double.div (dim_height dims) (dim_height rect) in
        let deltaX := Double.mul (Double.sub (px client) (px (cropDragStart s))) scaleX in
        let deltaY := Double.mul (Double.sub (py client) (py (cropDragStart s))) scaleY in
        if isDraggingCrop s then
          setCropArea (moved dims (cropStartArea s) deltaX deltaY) s
        else
          match cropResizeHandle s with
          | Some handle =>
              if negb (String.eqb handle "")
              then setCropArea (resized dims (cropStartArea s) handle deltaX deltaY) s
              else s
          | None => s
          end
    end.

End Crop.

(** ** [src/app/lib/bria.ts]: HD generation and polling *)

Module BriaRest.
Import Js Types Http Bria.

(** The parameters [generateHDImage] hands to the mock. *)
Definition hd_mock_params : FIBOParams :=
  {| lighting := "natural";
     composition := "centered";
     realism_level := "high";
     output_format := "hdr_16bit";
     camera := {| yaw := num_of_Z 0; pitch := num_of_Z 0;
                  roll := num_of_Z 0; fov := num_of_Z 50 |};
     color_palette := None;
     subject_description := None;
     blur_intensity := None;
     new_background := None;
     expand_direction := None;
     expand_amount := None;
     upscale_factor := None;
     hdr_resolution := None |}.

(** The request of [generateHDImage]. *)
Definition generateHDImage_request (prompt : string) (apiToken : option string)
    : Request :=
  {| url := BRIA_API_BASE ++ "/image/generate/hd";
     api_token := token apiToken;
     body := JObj [ ("prompt", JStr prompt);
                    ("aspect_ratio", JStr "16:9");
                    ("sync", JBool true) ] |}.

Definition generateHDImage (prompt : string) (apiToken : option string)
    : M GenerateResponse :=
  if negb (str_truthy apiToken) then mockGenerateResponse hd_mock_params
  else
    let* response := fetch (generateHDImage_request prompt apiToken) in
    if negb (ok response) then
      throw (Error ("HD generation failed: " ++ Z_to_string (status response)))
    else
      let* data := lift (json response) in
      let* result := get_prop data "result" in
      ret (JObj [ ("imageUrl", opt_chain result "image_url");
                  ("seed", opt_chain result "seed") ]).

(** The request of one poll: a GET of the status URL, without a body. *)
Definition poll_request (statusUrl apiToken : string) : Request :=
  {| url := statusUrl; api_token := apiToken; body := JUndefined |}.

(** What one turn of the loop of [pollGenerationStatus] decides. *)
Inductive PollStep : Type :=
| Completed (result : GenerateResponse)
| Pending.

(** The body of the loop, up to the wait: [Completed] is the [return], a
    throw is the failure. *)
Definition poll_attempt (statusUrl apiToken : string) : M PollStep :=
  let* response := fetch (poll_request statusUrl apiToken) in
  let* data := lift (json response) in
  let* status := get_prop data "status" in
  let* result := get_prop data "result" in
  if match status with JStr st => String.eqb st "completed" | _ => false end
     && truthy result
  then
    let* image_url := get_prop result "image_url" in
    let* seed := get_prop result "seed" in
    let* structured_prompt := get_prop result "structured_prompt" in
    ret (Completed (JObj [ ("imageUrl", image_url);
                           ("seed", seed);
                           ("structuredPrompt", structured_prompt) ]))
  else if match status with JStr st => String.eqb st "failed" | _ => false end
  then
    let* error := get_prop data "error" in
    throw_new_Error (or_else error (JStr "Generation failed"))
  else ret Pending.

(** [for (let i = ...; i < maxAttempts; i++) { ... }] with [turns] turns
    still to go; [worlds i] is the world at the time of turn [i].  The wait
    between two turns takes time and nothing else. *)
Fixpoint poll_loop (statusUrl apiToken : string) (worlds : nat -> World)
    (turns i : nat) : list Request * (Thrown + GenerateResponse) :=
  match turns with
  | O => ([], inl (Error "Generation timed out"))
  | S turns =>
      match poll_attempt statusUrl apiToken (worlds i) with
      | (sent, inl e) => (sent, inl e)
      | (sent, inr (Completed result)) => (sent, inr result)
      | (sent, inr Pending) =>
          let (sent', r) := poll_loop statusUrl apiToken worlds turns (S i) in
          ((sent ++ sent')%list, r)
      end
  end.

(** [pollGenerationStatus(statusUrl, apiToken, maxAttempts)], [maxAttempts]
    an integer. *)
Definition pollGenerationStatus (statusUrl apiToken : string) (maxAttempts : Z)
    (worlds : nat -> World) : list Request * (Thrown + GenerateResponse) :=
  poll_loop statusUrl apiToken worlds (Z.to_nat maxAttempts) 0.

End BriaRest.

(** ** [src/app/api/generate/route.ts]: the helper the handler leaves unused *)

Module RouteRest.
Import Js.

(** [input.startsWith('data:') ? input.split(',')[1] || input : input] *)
Definition extractBase64 (input : string) : string :=
  if String.prefix "data:" input
  then str_or (nth_error (split "," input) 1) input
  else input.

End RouteRest.

(** ** [src/app/components/QuickActionsPanel.tsx]: filters, zoom and brush size of the editor *)

Module EditorRest.
Import Js.

Local Open Scope Q_scope.

(** Modelled from the spec: the declaration of [ImageFilters]
    ([components/LayersPanel]) is not among the sources.  The record has the
    seven fields [getFilterString] reads, all numbers. *)
Record ImageFilters : Type := {
  brightness : number;
  contrast : number;
  saturation : number;
  hue : number;
  blur : number;
  sepia : number;
  grayscale : number
}.

(** [a === b] on numbers: NaN equals nothing. *)
Definition num_eqb (a b : number) : bool :=
  match a, b with
  | Num x, Num y => Qeq_bool x y
  | PosInf, PosInf | NegInf, NegInf => true
  | _, _ => false
  end.

(** [getFilterString]; [show] is the text a template literal gives a
    number. *)
Definition getFilterString (show : number -> string) (filters : ImageFilters)
    : string :=
  let parts := [] in
  let parts :=
    Bria.push_if (negb (num_eqb (brightness filters) (num_of_Z 100)))
      ("brightness(" ++ show (brightness filters) ++ "%)") parts in
  let parts :=
    Bria.push_if (negb (num_eqb (contrast filters) (num_of_Z 100)))
      ("contrast(" ++ show (contrast filters) ++ "%)") parts in
  let parts :=
    Bria.push_if (negb (num_eqb (saturation filters) (num_of_Z 100)))
      ("saturate(" ++ show (saturation filters) ++ "%)") parts in
  let parts :=
    Bria.push_if (negb (num_eqb (hue filters) (num_of_Z 0)))
      ("hue-rotate(" ++ show (hue filters) ++ "deg)") parts in
  let parts :=
    Bria.push_if (num_gtb (blur filters) (num_of_Z 0))
      ("blur(" ++ show (blur filters) ++ "px)") parts in
  let parts :=
    Bria.push_if (num_gtb (sepia filters) (num_of_Z 0))
      ("sepia(" ++ show (sepia filters) ++ "%)") parts in
  let parts :=
    Bria.push_if (num_gtb (grayscale filters) (num_of_Z 0))
      ("grayscale(" ++ show (grayscale filters) ++ "%)") parts in
  if (0 <? length parts)%nat then join " " parts else "none".

(** [handleWheel]: the zoom after a wheel event; [tool] is the active tool. *)
Definition handleWheel (tool : string) (ctrlKey : bool) (deltaY : Q) (zoom : Q) : Q :=
  if String.eqb tool "zoom" || ctrlKey then
    let delta := if negb (Qle_bool deltaY 0) then 9 # 10 else 11 # 10 in
    Qmin (Qmax (zoom * delta) (1 # 4)) 4
  else zoom.

(** The state the drag that resizes the eraser uses. *)
Record EraserResize : Type := {
  isResizingEraser : bool;
  eraserResizeStartY : Q;
  brushSize : Q
}.

Definition handleEraserResizeStart (tool : string) (clientY : Q) (s : EraserResize)
    : EraserResize :=
  if String.eqb tool "eraser" then
    {| isResizingEraser := true; eraserResizeStartY := clientY;
       brushSize := brushSize s |}
  else s.

Definition handleEraserResize (clientY : Q) (s : EraserResize) : EraserResize :=
  if isResizingEraser s then
    let deltaY := eraserResizeStartY s - clientY in
    let newSize := Qmin (Qmax (brushSize s + deltaY * (1 # 2)) 5) 150 in
    {| isResizingEraser := isResizingEraser s; eraserResizeStartY := clientY;
       brushSize := newSize |}
  else s.

Definition handleEraserResizeEnd (s : EraserResize) : EraserResize :=
  {| isResizingEraser := false; eraserResizeStartY := eraserResizeStartY s;
     brushSize := brushSize s |}.

End EditorRest.

(** ** [src/app/editor/page.tsx]: the studio page *)

Module Page.
Import Js Types Route QuickActions.

(** [{ ...params, new_background: bgPrompt }] *)
Definition with_new_background (p : FIBOParams) (bgPrompt : option string) : FIBOParams :=
  {| lighting := lighting p;
     composition := composition p;
     realism_level := realism_level p;
     output_format := output_format p;
     camera := camera p;
     color_palette := color_palette p;
     subject_description := subject_description p;
     blur_intensity := blur_intensity p;
     new_background := bgPrompt;
     expand_direction := expand_direction p;
     expand_amount := expand_amount p;
     upscale_factor := upscale_factor p;
     hdr_resolution := hdr_resolution p |}.

(** [pendingOperation]: what the agent answered, kept until Generate. *)
Record PendingOperation : Type := {
  pending_operation : option string;
  pending_prompt : option string;
  pending_needsMask : bool
}.

(** The state of [StudioPage] that the requests to [/api/generate] read;
    [null] is [None]. *)
Record Studio : Type := {
  originalImage : option string;
  currentImage : option string;
  maskData : option string;
  studio_params : FIBOParams;
  pendingOperation : option PendingOperation
}.

(** [currentImage || originalImage] *)
Definition imageToEdit (s : Studio) : option string :=
  if str_truthy (currentImage s) then currentImage s else originalImage s.

(** [handleQuickAction(action)]: the body it posts to [/api/generate], or
    [None] when it returns before the [fetch].  [answer] is what
    [window.prompt] returns, asked only for background_replace. *)
Definition handleQuickAction_body (s : Studio) (action : QuickAction)
    (answer : option string) : option GenerateRequestBody :=
  if negb (str_truthy (imageToEdit s)) then None
  else if QuickAction_eqb action erase_element && negb (str_truthy (maskData s))
  then None
  else
    let bgPrompt :=
      if QuickAction_eqb action background_replace then answer else None in
    if QuickAction_eqb action background_replace && negb (str_truthy bgPrompt)
    then None
    else
      Some {| image := imageToEdit s;
              secondImage := None;
              mask := if QuickAction_eqb action erase_element then maskData s else None;
              params := Some (with_new_background (studio_params s) bgPrompt);
              prompt := bgPrompt;
              operation := Some (QuickAction_name action) |}.

(** [pendingOperation?.operation] and [pendingOperation?.prompt] *)
Definition pending_op (s : Studio) : option string :=
  match pendingOperation s with
  | Some po => pending_operation po
  | None => None
  end.

Definition pending_text (s : Studio) : option string :=
  match pendingOperation s with
  | Some po => pending_prompt po
  | None => None
  end.

(** [['inpaint_remove', 'inpaint_replace', 'inpaint_add'].includes(op)] *)
Definition is_inpaint (op : string) : bool :=
  existsb (String.eqb op) ["inpaint_remove"; "inpaint_replace"; "inpaint_add"].

(** [handleGenerate]: the body it posts, or [None] when it returns before
    the [fetch]. *)
Definition handleGenerate_body (s : Studio) : option GenerateRequestBody :=
  if negb (str_truthy (imageToEdit s)) then None
  else
    let needsMaskForOp :=
      match pending_op s with
      | Some op => negb (String.eqb op "") && is_inpaint op
      | None => false
      end in
    if needsMaskForOp && negb (str_truthy (maskData s)) then None
    else
      Some {| image := imageToEdit s;
              secondImage := None;
              mask := maskData s;
              params := Some (studio_params s);
              prompt := pending_text s;
              operation := pending_op s |}.

(** The body [handleCombineImages] posts for the two selected images. *)
Definition handleCombineImages_body (dataUrl1 dataUrl2 : string) (p : FIBOParams)
    : GenerateRequestBody :=
  {| image := Some dataUrl1;
     secondImage := Some dataUrl2;
     mask := None;
     params := Some p;
     prompt := Some "Combine these two images seamlessly into one cohesive image";
     operation := Some "combine_images" |}.

(** [handleToggleCombineSelection(id)] on the list of selected ids. *)
Definition handleToggleCombineSelection (id : string) (prev : list string)
    : list string :=
  if existsb (String.eqb id) prev then
    List.filter (fun imgId => negb (String.eqb imgId id)) prev
  else if (length prev <? 2)%nat then (prev ++ [id])%list
  else prev.

(** The keys that change the size of the brush: [[] and []]. *)
Inductive BrushKey : Type := SmallerBrush | LargerBrush.

Definition brush_key (k : BrushKey) (prev : Q) : Q :=
  match k with
  | SmallerBrush => Qmax 1 (prev - 5)
  | LargerBrush => Qmin 100 (prev + 5)
  end.

(** Modelled from the spec: the declaration of [Layer]
    ([components/LayersPanel]) is not among the sources.  The record has the
    fields the page reads when a layer is deleted or selected. *)
Record Layer : Type := {
  layer_id : string;
  layer_visible : bool;
  layer_data : option string
}.

(** The part of the state [handleDeleteLayer] and [handleSelectLayer]
    touch. *)
Record Layers : Type := {
  layers : list Layer;
  activeLayerId : option string;
  shown : option string
}.

(** [activeLayerId === id] *)
Definition is_active (s : Layers) (id : string) : bool :=
  match activeLayerId s with
  | Some a => String.eqb a id
  | None => false
  end.

Definition handleDeleteLayer (id : string) (s : Layers) : Layers :=
  let filtered := List.filter (fun l => negb (String.eqb (layer_id l) id)) (layers s) in
  match last filtered with
  | Some l =>
      if is_active s id then
        {| layers := filtered;
           activeLayerId := Some (layer_id l);
           shown := if str_truthy (layer_data l) then layer_data l else None |}
      else {| layers := filtered; activeLayerId := activeLayerId s; shown := shown s |}
  | None => {| layers := filtered; activeLayerId := activeLayerId s; shown := shown s |}
  end.

End Page.

(** ** [src/app/editor/page.tsx]: layers and uploads *)

Module PageRest.
Import Js Page.

(** [handleToggleLayerVisibility(id)] on the list of layers. *)
Definition handleToggleLayerVisibility (id : string) (ls : list Layer) : list Layer :=
  map (fun l =>
         if String.eqb (layer_id l) id
         then {| layer_id := layer_id l;
                 layer_visible := negb (layer_visible l);
                 layer_data := layer_data l |}
         else l) ls.

Definition handleSelectLayer (id : string) (s : Layers) : Layers :=
  {| layers := layers s;
     activeLayerId := Some id;
     shown :=
       match List.find (fun l => String.eqb (layer_id l) id) (layers s) with
       | Some l => if str_truthy (layer_data l) then layer_data l else shown s
       | None => shown s
       end |}.

(** [UploadedImage], without its name. *)
Record UploadedImage : Type := {
  upload_id : string;
  dataUrl : string
}.

(** The part of the state of the page [handleRemoveImage] touches. *)
Record Gallery : Type := {
  uploadedImages : list UploadedImage;
  gallery_originalImage : option string;
  gallery_currentImage : option string;
  gallery_layers : list Layer;
  gallery_activeLayerId : option string;
  selectedForCombine : list string
}.

Definition handleRemoveImage (id : string) (g : Gallery) : Gallery :=
  let filtered :=
    List.filter (fun img => negb (String.eqb (upload_id img) id)) (uploadedImages g) in
  let removedImg :=
    List.find (fun img => String.eqb (upload_id img) id) (uploadedImages g) in
  let removed_is_current :=
    match removedImg, gallery_currentImage g with
    | Some r, Some c => String.eqb (dataUrl r) c
    | _, _ => false
    end in
  let selected :=
    List.filter (fun imgId => negb (String.eqb imgId id)) (selectedForCombine g) in
  match filtered with
  | first :: _ =>
      if removed_is_current then
        {| uploadedImages := filtered;
           gallery_originalImage := Some (dataUrl first);
           gallery_currentImage := Some (dataUrl first);
           gallery_layers := gallery_layers g;
           gallery_activeLayerId := gallery_activeLayerId g;
           selectedForCombine := selected |}
      else
        {| uploadedImages := filtered;
           gallery_originalImage := gallery_originalImage g;
           gallery_currentImage := gallery_currentImage g;
           gallery_layers := gallery_layers g;
           gallery_activeLayerId := gallery_activeLayerId g;
           selectedForCombine := selected |}
  | [] =>
      {| uploadedImages := filtered;
         gallery_originalImage := None;
         gallery_currentImage := None;
         gallery_layers := [];
         gallery_activeLayerId := None;
         selectedForCombine := selected |}
  end.

End PageRest.

(** * The vocabulary of the properties *)

Import Js Types Http Bria Route.

(** ** Runs, calls and requests *)

(** The requests a run sends and its outcome. *)
Definition sent {A} (m : M A) (w : World) : list Request := fst (m w).

Definition outcome {A} (m : M A) (w : World) : Thrown + A := snd (m w).

(** A run that sends nothing, whatever the world answers. *)
Definition silent {A} (m : M A) : Prop := forall w, sent m w = [].

Create HintDb silent.

(** [client_call apiToken call rq]: [call] is a call of one of the functions
    of the client with the token [apiToken], and [rq] is the request that
    call builds. *)
Inductive client_call (apiToken : option string)
    : M GenerateResponse -> Request -> Prop :=
| call_removeBackground image :
    client_call apiToken (removeBackground image apiToken)
      (removeBackground_request image apiToken)
| call_blurBackground image intensity :
    client_call apiToken (blurBackground image intensity apiToken)
      (blurBackground_request image intensity apiToken)
| call_replaceBackground image prompt :
    client_call apiToken (replaceBackground image prompt apiToken)
      (replaceBackground_request image prompt apiToken)
| call_expandImage image direction amount prompt :
    client_call apiToken (expandImage image direction amount prompt apiToken)
      (expandImage_request image direction prompt apiToken)
| call_upscaleImage image factor :
    client_call apiToken (upscaleImage image factor apiToken)
      (upscaleImage_request image factor apiToken)
| call_enhanceImage image resolution :
    client_call apiToken (enhanceImage image resolution apiToken)
      (enhanceImage_request image resolution apiToken)
| call_eraseElements image mask :
    client_call apiToken (eraseElements image mask apiToken)
      (eraseElements_request image mask apiToken)
| call_generateImage_fill image mask params prompt :
    image <> "" -> mask <> "" ->
    client_call apiToken (generateImage image (Some mask) params prompt apiToken)
      (generateWithGenFill_request image mask (buildRichPrompt params prompt)
         (token apiToken))
| call_generateImage_standard image mask params prompt :
    image = "" \/ str_truthy mask = false ->
    client_call apiToken (generateImage image mask params prompt apiToken)
      (generateStandard_request (Some image) (buildRichPrompt params prompt)
         (token apiToken)).

(** The prompt the [default:] branch hands to [generateImage]. *)
Definition effective_prompt (p : FIBOParams) (prompt operation : option string) : string :=
  if op_is operation "inpaint_remove"
  then str_or prompt "empty, background continues naturally"
  else if String.eqb (str_or prompt "") "" then buildPromptFromParams p
  else str_or prompt "".

(** The operations that need a mask. *)
Definition mask_operations : list string :=
  ["erase_element"; "inpaint_remove"; "inpaint_replace"; "inpaint_add"].

(** ** Sample inputs *)

Definition sample_params : FIBOParams :=
  {| lighting := "studio_soft";
     composition := "rule_of_thirds";
     realism_level := "high";
     output_format := "png";
     camera := {| yaw := num_of_Z 0; pitch := num_of_Z 0;
                  roll := num_of_Z 0; fov := num_of_Z 50 |};
     color_palette := None;
     subject_description := None;
     blur_intensity := None;
     new_background := None;
     expand_direction := None;
     expand_amount := None;
     upscale_factor := None;
     hdr_resolution := None |}.

(** A body with an image and parameters, for the operation [op]. *)
Definition sample_body (op : option string) (mask : option string)
    : GenerateRequestBody :=
  {| image := Some "data:image/png;base64,AAAA";
     secondImage := None;
     mask := mask;
     params := Some sample_params;
     prompt := None;
     operation := op |}.

Definition sample_request (op : option string) (mask : option string) : NextRequest :=
  {| request_json := inr (sample_body op mask) |}.

(** A world whose API answers every request with the status 503. *)
Definition failing_world (apiToken : option string) : World :=
  {| BRIA_API_TOKEN := apiToken;
     fetch_answer := fun _ =>
       inr {| status := 503; text := "Service Unavailable";
              json := inl (Error "Unexpected token S in JSON at position 0") |};
     Math_random := 1 # 4;
     JSON_parse := fun _ => inl (Error "Unexpected token S in JSON at position 0");
     JSON_stringify := fun _ => "{}";
     ToString := fun _ => "[object Object]" |}.

(** A world whose API answers every request with a result. *)
Definition working_world : World :=
  {| BRIA_API_TOKEN := Some "token";
     fetch_answer := fun _ =>
       inr {| status := 200; text := "";
              json := inr (JObj [("result",
                                   JObj [ ("image_url", JStr "https://cdn.example/out.png");
                                          ("seed", JNum (num_of_Z 7)) ])]) |};
     Math_random := 1 # 4;
     JSON_parse := fun _ => inl (Error "Unexpected end of JSON input");
     JSON_stringify := fun _ => "{}";
     ToString := fun _ => "[object Object]" |}.

(** ** The answers of the handler *)

Definition refusal (message : string) : NextResponse :=
  NextResponse_json (JObj [("error", JStr message)]) 400.

Definition refusal_needs_mask (message : string) : NextResponse :=
  NextResponse_json (JObj [("error", JStr message); ("needsMask", JBool true)]) 400.

Definition server_error (message : string) : NextResponse :=
  NextResponse_json (JObj [("error", JStr message)]) 500.

(** ** The scale of the blur *)

(** The intensity the specification describes: the field when it is a number other
    than zero, 50 otherwise. *)
Definition claimed_intensity (p : FIBOParams) : number :=
  match blur_intensity p with
  | Some (Num q) => if Qeq_bool q 0 then num_of_Z 50 else Num q
  | Some PosInf => PosInf
  | Some NegInf => NegInf
  | Some NaN | None => num_of_Z 50
  end.

(** The scale the specification describes: [i / 20] rounded to the nearest integer
    (halves up), then brought into the range from 1 to 5. *)
Definition clamped_round (i : number) : option Z :=
  match i with
  | Num q => Some (Z.min 5 (Z.max 1 (Qfloor (q / 20 + (1 # 2)))))
  | PosInf => Some 5
  | NegInf => Some 1
  | NaN => None
  end.

(** ** The shapes of the bodies *)

(** The keys of the body of a request: its shape. *)
Definition shape (rq : Request) : list string := keys (Http.body rq).

(** The endpoints and the shapes of the bodies sent to them. *)
Definition shape_table : list (string * list string) :=
  [ (BRIA_EDIT_BASE ++ "/remove_background", ["image"; "sync"]);
    (BRIA_EDIT_BASE ++ "/blur_background", ["image"; "scale"; "sync"]);
    (BRIA_EDIT_BASE ++ "/replace_background", ["image"; "prompt"; "mode"; "sync"]);
    (BRIA_EDIT_BASE ++ "/expand", ["image"; "aspect_ratio"; "sync"]);
    (BRIA_EDIT_BASE ++ "/expand", ["image"; "aspect_ratio"; "sync"; "prompt"]);
    (BRIA_EDIT_BASE ++ "/increase_resolution", ["image"; "desired_increase"; "sync"]);
    (BRIA_EDIT_BASE ++ "/enhance", ["image"; "resolution"; "steps_num"; "sync"]);
    (BRIA_EDIT_BASE ++ "/erase", ["image"; "mask"; "sync"]);
    (BRIA_EDIT_BASE ++ "/gen_fill",
      ["image"; "mask"; "prompt"; "sync"; "version"; "mask_type"]);
    (BRIA_API_BASE ++ "/image/generate", ["sync"; "aspect_ratio"; "prompt"]);
    (BRIA_API_BASE ++ "/image/generate", ["sync"; "aspect_ratio"; "prompt"; "images"]) ].

Ltac find_shape := repeat first [left; reflexivity | right].

Definition shape_table_injective_check : bool :=
  forallb (fun a =>
    forallb (fun b =>
      implb (bool_decide (snd a = snd b)) (bool_decide (fst a = fst b)))
      shape_table) shape_table.

(** The operations with a case of their own that calls the client, and
    the three that fall through to the [default:] branch. *)
Definition named_operations : list string :=
  [ "background_remove"; "background_blur"; "background_replace"; "image_expand";
    "image_upscale"; "hdr_enhance"; "erase_element" ].

Definition inpaint_operations : list string :=
  ["inpaint_remove"; "inpaint_replace"; "inpaint_add"].

(** ** The history of the mask *)

Module HistorySpec.
Import Canvas.
Local Open Scope list_scope.
Local Open Scope Z_scope.

(** The history is bounded and the index points into it (or is -1 while it
    is empty). *)
Definition well_formed (s : Editor) : Prop :=
  (length (history s) <= 50)%nat
  /\ -1 <= historyIndex s < Z.of_nat (length (history s)).


(** The states [saveToHistory] keeps: those up to the index. *)
Definition kept (s : Editor) : list ImageData :=
  take (Z.to_nat (historyIndex s + 1)) (history s).

(** The run of events: an image is loaded and one stroke is drawn. *)
Definition one_stroke : list Event :=
  [ CanvasMounted 1 1; ImageLoaded 1 1;
    PointerDown {| width := 1; height := 1; data := [255; 0; 0; 153] |} ].

(** Three one-pixel images, told apart by their colour. *)
Definition red : ImageData := {| width := 1; height := 1; data := [255; 0; 0; 255] |}.




End HistorySpec.

(** ** The pixels of the mask *)

Module MaskSpec.
Import Canvas.
Local Open Scope list_scope.
Local Open Scope Z_scope.

(** A pixel: red, green, blue, alpha. *)
Definition Pixel : Type := Z * Z * Z * Z.

(** The bytes of a row of pixels, as [ImageData.data] lays them out. *)
Definition bytes_of (pixels : list Pixel) : list Z :=
  flat_map (fun '(r, g, b, a) => [r; g; b; a]) pixels.

Definition white : Pixel := (255, 255, 255, 255).

Definition black : Pixel := (0, 0, 0, 255).

(** What the specification says a pixel becomes. *)
Definition binary_pixel (px : Pixel) : Pixel :=
  let '(_, _, _, alpha) := px in if 10 <? alpha then white else black.

End MaskSpec.

(** ** Crop interactions *)

Module CropSpec.
Import Js Crop.




(** What happens while the crop overlay is shown: the pointer, and the end
    of the loading of another image. *)
Inductive Event : Type :=
| MouseDown (client : Point) (handle : option string)
| MouseMove (client : Point) (imgRect : option Dimensions)
| MouseUp
| ImageReplaced (img : Dimensions).

Definition step (s : State) (e : Event) : State :=
  match e with
  | MouseDown client handle => handleCropMouseDown client handle s
  | MouseMove client imgRect => handleCropMouseMove client imgRect s
  | MouseUp => handleCropMouseUp s
  | ImageReplaced img => image_onload img s
  end.


(** A crop interaction: the Crop button, then the events. *)
Definition session (s0 : State) (events : list Event) : State :=
  fold_left step events (initializeCrop s0).





(** The pointer at whole pixels. *)
Definition at_pixel (cx cy : Z) : Point := {| px := num_of_Z cx; py := num_of_Z cy |}.

Definition no_area : Area :=
  {| x := num_of_Z 0; y := num_of_Z 0; width := num_of_Z 0; height := num_of_Z 0 |}.

(** An editor showing an image of 800 by 600 with no crop under way. *)
Definition sample_state : State :=
  {| imageDimensions := {| dim_width := num_of_Z 800; dim_height := num_of_Z 600 |};
     isCropping := false;
     cropArea := no_area;
     isDraggingCrop := false;
     cropDragStart := at_pixel 0 0;
     cropStartArea := no_area;
     cropResizeHandle := None;
     hasCropChanges := false |}.

(** The south-east corner is pulled far outside the image, shown at half
    its size. *)
Definition sample_resize : list Event :=
  [ MouseDown (at_pixel 360 270) (Some "se");
    MouseMove (at_pixel 900 20)
      (Some {| dim_width := num_of_Z 400; dim_height := num_of_Z 300 |}) ].

(** A photograph of 4032 by 3024 with no crop under way. *)
Definition photograph : State :=
  {| imageDimensions := {| dim_width := num_of_Z 4032; dim_height := num_of_Z 3024 |};
     isCropping := false;
     cropArea := no_area;
     isDraggingCrop := false;
     cropDragStart := at_pixel 0 0;
     cropStartArea := no_area;
     cropResizeHandle := None;
     hasCropChanges := false |}.

(** The photograph is shown 402 pixels wide and 301.5 high. *)
Definition shown : option Dimensions :=
  Some {| dim_width := num_of_Z 402; dim_height := Num (603 # 2) |}.

(** The east handle is pulled 50 pixels to the right, past the edge of the
    image; then the west handle one pixel to the right. *)
Definition to_the_edge : list Event :=
  [ MouseDown (at_pixel 362 150) (Some "e");
    MouseMove (at_pixel 412 150) shown;
    MouseUp;
    MouseDown (at_pixel 40 150) (Some "w");
    MouseMove (at_pixel 41 150) shown;
    MouseUp ].

(** Then the west handle is pulled to the right until the width is 50, and
    the east handle is grabbed. *)
Definition narrowed : list Event :=
  (to_the_edge ++
   [ MouseDown (at_pixel 41 150) (Some "w");
     MouseMove (at_pixel 401 150) shown;
     MouseUp;
     MouseDown (at_pixel 402 150) (Some "e") ])%list.

(** The east handle is moved three pixels to the left. *)
Definition nudge : Event := MouseMove (at_pixel 399 150) shown.



End CropSpec.

(** ** The placeholder answer *)



(** * The vocabulary of the further properties *)

(** ** Texts *)

(** Whether the character [c] occurs in [s]. *)
Fixpoint has_char (c : ascii) (s : string) : bool :=
  match s with
  | EmptyString => false
  | String a rest => Ascii.eqb a c || has_char c rest
  end.

(** ** What the handler sends *)

Definition text_of (v : JsVal) : list string :=
  match v with
  | JStr s => [s]
  | _ => []
  end.

(** The images and the mask a request carries in its body. *)
Definition payloads (rq : Request) : list string :=
  (text_of (opt_chain (Http.body rq) "image")
   ++ text_of (opt_chain (Http.body rq) "mask")
   ++ match opt_chain (Http.body rq) "images" with
      | JArr items => flat_map text_of items
      | _ => []
      end)%list.

(** ** Prompts *)

(** A list of parts whose first part is [u]. *)
Definition starts_with (u : string) (parts : list string) : Prop :=
  exists rest, parts = u :: rest.

(** ** Answers without a result *)

(** The two endpoints that generate an image, as opposed to editing one. *)
Definition is_generation_url (u : string) : bool :=
  String.eqb u (BRIA_EDIT_BASE ++ "/gen_fill")
  || String.eqb u (BRIA_API_BASE ++ "/image/generate").

(** A world whose API answers every request with 200 and an empty object. *)
Definition hollow_world : World :=
  {| BRIA_API_TOKEN := Some "token";
     fetch_answer := fun _ => inr {| status := 200; text := "{}"; json := inr (JObj []) |};
     Math_random := 1 # 4;
     JSON_parse := fun _ => inr (JObj []);
     JSON_stringify := fun _ => "{}";
     ToString := fun _ => "[object Object]" |}.

(** ** Expanding an image *)

(** The white space and the line terminators of ECMAScript, by code point. *)
Definition white_space_code_points : list N :=
  [ 0x9; 0xA; 0xB; 0xC; 0xD; 0x20; 0xA0; 0x1680;
    0x2000; 0x2001; 0x2002; 0x2003; 0x2004; 0x2005; 0x2006; 0x2007; 0x2008;
    0x2009; 0x200A; 0x2028; 0x2029; 0x202F; 0x205F; 0x3000; 0xFEFF ]%N.

(** The UTF-8 encoding of a code point below U+10000. *)
Definition utf8 (cp : N) : string :=
  (if cp <? 0x80 then String (ascii_of_N cp) ""
   else if cp <? 0x800 then
     String (ascii_of_N (0xC0 + cp / 0x40))
       (String (ascii_of_N (0x80 + cp mod 0x40)) "")
   else
     String (ascii_of_N (0xE0 + cp / 0x1000))
       (String (ascii_of_N (0x80 + (cp / 0x40) mod 0x40))
          (String (ascii_of_N (0x80 + cp mod 0x40)) "")))%N.

(** The code point that three bytes encode. *)
Definition code_point_3 (a b c : ascii) : N :=
  ((N_of_ascii a - 0xE0) * 0x1000 + (N_of_ascii b - 0x80) * 0x40
   + (N_of_ascii c - 0x80))%N.

(** A text of white space only (the empty text included). *)
Inductive Blank : string -> Prop :=
| Blank_empty : Blank ""
| Blank_more (cp : N) (s : string) :
    In cp white_space_code_points -> Blank s -> Blank (utf8 cp ++ s).

(** The value of a key in the body of a request, [undefined] when absent. *)
Definition body_field (rq : Request) (k : string) : JsVal :=
  opt_chain (Http.body rq) k.

(** ** The structured prompt *)

(** A key of [photographic_characteristics] in a structured prompt. *)
Definition photographic (sp : JsVal) (k : string) : JsVal :=
  opt_chain (opt_chain sp "photographic_characteristics") k.

(** ** Polling and the HD generation *)

Import BriaRest.

(** The end of a session of polling whose first turn that is not pending
    ended in [o]. *)
Definition poll_end (o : Thrown + PollStep) : Thrown + GenerateResponse :=
  match o with
  | inl e => inl e
  | inr (Completed result) => inr result
  | inr Pending => inl (Error "Generation timed out")
  end.

Definition timed_out : Thrown + GenerateResponse := inl (Error "Generation timed out").

(** A world whose status URL answers with the status [st] and a result. *)
Definition poll_world (st : string) : World :=
  {| BRIA_API_TOKEN := Some "token";
     fetch_answer := fun _ =>
       inr {| status := 200; text := "";
              json := inr (JObj [ ("status", JStr st);
                                  ("result", JObj [("image_url", JStr "https://cdn.example/out.png")]) ]) |};
     Math_random := 1 # 4;
     JSON_parse := fun _ => inl (Error "Unexpected end of JSON input");
     JSON_stringify := fun _ => "{}";
     ToString := fun _ => "[object Object]" |}.

(** Two turns of processing, then completed. *)
Definition sample_worlds (i : nat) : World :=
  if (i <? 2)%nat then poll_world "processing" else poll_world "completed".

(** A world whose API refuses every request with the status 503 and the
    text [reason]. *)
Definition refusing_world (reason : string) : World :=
  {| BRIA_API_TOKEN := Some "token";
     fetch_answer := fun _ =>
       inr {| status := 503; text := reason;
              json := inl (Error "Unexpected token in JSON at position 0") |};
     Math_random := 1 # 4;
     JSON_parse := fun _ => inl (Error "Unexpected token in JSON at position 0");
     JSON_stringify := fun _ => "{}";
     ToString := fun _ => "[object Object]" |}.

(** ** The mask editor, further *)

Module StrokeSpec.
Import Canvas HistorySpec.

(** The run of events: an image is loaded, one stroke is drawn and finished. *)
Definition one_saved_stroke : list Event :=
  [ CanvasMounted 1 1; ImageLoaded 1 1; PointerDown red; PointerUp ].

End StrokeSpec.

(** ** Zoom, brush and filters *)

Module EditorRestSpec.
Import Js EditorRest.

(** Every filter is at the value that leaves the image as it is. *)
Definition neutral (filters : ImageFilters) : bool :=
  num_eqb (brightness filters) (num_of_Z 100)
  && num_eqb (contrast filters) (num_of_Z 100)
  && num_eqb (saturation filters) (num_of_Z 100)
  && num_eqb (hue filters) (num_of_Z 0)
  && negb (num_gtb (blur filters) (num_of_Z 0))
  && negb (num_gtb (sepia filters) (num_of_Z 0))
  && negb (num_gtb (grayscale filters) (num_of_Z 0)).

(** The filters of an image nobody has touched. *)
Definition default_filters : ImageFilters :=
  {| brightness := num_of_Z 100; contrast := num_of_Z 100;
     saturation := num_of_Z 100; hue := num_of_Z 0;
     blur := num_of_Z 0; sepia := num_of_Z 0; grayscale := num_of_Z 0 |}.

(** Case analysis on every [Qmax] and [Qmin] in sight. *)
Ltac minmax :=
  repeat match goal with
  | |- context [Qmax ?a ?b] =>
      let m := fresh "m" in
      pose proof (Q.max_spec a b); set (m := Qmax a b) in *; clearbody m
  | |- context [Qmin ?a ?b] =>
      let m := fresh "m" in
      pose proof (Q.min_spec a b); set (m := Qmin a b) in *; clearbody m
  | H : context [Qmax ?a ?b] |- _ =>
      let m := fresh "m" in
      pose proof (Q.max_spec a b); set (m := Qmax a b) in *; clearbody m
  | H : context [Qmin ?a ?b] |- _ =>
      let m := fresh "m" in
      pose proof (Q.min_spec a b); set (m := Qmin a b) in *; clearbody m
  end.

End EditorRestSpec.

(** ** The studio page *)

Module PageSpec.
Import QuickActions Page.

(** The path of the editing endpoint behind each quick action. *)
Definition endpoint (a : QuickAction) : string :=
  match a with
  | background_remove => "/remove_background"
  | background_blur => "/blur_background"
  | background_replace => "/replace_background"
  | image_expand => "/expand"
  | image_upscale => "/increase_resolution"
  | erase_element => "/erase"
  | hdr_enhance => "/enhance"
  end.

(** The request to [/api/generate] whose JSON body is [b]. *)
Definition posted (b : GenerateRequestBody) : NextRequest :=
  {| request_json := inr b |}.

(** [b] with another second image. *)
Definition with_secondImage (b : GenerateRequestBody) (second : option string)
    : GenerateRequestBody :=
  {| image := image b; secondImage := second; mask := mask b;
     params := params b; prompt := prompt b; operation := operation b |}.

Definition combine_prompt : string :=
  "Combine these two images seamlessly into one cohesive image".

(** The ids of the layers, in order. *)
Definition layer_ids (s : Layers) : list string := map layer_id (layers s).

(** A studio with an uploaded image, no mask and nothing pending. *)
Definition sample_studio : Studio :=
  {| originalImage := Some "data:image/png;base64,AAAA";
     currentImage := None;
     maskData := None;
     studio_params := sample_params;
     pendingOperation := None |}.

(** The same studio after the agent proposed to erase an element. *)
Definition erase_pending : Studio :=
  {| originalImage := Some "data:image/png;base64,AAAA";
     currentImage := None;
     maskData := None;
     studio_params := sample_params;
     pendingOperation :=
       Some {| pending_operation := Some "erase_element";
               pending_prompt := Some "erase the lamp";
               pending_needsMask := true |} |}.

(** Two layers, the second one active. *)
Definition two_layers : Layers :=
  {| layers := [ {| layer_id := "layer-1"; layer_visible := true;
                    layer_data := Some "data:image/png;base64,AAAA" |};
                 {| layer_id := "layer-2"; layer_visible := true;
                    layer_data := Some "data:image/png;base64,BBBB" |} ];
     activeLayerId := Some "layer-2";
     shown := Some "data:image/png;base64,BBBB" |}.

End PageSpec.

(** ** Uploads *)

Module PageRestSpec.
Import Page PageRest.

(** Two uploads, the first one shown. *)
Definition two_uploads : Gallery :=
  {| uploadedImages :=
       [ {| upload_id := "img-1"; dataUrl := "data:image/png;base64,AAAA" |};
         {| upload_id := "img-2"; dataUrl := "data:image/png;base64,BBBB" |} ];
     gallery_originalImage := Some "data:image/png;base64,AAAA";
     gallery_currentImage := Some "data:image/png;base64,AAAA";
     gallery_layers := [];
     gallery_activeLayerId := None;
     selectedForCombine := ["img-1"; "img-2"] |}.

End PageRestSpec.

(** * Properties *)

(** ** Runs of asynchronous code *)

Lemma silent_ret {A} (a : A) : silent (ret a).
Proof. intros w. reflexivity. Qed.

Lemma silent_throw {A} (e : Thrown) : silent (@throw A e).
Proof. intros w. reflexivity. Qed.

Lemma silent_lift {A} (r : Thrown + A) : silent (lift r).
Proof. intros w. reflexivity. Qed.

Lemma silent_ask : silent ask.
Proof. intros w. reflexivity. Qed.

Lemma silent_bind {A B} (m : M A) (k : A -> M B) :
  silent m -> (forall a, silent (k a)) -> silent (bind m k).
Proof.
  intros Hm Hk w. unfold sent, bind. specialize (Hm w). unfold sent in Hm.
  destruct (m w) as [tr [e | a]]; simpl in *; subst; [reflexivity |].
  specialize (Hk a w). unfold sent in Hk.
  destruct (k a w) as [tr' r]. simpl in *. now subst.
Qed.

Lemma silent_try_catch {A} (m : M A) (handler : Thrown -> M A) :
  silent m -> (forall e, silent (handler e)) -> silent (try_catch m handler).
Proof.
  intros Hm Hh w. unfold sent, try_catch. specialize (Hm w). unfold sent in Hm.
  destruct (m w) as [tr [e | a]]; simpl in *; subst; [| reflexivity].
  specialize (Hh e w). unfold sent in Hh.
  destruct (handler e w) as [tr' r]. simpl in *. now subst.
Qed.

Lemma silent_get_prop (v : JsVal) (k : string) : silent (get_prop v k).
Proof. destruct v; intros w; reflexivity. Qed.

Lemma silent_if {A} (c : bool) (m1 m2 : M A) :
  silent m1 -> silent m2 -> silent (if c then m1 else m2).
Proof. now destruct c. Qed.

#[export] Hint Resolve silent_ret silent_throw silent_lift silent_ask
  silent_get_prop : silent.

Ltac silence :=
  repeat first
    [ progress eauto with silent
    | apply silent_bind; [| intros ?]
    | apply silent_try_catch; [| intros ?]
    | apply silent_if ].

Lemma silent_result_image_url (data : JsVal) : silent (result_image_url data).
Proof. unfold result_image_url. silence. Qed.

Lemma silent_result_seed (data : JsVal) : silent (result_seed data).
Proof. unfold result_seed. silence. Qed.

Lemma silent_api_error_message (r : Response) : silent (api_error_message r).
Proof. unfold api_error_message. silence. Qed.

Lemma silent_throw_new_Error {A} (v : JsVal) : silent (@throw_new_Error A v).
Proof. unfold throw_new_Error. silence. Qed.

Lemma silent_mockGenerateResponse (p : FIBOParams) : silent (mockGenerateResponse p).
Proof. unfold mockGenerateResponse. silence. Qed.

#[export] Hint Resolve silent_result_image_url silent_result_seed
  silent_api_error_message silent_throw_new_Error
  silent_mockGenerateResponse : silent.

(** A single [fetch] followed by code that sends nothing. *)
Lemma sent_fetch_bind {A} (rq : Request) (k : Response -> M A) (w : World) :
  (forall r, silent (k r)) -> sent (bind (fetch rq) k) w = [rq].
Proof.
  intros Hk. unfold sent, bind, fetch.
  destruct (fetch_answer w rq) as [e | r]; [reflexivity |].
  specialize (Hk r w). unfold sent in Hk.
  destruct (k r w) as [tr res]. simpl in *. now subst.
Qed.

Lemma sent_try_catch_rethrow {A} (m : M A) (w : World) :
  sent (try_catch m (fun error => throw error)) w = sent m w.
Proof.
  unfold sent, try_catch. destruct (m w) as [tr [e | a]]; simpl; [| reflexivity].
  now rewrite app_nil_r.
Qed.

Lemma try_catch_rethrow {A} (m : M A) (w : World) :
  try_catch m (fun error => throw error) w = m w.
Proof.
  unfold try_catch. destruct (m w) as [tr [e | a]]; simpl; [| reflexivity].
  now rewrite app_nil_r.
Qed.

(** The run of a [fetch] the world answers with the response [r]. *)
Lemma fetch_bind_answer {A} (rq : Request) (k : Response -> M A) (w : World) (r : Response) :
  fetch_answer w rq = inr r ->
  bind (fetch rq) k w = ((rq :: fst (k r w)), snd (k r w)).
Proof.
  intros H. unfold bind, fetch. rewrite H. now destruct (k r w).
Qed.

(** What the handler makes of a client call: the reply with status 200, or
    the reply with status 500 built from what the call threw. *)
Lemma respond_ok (call : M GenerateResponse) (w : World) tr (result : JsVal) :
  call w = (tr, inr result) ->
  try_catch (respond call) on_error w = (tr, inr (NextResponse_json result 200)).
Proof.
  intros H. unfold try_catch, respond, bind. rewrite H. simpl.
  now rewrite app_nil_r.
Qed.

Lemma respond_thrown (call : M GenerateResponse) (w : World) tr (e : Thrown) :
  call w = (tr, inl e) ->
  try_catch (respond call) on_error w = (tr, snd (on_error e w)).
Proof.
  intros H. unfold try_catch, respond, bind. rewrite H. simpl.
  now rewrite app_nil_r.
Qed.

Lemma sent_respond (call : M GenerateResponse) (w : World) :
  sent (try_catch (respond call) on_error) w = sent call w.
Proof.
  unfold sent. destruct (call w) as [tr [e | a]] eqn:H.
  - now rewrite (respond_thrown _ _ _ _ H).
  - now rewrite (respond_ok _ _ _ _ H).
Qed.

(** A request that passes the two checks of the handler is routed. *)
Lemma POST_routed (request : NextRequest) (body : GenerateRequestBody)
    (img : string) (p : FIBOParams) (w : World) :
  request_json request = inr body ->
  image body = Some img -> img <> "" -> params body = Some p ->
  POST request w =
  try_catch (route img (mask body) p (prompt body) (operation body) (BRIA_API_TOKEN w))
    on_error w.
Proof.
  intros Hj Hi Hne Hp. unfold POST, try_catch, bind, lift, ask.
  rewrite Hj, Hi, Hp. destruct img as [| a rest]; [congruence |]. simpl.
  now destruct (route _ _ _ _ _ _ w) as [tr [e | r]].
Qed.

(** ** The calls of the client *)

Lemma eqb_empty_false (s : string) : s <> "" -> String.eqb s "" = false.
Proof. intros H. now apply String.eqb_neq. Qed.

Lemma str_truthy_Some (s : string) : s <> "" -> str_truthy (Some s) = true.
Proof. intros H. unfold str_truthy. now rewrite eqb_empty_false. Qed.

Lemma generateImage_fill image mask params prompt tok :
  str_truthy tok = true -> image <> "" -> mask <> "" ->
  generateImage image (Some mask) params prompt tok =
  generateWithGenFill image mask (buildRichPrompt params prompt) (token tok).
Proof.
  intros Ht Hi Hm. unfold generateImage.
  now rewrite Ht, (eqb_empty_false _ Hi), (str_truthy_Some _ Hm).
Qed.

Lemma generateImage_standard image mask params prompt tok :
  str_truthy tok = true -> image = "" \/ str_truthy mask = false ->
  generateImage image mask params prompt tok =
  generateStandard (Some image) (buildRichPrompt params prompt) (token tok).
Proof.
  intros Ht H. unfold generateImage. rewrite Ht. simpl.
  destruct H as [-> | ->]; [reflexivity |]. now rewrite andb_false_r.
Qed.

Lemma generateImage_mock image mask params prompt tok :
  str_truthy tok = false ->
  generateImage image mask params prompt tok = mockGenerateResponse params.
Proof. intros Ht. unfold generateImage. now rewrite Ht. Qed.

(** With a token, a call sends its request and nothing else, whatever the
    answer. *)
Lemma client_call_sent tok call rq (w : World) :
  client_call tok call rq -> str_truthy tok = true -> sent call w = [rq].
Proof.
  intros Hc Ht.
  destruct Hc;
    try (rewrite generateImage_fill by assumption);
    try (rewrite generateImage_standard by assumption);
    try (unfold generateWithGenFill, generateStandard;
         rewrite sent_try_catch_rethrow);
    try (unfold removeBackground, blurBackground, replaceBackground,
           expandImage, upscaleImage, enhanceImage, eraseElements;
         rewrite Ht; simpl);
    apply sent_fetch_bind; intros r; silence.
Qed.

(** Without a token, a call sends nothing. *)
Lemma client_call_silent tok call rq :
  client_call tok call rq -> str_truthy tok = false -> silent call.
Proof.
  intros Hc Ht.
  destruct Hc;
    try (rewrite generateImage_mock by assumption);
    try (unfold removeBackground, blurBackground, replaceBackground,
           expandImage, upscaleImage, enhanceImage, eraseElements;
         rewrite Ht; simpl);
    silence.
Qed.

(** The message of a failed generation call is always found: the inner
    [try] swallows what parsing the text of the response throws. *)
Lemma api_error_message_total (r : Response) (w : World) :
  exists v, api_error_message r w = ([], inr v).
Proof.
  unfold api_error_message, try_catch, bind, ask, lift.
  destruct (JSON_parse w (text r)) as [e | errorData]; simpl; [eauto |].
  destruct errorData; simpl; eauto.
Qed.

(** With a token and a response that is not OK, a call throws an [Error]
    after its single request. *)
Lemma client_call_failed tok call rq (w : World) (r : Response) :
  client_call tok call rq -> str_truthy tok = true ->
  fetch_answer w rq = inr r -> ok r = false ->
  exists message, call w = ([rq], inl (Error message)).
Proof.
  intros Hc Ht Ha Hok.
  destruct Hc;
    try (rewrite generateImage_fill by assumption);
    try (rewrite generateImage_standard by assumption);
    try (unfold generateWithGenFill, generateStandard;
         rewrite try_catch_rethrow, (fetch_bind_answer _ _ _ _ Ha), Hok; simpl;
         destruct (api_error_message_total r w) as [v Hv];
         unfold bind; rewrite Hv; simpl; eauto);
    unfold removeBackground, blurBackground, replaceBackground,
      expandImage, upscaleImage, enhanceImage, eraseElements;
    rewrite Ht; simpl; rewrite (fetch_bind_answer _ _ _ _ Ha), Hok; simpl;
    try destruct (includes (text r) "canvas_size is too big"); simpl; eauto.
Qed.

(** ** The switch of the handler *)

Lemma default_generation_call img mask p prompt op tok :
  default_generation img mask p prompt op tok =
  respond (generateImage img mask p (Some (effective_prompt p prompt op)) tok).
Proof. reflexivity. Qed.

(** A call of [generateImage] on a non-empty image is one of the two calls
    of [client_call]. *)
Lemma generateImage_client_call img mask p prompt tok :
  img <> "" ->
  exists rq, client_call tok (generateImage img mask p prompt tok) rq.
Proof.
  intros Hi. destruct mask as [m |].
  - destruct (String.eqb m "") eqn:E.
    + apply String.eqb_eq in E. subst m. eexists.
      apply call_generateImage_standard. now right.
    + apply String.eqb_neq in E. eexists.
      now apply call_generateImage_fill.
  - eexists. apply call_generateImage_standard. now right.
Qed.

(** The handler either refuses for want of a mask, or answers with one call
    of the client. *)
Lemma route_cases img mask p prompt op tok :
  img <> "" ->
  (exists name, op = Some name /\ In name mask_operations /\ str_truthy mask = false /\
     route img mask p prompt op tok =
     ret (if String.eqb name "erase_element" then erase_needs_mask
          else inpaint_needs_mask))
  \/ (exists call rq, client_call tok call rq /\
        route img mask p prompt op tok = respond call).
Proof.
  intros Hi. unfold route.
  destruct (op_is op "background_remove") eqn:E1;
    [right; eexists _, _; split; [constructor | reflexivity] |].
  destruct (op_is op "background_blur") eqn:E2;
    [right; eexists _, _; split; [constructor | reflexivity] |].
  destruct (op_is op "background_replace") eqn:E3;
    [right; eexists _, _; split; [constructor | reflexivity] |].
  destruct (op_is op "image_expand") eqn:E4;
    [right; eexists _, _; split; [constructor | reflexivity] |].
  destruct (op_is op "image_upscale") eqn:E5;
    [right; eexists _, _; split; [constructor | reflexivity] |].
  destruct (op_is op "hdr_enhance") eqn:E6;
    [right; eexists _, _; split; [constructor | reflexivity] |].
  destruct (op_is op "erase_element") eqn:E7.
  { destruct op as [name |]; [| discriminate]. apply String.eqb_eq in E7. subst name.
    destruct mask as [[| a m] |].
    - left. exists "erase_element". simpl. tauto.
    - right. eexists _, _. split; [constructor | reflexivity].
    - left. exists "erase_element". simpl. tauto. }
  destruct (op_is op "inpaint_remove" || op_is op "inpaint_replace"
            || op_is op "inpaint_add") eqn:E8.
  { destruct (str_truthy mask) eqn:Em; simpl.
    - right. rewrite default_generation_call.
      destruct (generateImage_client_call img mask p
                  (Some (effective_prompt p prompt op)) tok Hi) as [rq Hc].
      eauto.
    - left. destruct op as [name |]; [| discriminate]. exists name.
      simpl in E7, E8. rewrite E7.
      repeat split; try reflexivity.
      apply orb_true_iff in E8 as [E8 | E8]; [apply orb_true_iff in E8 as [E8 | E8] |];
        apply String.eqb_eq in E8; subst name; simpl; tauto. }
  right. rewrite default_generation_call.
  destruct (generateImage_client_call img mask p
              (Some (effective_prompt p prompt op)) tok Hi) as [rq Hc].
  eauto.
Qed.

(** ** Requests the handler refuses *)

(** C3.  [POST /api/generate] answers with the status 400 and sends no
    request to the external API when the body has no image (error
    'Image is required'), when it has an image but no parameters (error
    'FIBO parameters are required'), and when it has both, the operation is
    erase_element, inpaint_remove, inpaint_replace or inpaint_add, and there
    is no mask; in that last case the body of the answer also carries
    [needsMask: true].  In each of the three situations the status is 400 and
    nothing is sent. *)
Theorem missing_input_is_refused (request : NextRequest) (body : GenerateRequestBody)
    (w : World) :
  request_json request = inr body ->
  (str_truthy (image body) = false ->
     POST request w = ([], inr (refusal "Image is required")))
  /\ (str_truthy (image body) = true -> params body = None ->
        POST request w = ([], inr (refusal "FIBO parameters are required")))
  /\ (forall name,
        str_truthy (image body) = true -> params body <> None ->
        operation body = Some name -> In name mask_operations ->
        str_truthy (mask body) = false ->
        exists message,
          POST request w = ([], inr (refusal_needs_mask message)))
  /\ (str_truthy (image body) = false \/ params body = None
      \/ (exists name, operation body = Some name /\ In name mask_operations
                       /\ str_truthy (mask body) = false) ->
      sent (POST request) w = []
      /\ exists reply, outcome (POST request) w = inr reply
                       /\ response_status reply = 400).
Proof.
  intros Hj.
  assert (H1 : str_truthy (image body) = false ->
               POST request w = ([], inr (refusal "Image is required"))).
  { intros Hi. unfold POST, try_catch, bind, lift. rewrite Hj.
    destruct (image body) as [[| a s] |]; try reflexivity. discriminate. }
  assert (H2 : str_truthy (image body) = true -> params body = None ->
               POST request w = ([], inr (refusal "FIBO parameters are required"))).
  { intros Hi Hp. unfold POST, try_catch, bind, lift. rewrite Hj, Hp.
    destruct (image body) as [[| a s] |]; try reflexivity; discriminate. }
  assert (H3 : forall name,
             str_truthy (image body) = true -> params body <> None ->
             operation body = Some name -> In name mask_operations ->
             str_truthy (mask body) = false ->
             exists message,
               POST request w = ([], inr (refusal_needs_mask message))).
  { intros name Hi Hp Ho Hn Hm.
    destruct (image body) as [img |] eqn:Ei; [| discriminate].
    destruct (params body) as [p |] eqn:Ep; [| congruence].
    assert (Hne : img <> "") by (intros ->; discriminate).
    rewrite (POST_routed request body img p w Hj Ei Hne Ep), Ho.
    simpl in Hn.
    destruct Hn as [<- | [<- | [<- | [<- | []]]]];
      unfold route; simpl; rewrite ?Hm; simpl;
      try (destruct (mask body) as [[| a m] |]; try discriminate);
      eexists; reflexivity. }
  repeat split; try assumption.
  - destruct H as [Hi | [Hp | (name & Ho & Hn & Hm)]].
    + unfold sent. now rewrite (H1 Hi).
    + destruct (str_truthy (image body)) eqn:Hi.
      * unfold sent. now rewrite (H2 eq_refl Hp).
      * unfold sent. now rewrite (H1 eq_refl).
    + destruct (str_truthy (image body)) eqn:Hi; [| unfold sent; now rewrite (H1 eq_refl)].
      destruct (params body) as [p |] eqn:Hp; [| unfold sent; now rewrite (H2 eq_refl eq_refl)].
      destruct (H3 name eq_refl ltac:(discriminate) Ho Hn Hm) as [message Hr].
      unfold sent. now rewrite Hr.
  - destruct H as [Hi | [Hp | (name & Ho & Hn & Hm)]].
    + unfold outcome. rewrite (H1 Hi). eauto.
    + destruct (str_truthy (image body)) eqn:Hi.
      * unfold outcome. rewrite (H2 eq_refl Hp). eauto.
      * unfold outcome. rewrite (H1 eq_refl). eauto.
    + destruct (str_truthy (image body)) eqn:Hi; [| unfold outcome; rewrite (H1 eq_refl); eauto].
      destruct (params body) as [p |] eqn:Hp; [| unfold outcome; rewrite (H2 eq_refl eq_refl); eauto].
      destruct (H3 name eq_refl ltac:(discriminate) Ho Hn Hm) as [message Hr].
      unfold outcome. rewrite Hr. eauto.
Qed.

Lemma missing_input_is_refused_witness :
  let request := {| request_json := inr
                      {| image := None; secondImage := None; mask := None;
                         params := None; prompt := None;
                         operation := Some "erase_element" |} |} in
  exists body,
    request_json request = inr body
    /\ str_truthy (image body) = false
    /\ POST request (failing_world (Some "token")) =
       ([], inr (refusal "Image is required")).
Proof.
  intros request. eexists. split; [reflexivity |]. split; [reflexivity |].
  apply (missing_input_is_refused request _ (failing_world (Some "token")) eq_refl).
  reflexivity.
Defined.

(** ** Failed responses *)

(** C2.  Take a request with an image and parameters, a configured token,
    and an external API that answers every request with a status that is
    not OK.  Unless the handler refuses the request for want of a mask
    (status 400, nothing sent), the handler makes one call of the client;
    that call sends exactly one request and throws an [Error]; the handler
    catches it and answers with the status 500 and the message of the error
    in the field [error].  Whatever the call, a thrown value that is not an
    [Error] gives the status 500 with 'Failed to generate image'. *)
Theorem failed_response_is_propagated (request : NextRequest)
    (body : GenerateRequestBody) (img : string) (p : FIBOParams) (w : World) :
  request_json request = inr body ->
  image body = Some img -> img <> "" -> params body = Some p ->
  str_truthy (BRIA_API_TOKEN w) = true ->
  (forall rq, exists r, fetch_answer w rq = inr r /\ ok r = false) ->
  ((sent (POST request) w = []
    /\ exists reply, outcome (POST request) w = inr reply
                     /\ response_status reply = 400)
   \/ (exists call rq message,
         client_call (BRIA_API_TOKEN w) call rq
         /\ route img (mask body) p (prompt body) (operation body) (BRIA_API_TOKEN w)
            = respond call
         /\ call w = ([rq], inl (Error message))
         /\ POST request w = ([rq], inr (server_error message))))
  /\ (forall (call : M GenerateResponse) tr v,
        call w = (tr, inl (NonError v)) ->
        try_catch (respond call) on_error w =
        (tr, inr (server_error "Failed to generate image"))).
Proof.
  intros Hj Hi Hne Hp Ht Hw. split.
  - unfold sent, outcome.
    rewrite (POST_routed request body img p w Hj Hi Hne Hp).
    destruct (route_cases img (mask body) p (prompt body) (operation body)
                (BRIA_API_TOKEN w) Hne)
      as [(name & Ho & Hn & Hm & Hr) | (call & rq & Hc & Hr)].
    + left. rewrite Hr. unfold try_catch, ret. simpl.
      split; [reflexivity |]. eexists. split; [reflexivity |].
      now destruct (String.eqb name "erase_element").
    + right. destruct (Hw rq) as (r & Ha & Hok).
      destruct (client_call_failed _ _ _ w r Hc Ht Ha Hok) as [message Hm].
      exists call, rq, message. repeat split; try assumption.
      rewrite Hr. now rewrite (respond_thrown _ _ _ _ Hm).
  - intros call tr v Hc. now rewrite (respond_thrown _ _ _ _ Hc).
Qed.

Lemma failed_response_is_propagated_witness :
  exists rq message,
    POST (sample_request (Some "background_remove") None) (failing_world (Some "token")) =
    ([rq], inr (server_error message)).
Proof.
  destruct (failed_response_is_propagated
              (sample_request (Some "background_remove") None)
              (sample_body (Some "background_remove") None)
              "data:image/png;base64,AAAA" sample_params
              (failing_world (Some "token"))
              eq_refl eq_refl ltac:(discriminate) eq_refl eq_refl
              ltac:(intros rq; eexists; split; reflexivity))
    as [[[Hsent _] | (call & rq & message & _ & _ & _ & HP)] _].
  - discriminate Hsent.
  - exists rq, message. exact HP.
Defined.

(** ** The scale of the blur *)

Lemma Qle_bool_inject_Z (a b : Z) : Qle_bool (inject_Z a) (inject_Z b) = (a <=? b)%Z.
Proof. unfold Qle_bool, inject_Z. simpl. now rewrite !Z.mul_1_r. Qed.

Lemma Math_max_Z (a b : Z) : Math_max (num_of_Z a) (num_of_Z b) = num_of_Z (Z.max a b).
Proof.
  unfold Math_max, num_of_Z, num_leb. rewrite Qle_bool_inject_Z.
  destruct (Z.leb_spec a b); f_equal; f_equal; lia.
Qed.

Lemma Math_min_Z (a b : Z) : Math_min (num_of_Z a) (num_of_Z b) = num_of_Z (Z.min a b).
Proof.
  unfold Math_min, num_of_Z, num_leb. rewrite Qle_bool_inject_Z.
  destruct (Z.leb_spec a b); f_equal; f_equal; lia.
Qed.

Lemma blur_intensity_claimed (p : FIBOParams) :
  num_or (blur_intensity p) (num_of_Z 50) = claimed_intensity p.
Proof.
  unfold num_or, claimed_intensity, num_truthy.
  destruct (blur_intensity p) as [[| | | q] |]; try reflexivity.
  now destruct (Qeq_bool q 0).
Qed.

Lemma claimed_intensity_scale (p : FIBOParams) :
  exists k, clamped_round (claimed_intensity p) = Some k /\ (1 <= k <= 5)%Z
    /\ Math_min (num_of_Z 5)
         (Math_max (num_of_Z 1) (Math_round (num_div (claimed_intensity p) 20)))
       = num_of_Z k.
Proof.
  assert (Hfin : forall q, exists k,
             clamped_round (Num q) = Some k /\ (1 <= k <= 5)%Z
             /\ Math_min (num_of_Z 5)
                  (Math_max (num_of_Z 1) (Math_round (num_div (Num q) 20)))
                = num_of_Z k).
  { intros q. eexists. split; [reflexivity |]. split; [lia |].
    unfold num_div, Math_round. now rewrite Math_max_Z, Math_min_Z. }
  unfold claimed_intensity.
  destruct (blur_intensity p) as [[| | | q] |].
  - apply Hfin.
  - exists 5%Z. repeat split; lia.
  - exists 1%Z. repeat split; lia.
  - destruct (Qeq_bool q 0); apply Hfin.
  - apply Hfin.
Qed.

(** C10.  For every background_blur request (an image, parameters, a
    configured token), the handler sends one request, to the blur endpoint,
    and the [scale] in its body is an integer [k] between 1 and 5: the
    nearest integer to [i / 20] (halves up) brought into that range, where
    [i] is [params.blur_intensity] when that is a number other than zero and
    50 otherwise.  In particular a [blur_intensity] of 0 gives the scale 3. *)
Theorem blur_scale_is_clamped (request : NextRequest) (body : GenerateRequestBody)
    (img : string) (p : FIBOParams) (w : World) :
  request_json request = inr body ->
  image body = Some img -> img <> "" -> params body = Some p ->
  operation body = Some "background_blur" ->
  str_truthy (BRIA_API_TOKEN w) = true ->
  exists (k : Z) (rq : Request),
    clamped_round (claimed_intensity p) = Some k
    /\ (1 <= k <= 5)%Z
    /\ sent (POST request) w = [rq]
    /\ url rq = BRIA_EDIT_BASE ++ "/blur_background"
    /\ opt_chain (Http.body rq) "scale" = JNum (num_of_Z k)
    /\ (forall q, blur_intensity p = Some (Num q) -> (q == 0)%Q -> k = 3%Z).
Proof.
  intros Hj Hi Hne Hp Ho Ht.
  destruct (claimed_intensity_scale p) as (k & Hk & Hr & Hs).
  exists k, (blurBackground_request img (claimed_intensity p) (BRIA_API_TOKEN w)).
  split; [assumption |]. split; [assumption |]. split.
  - unfold sent. rewrite (POST_routed request body img p w Hj Hi Hne Hp), Ho.
    unfold route. simpl. rewrite blur_intensity_claimed.
    change (sent (try_catch (respond (blurBackground img (claimed_intensity p)
                                        (BRIA_API_TOKEN w))) on_error) w = 
            [blurBackground_request img (claimed_intensity p) (BRIA_API_TOKEN w)]).
    rewrite sent_respond. apply client_call_sent with (tok := BRIA_API_TOKEN w);
      [constructor | assumption].
  - split; [reflexivity |]. split.
    + unfold blurBackground_request, opt_chain, Http.body, lookup_field.
      change (String.eqb "scale" "image") with false.
      change (String.eqb "scale" "scale") with true.
      cbv iota. exact (f_equal JNum Hs).
    + intros q Hq Hz. unfold claimed_intensity in Hk. rewrite Hq in Hk.
      apply Qeq_bool_iff in Hz. rewrite Hz in Hk. simpl in Hk.
      injection Hk as <-. reflexivity.
Qed.

Lemma blur_scale_is_clamped_witness :
  let p := {| lighting := "studio_soft"; composition := "centered";
              realism_level := "high"; output_format := "png";
              camera := {| yaw := num_of_Z 0; pitch := num_of_Z 0;
                           roll := num_of_Z 0; fov := num_of_Z 50 |};
              color_palette := None; subject_description := None;
              blur_intensity := Some (num_of_Z 0);
              new_background := None; expand_direction := None;
              expand_amount := None; upscale_factor := None;
              hdr_resolution := None |} in
  let body := {| image := Some "AAAA"; secondImage := None; mask := None;
                 params := Some p; prompt := None;
                 operation := Some "background_blur" |} in
  exists rq,
    sent (POST {| request_json := inr body |}) (failing_world (Some "token")) = [rq]
    /\ opt_chain (Http.body rq) "scale" = JNum (num_of_Z 3).
Proof.
  intros p body.
  destruct (blur_scale_is_clamped {| request_json := inr body |} body "AAAA" p
              (failing_world (Some "token"))
              eq_refl eq_refl ltac:(discriminate) eq_refl eq_refl eq_refl)
    as (k & rq & _ & _ & Hsent & _ & Hscale & Hzero).
  exists rq. split; [exact Hsent |].
  rewrite Hscale. now rewrite (Hzero 0%Q eq_refl (Qeq_refl 0)).
Defined.

(** ** The arithmetic of doubles *)

Module DoubleFacts.
Import Double.
Local Open Scope Q_scope.


Lemma pow2_add (a b : Z) : pow2 (a + b) == pow2 a * pow2 b.
Proof. apply Qpower_plus. discriminate. Qed.

Lemma pow2_succ (a : Z) : pow2 (a + 1) == 2 * pow2 a.
Proof. rewrite pow2_add. change (pow2 1) with 2. ring. Qed.










(** ** Rounding to the nearest integer *)






(** ** Rounding to a double *)

Lemma round64_0 : round64 0 = 0.
Proof. reflexivity. Qed.












End DoubleFacts.

(** ** Without a token *)



(** ** The operation selects the call *)

Lemma client_call_shape tok call rq :
  client_call tok call rq -> In (url rq, shape rq) shape_table.
Proof.
  intros Hc.
  destruct Hc as [ | | | img direction amount pr | | | | | img m p pr Hm];
    unfold shape_table, shape; try solve [find_shape].
  - unfold expandImage_request.
    destruct pr as [pr |]; [| find_shape].
    destruct (negb (String.eqb pr "") && negb (String.eqb (trim pr) ""));
      find_shape.
  - unfold generateStandard_request.
    destruct (negb (String.eqb img "")); find_shape.
Qed.

Lemma shape_table_injective (u1 u2 : string) (k1 k2 : list string) :
  In (u1, k1) shape_table -> In (u2, k2) shape_table -> k1 = k2 -> u1 = u2.
Proof.
  intros H1 H2 Hk.
  assert (Hc : shape_table_injective_check = true) by (vm_compute; reflexivity).
  unfold shape_table_injective_check in Hc.
  rewrite forallb_forall in Hc. specialize (Hc _ H1).
  rewrite forallb_forall in Hc. specialize (Hc _ H2).
  simpl in Hc. rewrite (bool_decide_eq_true_2 _ Hk) in Hc. simpl in Hc.
  now apply bool_decide_eq_true_1 in Hc.
Qed.

Lemma op_is_false (op : option string) (name : string) :
  op <> Some name -> op_is op name = false.
Proof.
  intros H. destruct op as [o |]; [| reflexivity]. simpl.
  apply String.eqb_neq. congruence.
Qed.

Lemma op_is_true (op : option string) (name : string) :
  op_is op name = true -> op = Some name.
Proof.
  destruct op as [o |]; [| discriminate]. simpl. intros H.
  apply String.eqb_eq in H. now subst.
Qed.

(** An operation other than the seven named ones reaches the [default:]
    branch, unless it is an inpainting operation that comes without a mask. *)
Lemma route_default img mask p prompt op tok :
  (forall name, In name named_operations -> op <> Some name) ->
  (forall name, In name inpaint_operations -> op = Some name -> str_truthy mask = true) ->
  route img mask p prompt op tok = default_generation img mask p prompt op tok.
Proof.
  intros Hn Hm. unfold route.
  rewrite !op_is_false by (apply Hn; simpl; tauto).
  destruct (op_is op "inpaint_remove") eqn:E1.
  { simpl. now rewrite (Hm "inpaint_remove" ltac:(simpl; tauto) (op_is_true _ _ E1)). }
  destruct (op_is op "inpaint_replace") eqn:E2.
  { simpl. now rewrite (Hm "inpaint_replace" ltac:(simpl; tauto) (op_is_true _ _ E2)). }
  destruct (op_is op "inpaint_add") eqn:E3.
  { simpl. now rewrite (Hm "inpaint_add" ltac:(simpl; tauto) (op_is_true _ _ E3)). }
  reflexivity.
Qed.

(** C1, as stated, fails.  An inpaint_remove request with an image and
    parameters but no mask is not handed to [generateImage]: the handler
    answers 400 and sends nothing, where the call would have sent a request.
    And with no token, [generateImage] with a mask does not use the gen_fill
    endpoint: it sends nothing. *)
Lemma inpaint_without_mask_is_not_generated :
  let request := sample_request (Some "inpaint_remove") None in
  let w := failing_world (Some "token") in
  let call :=
    generateImage "data:image/png;base64,AAAA" None sample_params
      (Some (effective_prompt sample_params None (Some "inpaint_remove")))
      (Some "token") in
  POST request w = ([], inr inpaint_needs_mask)
  /\ sent call w <> []
  /\ POST request w <> try_catch (respond call) on_error w
  /\ sent (generateImage "data:image/png;base64,AAAA" (Some "data:image/png;base64,BBBB")
             sample_params None None) (failing_world None) = [].
Proof.
  intros request w call. repeat split.
  - vm_compute. discriminate.
  - vm_compute. discriminate.
Qed.

(** C1, amended.  For every request with an image and parameters, the
    operation selects the call of the client whose outcome the handler
    answers with: background_remove, background_blur, background_replace,
    image_expand, image_upscale and hdr_enhance select [removeBackground],
    [blurBackground], [replaceBackground], [expandImage], [upscaleImage] and
    [enhanceImage]; erase_element with a mask selects [eraseElements]; an
    inpainting operation without a mask is answered 400 with no call; every
    other operation, and an inpainting operation with a mask, goes to
    [generateImage].  With a token configured, [generateImage] sends its one
    request to the gen_fill endpoint when there is a mask and to the
    image/generate endpoint when there is none.  Two calls whose bodies have
    the same shape go to the same endpoint: each endpoint has body shapes of
    its own. *)
Theorem operation_selects_the_call (request : NextRequest)
    (body : GenerateRequestBody) (img : string) (p : FIBOParams) (w : World) :
  request_json request = inr body ->
  image body = Some img -> img <> "" -> params body = Some p ->
  let apiToken := BRIA_API_TOKEN w in
  let op := operation body in
  let answer (call : M GenerateResponse) := try_catch (respond call) on_error w in
  (op = Some "background_remove" ->
     POST request w = answer (removeBackground img apiToken))
  /\ (op = Some "background_blur" ->
        POST request w =
        answer (blurBackground img (num_or (blur_intensity p) (num_of_Z 50)) apiToken))
  /\ (op = Some "background_replace" ->
        POST request w =
        answer (replaceBackground img
                  (str_or (new_background p)
                     (str_or (prompt body) "professional studio background"))
                  apiToken))
  /\ (op = Some "image_expand" ->
        POST request w =
        answer (expandImage img (str_or (expand_direction p) "all")
                  (num_or (expand_amount p) (num_of_Z 25)) (prompt body) apiToken))
  /\ (op = Some "image_upscale" ->
        POST request w =
        answer (upscaleImage img (num_or (upscale_factor p) (num_of_Z 2)) apiToken))
  /\ (op = Some "hdr_enhance" ->
        POST request w =
        answer (enhanceImage img (str_or (hdr_resolution p) "2MP") apiToken))
  /\ (forall m, op = Some "erase_element" -> mask body = Some m -> m <> "" ->
        POST request w = answer (eraseElements img m apiToken))
  /\ (forall name, op = Some name -> In name inpaint_operations ->
        str_truthy (mask body) = false ->
        POST request w = ([], inr inpaint_needs_mask))
  /\ ((forall name, In name named_operations -> op <> Some name) ->
      (forall name, In name inpaint_operations -> op = Some name ->
                    str_truthy (mask body) = true) ->
      POST request w =
      answer (generateImage img (mask body) p
                (Some (effective_prompt p (prompt body) op)) apiToken))
  /\ (str_truthy apiToken = true ->
      forall mask' prompt',
        exists rq,
          sent (generateImage img mask' p prompt' apiToken) w = [rq]
          /\ url rq = if str_truthy mask' then BRIA_EDIT_BASE ++ "/gen_fill"
                      else BRIA_API_BASE ++ "/image/generate")
  /\ (forall tok1 call1 rq1 tok2 call2 rq2,
        client_call tok1 call1 rq1 -> client_call tok2 call2 rq2 ->
        shape rq1 = shape rq2 -> url rq1 = url rq2).
Proof.
  intros Hj Hi Hne Hp apiToken op answer.
  pose proof (POST_routed request body img p w Hj Hi Hne Hp) as HP.
  fold apiToken op in HP. unfold answer.
  repeat match goal with |- _ /\ _ => split end.
  - intros Ho. rewrite HP, Ho. reflexivity.
  - intros Ho. rewrite HP, Ho. reflexivity.
  - intros Ho. rewrite HP, Ho. reflexivity.
  - intros Ho. rewrite HP, Ho. reflexivity.
  - intros Ho. rewrite HP, Ho. reflexivity.
  - intros Ho. rewrite HP, Ho. reflexivity.
  - intros m Ho Hm Hmne. rewrite HP, Ho, Hm.
    destruct m as [| a m]; [congruence | reflexivity].
  - intros name Ho Hn Hm. rewrite HP, Ho.
    simpl in Hn. destruct Hn as [<- | [<- | [<- | []]]];
      unfold route; simpl; rewrite Hm; reflexivity.
  - intros Hn Hm. rewrite HP, (route_default _ _ _ _ _ _ Hn Hm).
    now rewrite default_generation_call.
  - intros Ht mask' prompt'. destruct mask' as [m |].
    + destruct (String.eqb m "") eqn:E.
      * apply String.eqb_eq in E. subst m. eexists. split.
        -- apply client_call_sent with (tok := apiToken); [| assumption].
           apply call_generateImage_standard. now right.
        -- reflexivity.
      * apply String.eqb_neq in E. eexists. split.
        -- apply client_call_sent with (tok := apiToken); [| assumption].
           now apply call_generateImage_fill.
        -- unfold str_truthy. now rewrite eqb_empty_false.
    + eexists. split.
      * apply client_call_sent with (tok := apiToken); [| assumption].
        apply call_generateImage_standard. now right.
      * reflexivity.
  - intros tok1 call1 rq1 tok2 call2 rq2 H1 H2 Hs.
    apply client_call_shape in H1, H2.
    exact (shape_table_injective _ _ _ _ H1 H2 Hs).
Qed.

Lemma operation_selects_the_call_witness :
  POST (sample_request (Some "image_upscale") None) (failing_world (Some "token")) =
  try_catch
    (respond (upscaleImage "data:image/png;base64,AAAA" (num_of_Z 2) (Some "token")))
    on_error (failing_world (Some "token")).
Proof.
  apply (operation_selects_the_call
           (sample_request (Some "image_upscale") None)
           (sample_body (Some "image_upscale") None)
           "data:image/png;base64,AAAA" sample_params
           (failing_world (Some "token"))
           eq_refl eq_refl ltac:(discriminate) eq_refl).
  reflexivity.
Defined.

(** ** The history of the mask *)

Module HistoryFacts.
Import HistorySpec.
Import Canvas.
Local Open Scope list_scope.
Local Open Scope Z_scope.

Lemma slice0_kept (s : Editor) :
  well_formed s -> slice0 (historyIndex s + 1) (history s) = kept s.
Proof.
  intros [_ Hi]. unfold slice0, kept.
  destruct (Z.ltb_spec (historyIndex s + 1) 0); [lia |].
  now rewrite Z.min_l by lia.
Qed.

Lemma length_kept (s : Editor) :
  well_formed s -> length (kept s) = Z.to_nat (historyIndex s + 1).
Proof. intros [_ Hi]. unfold kept. rewrite length_take. lia. Qed.

Lemma saveToHistory_history (s : Editor) (c : ImageData) :
  well_formed s -> maskCanvas s = Some c ->
  history (saveToHistory s) =
    (if (length (kept s) <? 50)%nat then kept s ++ [c] else drop 1 (kept s ++ [c]))
  /\ historyIndex (saveToHistory s) = Z.of_nat (length (history (saveToHistory s))) - 1
  /\ maskCanvas (saveToHistory s) = Some c.
Proof.
  intros Hwf Hc. unfold saveToHistory. rewrite Hc, (slice0_kept s Hwf). simpl.
  rewrite length_app. simpl.
  destruct (Nat.ltb_spec 50 (length (kept s) + 1));
    destruct (Nat.ltb_spec (length (kept s)) 50); try lia; auto.
Qed.

Lemma saveToHistory_well_formed (s : Editor) :
  well_formed s -> well_formed (saveToHistory s).
Proof.
  intros Hwf. destruct (maskCanvas s) as [c |] eqn:Hc.
  - destruct (saveToHistory_history s c Hwf Hc) as (Hh & Hi & _).
    pose proof (length_kept s Hwf) as Hk. destruct Hwf as [Hl Hb].
    unfold well_formed. rewrite Hi, Hh.
    destruct (Nat.ltb_spec (length (kept s)) 50);
      rewrite ?length_drop, length_app; simpl; lia.
  - unfold saveToHistory. now rewrite Hc.
Qed.


Lemma undo_well_formed (s : Editor) : well_formed s -> well_formed (undo s).
Proof.
  intros Hwf. unfold undo.
  destruct (Z.leb_spec (historyIndex s) 0); [assumption |].
  destruct (maskCanvas s) as [c |]; [| assumption].
  destruct (Z.ltb_spec (historyIndex s - 1) 0); [lia |].
  destruct (at_index (history s) (historyIndex s - 1)); [| assumption].
  destruct Hwf as [Hl Hb]. split; simpl; [assumption | lia].
Qed.

Lemma redo_well_formed (s : Editor) : well_formed s -> well_formed (redo s).
Proof.
  intros Hwf. unfold redo.
  destruct (Z.leb_spec (Z.of_nat (length (history s)) - 1) (historyIndex s));
    [assumption |].
  destruct (maskCanvas s) as [c |]; [| assumption].
  destruct (at_index (history s) (historyIndex s + 1)); [| assumption].
  destruct Hwf as [Hl Hb]. split; simpl; [assumption | lia].
Qed.

Lemma step_well_formed (s : Editor) (e : Event) :
  well_formed s -> well_formed (step s e).
Proof.
  intros Hwf. destruct e; simpl.
  - exact Hwf.
  - exact Hwf.
  - unfold imageLoaded. destruct (maskCanvas s); [| exact Hwf].
    split; simpl; lia.
  - unfold handlePointerDown, drawStroke. simpl.
    destruct (maskCanvas s); exact Hwf.
  - unfold handlePointerMove, drawStroke.
    destruct (isDrawing s); [| exact Hwf]. destruct (maskCanvas s); exact Hwf.
  - unfold handlePointerUp. destruct (isDrawing s); [| exact Hwf].
    exact (saveToHistory_well_formed s Hwf).
  - unfold clearMask. destruct (maskCanvas s) as [c |]; [| exact Hwf].
    apply (saveToHistory_well_formed
             (setHasMask false (set_canvas (Some (cleared c)) s))).
    exact Hwf.
  - now apply undo_well_formed.
  - now apply redo_well_formed.
Qed.

Lemma run_well_formed (events : list Event) : well_formed (run events).
Proof.
  unfold run.
  assert (H : forall s, well_formed s -> well_formed (fold_left step events s)).
  { induction events as [| e events IH]; intros s Hs; simpl; [assumption |].
    apply IH. now apply step_well_formed. }
  apply H. split; simpl; lia.
Qed.

Lemma reachable_well_formed (s : Editor) : reachable s -> well_formed s.
Proof. intros [events <-]. apply run_well_formed. Qed.

(** C4.  In every state the editor can reach, the history holds at most 50
    states.  When [saveToHistory] runs with the canvas mounted, the states
    beyond the index are dropped, the content of the canvas is appended, the
    oldest state is removed when that makes 51, and afterwards the history
    holds at most 50 states, the index is the last position, and the last
    state is the content of the canvas. *)
Theorem history_is_bounded (s : Editor) (c : ImageData) :
  reachable s -> maskCanvas s = Some c ->
  (length (history s) <= 50)%nat
  /\ history (saveToHistory s) =
       (if (length (kept s) <? 50)%nat then kept s ++ [c]
        else drop 1 (kept s) ++ [c])
  /\ (length (history (saveToHistory s)) <= 50)%nat
  /\ historyIndex (saveToHistory s) = Z.of_nat (length (history (saveToHistory s))) - 1
  /\ last (history (saveToHistory s)) = Some c.
Proof.
  intros Hr Hc. pose proof (reachable_well_formed s Hr) as Hwf.
  destruct (saveToHistory_history s c Hwf Hc) as (Hh & Hi & _).
  pose proof (saveToHistory_well_formed s Hwf) as [Hl' _].
  pose proof (length_kept s Hwf) as Hk.
  split; [apply Hwf |]. split; [| split; [assumption | split; [assumption |]]].
  - rewrite Hh. destruct (Nat.ltb_spec (length (kept s)) 50); [reflexivity |].
    destruct (kept s) as [| a l]; [simpl in *; lia | reflexivity].
  - rewrite Hh. destruct (Nat.ltb_spec (length (kept s)) 50).
    + apply last_snoc.
    + destruct (kept s) as [| a l]; [simpl in *; lia |]. simpl. rewrite drop_0.
      apply last_snoc.
Qed.

Lemma history_is_bounded_witness :
  let s := run one_stroke in
  let c := {| width := 1%nat; height := 1%nat; data := [255; 0; 0; 153] |} in
  history (saveToHistory s) = [c]
  /\ historyIndex (saveToHistory s) = 0.
Proof.
  intros s c.
  destruct (history_is_bounded s c (ex_intro _ one_stroke eq_refl) eq_refl)
    as (_ & Hh & _ & Hi & _).
  rewrite Hi, Hh. split; reflexivity.
Defined.

(** *** Undo and redo *)






End HistoryFacts.

(** ** The exported mask *)

Module MaskFacts.
Import MaskSpec.
Import Canvas.
Local Open Scope list_scope.
Local Open Scope Z_scope.

Lemma length_bytes_of (pixels : list Pixel) :
  length (bytes_of pixels) = (4 * length pixels)%nat.
Proof.
  induction pixels as [| [[[r g] b] a] pixels IH]; simpl; [reflexivity |].
  rewrite IH. lia.
Qed.

(** The loop, with the pixels before [i] done and those from [i] on still
    black, turns the remaining pixels into their binary values. *)
Lemma binarize_pixels (rest : list Pixel) :
  forall (fuel : nat) (done processed : list Z),
    length processed = length done -> (length rest <= fuel)%nat ->
    binarize fuel (length done) (done ++ bytes_of rest)
      (processed ++ concat (replicate (length rest) [0; 0; 0; 255]))
    = processed ++ bytes_of (map binary_pixel rest).
Proof.
  induction rest as [| [[[r g] b] a] rest IH]; intros fuel done processed Hl Hf.
  - simpl. rewrite !app_nil_r. destruct fuel; [reflexivity |]. simpl.
    now rewrite Nat.ltb_irrefl.
  - destruct fuel as [| fuel]; [simpl in Hf; lia |].
    cbn [binarize bytes_of flat_map map length replicate concat].
    change (flat_map (fun '(r, g, b, a) => [r; g; b; a]) rest) with (bytes_of rest).
    change (flat_map (fun '(r, g, b, a) => [r; g; b; a]) (map binary_pixel rest))
      with (bytes_of (map binary_pixel rest)).
    assert (Hlt : (length done <? length (done ++ [r; g; b; a] ++ bytes_of rest))%nat = true).
    { apply Nat.ltb_lt. rewrite length_app. simpl. lia. }
    rewrite Hlt.
    assert (Halpha : (done ++ [r; g; b; a] ++ bytes_of rest) !! (length done + 3)%nat
                     = Some a).
    { now rewrite lookup_app_r, Nat.add_comm, Nat.add_sub by lia. }
    rewrite Halpha. cbn [app].
    specialize (IH fuel (done ++ [r; g; b; a])).
    rewrite length_app in IH. simpl in IH.
    rewrite <- app_assoc in IH. simpl in IH.
    unfold binary_pixel at 1.
    destruct (10 <? a) eqn:Ea; unfold white, black.
    + rewrite <- Hl.
      rewrite (insert_app_r_alt processed _ (length processed)) by lia.
      rewrite !(insert_app_r processed).
      rewrite Nat.sub_diag. simpl.
      specialize (IH (processed ++ [255; 255; 255; 255])).
      rewrite <- app_assoc in IH. simpl in IH.
      rewrite Hl, IH; [| rewrite length_app; simpl; lia | simpl in Hf; lia].
      now rewrite <- app_assoc.
    + specialize (IH (processed ++ [0; 0; 0; 255])).
      rewrite <- app_assoc in IH. simpl in IH.
      rewrite IH; [| rewrite length_app; simpl; lia | simpl in Hf; lia].
      now rewrite <- app_assoc.
Qed.

Lemma binary_mask_pixels (w h : nat) (pixels : list Pixel) :
  length pixels = (w * h)%nat ->
  binary_mask {| width := w; height := h; data := bytes_of pixels |} =
  {| width := w; height := h; data := bytes_of (map binary_pixel pixels) |}.
Proof.
  intros Hl. unfold binary_mask, black_pixels. simpl. f_equal.
  rewrite <- Hl.
  apply (binarize_pixels pixels (length (bytes_of pixels)) [] []);
    [reflexivity |].
  rewrite length_bytes_of. lia.
Qed.

(** C6.  When a mask has been drawn ([hasMask] holds) and the canvas is
    mounted, [exportMask] hands [onMaskChange] the image of the same size in
    which every pixel whose alpha exceeds 10 is white (255, 255, 255, 255) and
    every other pixel is black (0, 0, 0, 255), whatever the red, green and
    blue of the paint.  When no mask has been drawn, or the canvas is not
    mounted, it hands over [null]. *)
Theorem exported_mask_is_binary (w h : nat) (pixels : list Pixel)
    (s : Editor) (closed_over : bool) :
  length pixels = (w * h)%nat ->
  let canvas := {| width := w; height := h; data := bytes_of pixels |} in
  exportMask_argument (Some canvas) true =
    Some {| width := w; height := h; data := bytes_of (map binary_pixel pixels) |}
  /\ (forall r g b a,
        binary_pixel (r, g, b, a) = if 10 <? a then (255, 255, 255, 255) else (0, 0, 0, 255))
  /\ exportMask_argument (Some canvas) false = None
  /\ exportMask_argument None closed_over = None
  /\ exported (exportMask closed_over s) =
       exportMask_argument (maskCanvas s) closed_over :: exported s.
Proof.
  intros Hl canvas. repeat split.
  unfold exportMask_argument, canvas. now rewrite (binary_mask_pixels w h pixels Hl).
Qed.

Lemma exported_mask_is_binary_witness :
  exportMask_argument
    (Some {| width := 2; height := 1;
             data := bytes_of [(255, 0, 0, 153); (0, 0, 255, 10)] |}) true =
  Some {| width := 2; height := 1; data := bytes_of [white; black] |}.
Proof.
  apply (exported_mask_is_binary 2 1 [(255, 0, 0, 153); (0, 0, 255, 10)]
           initial true eq_refl).
Defined.

End MaskFacts.

(** ** The crop rectangle *)

Module CropFacts.
Import Js Crop CropSpec.






















End CropFacts.

(** ** The quick-action buttons *)

Module QuickActionFacts.
Import QuickActions.

(** C7, against the code.  The panel renders six buttons, one for each entry
    of [QUICK_ACTIONS], and each dispatches the identifier of its entry to
    [onAction]; six of the seven operations of the type [QuickAction] have a
    button, and the enhance operation, [hdr_enhance], has none. *)
Theorem enhance_has_no_button :
  length QuickActionsPanel = 6%nat
  /\ map onClick QuickActionsPanel = map id QUICK_ACTIONS
  /\ map onClick QuickActionsPanel =
       [ background_remove; background_blur; background_replace;
         image_expand; image_upscale; erase_element ]
  /\ has_button hdr_enhance = false
  /\ (forall a, a <> hdr_enhance -> has_button a = true).
Proof.
  repeat split. intros a Ha. destruct a; try reflexivity. congruence.
Qed.

End QuickActionFacts.

(** ** Worked examples *)

Example stripDataUrl_example :
  stripDataUrl "data:image/png;base64,AAAA" = "AAAA" /\ stripDataUrl "AAAA" = "AAAA".
Proof. split; reflexivity. Qed.

Example buildRichPrompt_example :
  buildRichPrompt sample_params (Some "add flowers") =
  "add flowers. soft studio lighting with diffused shadows. composed using rule of thirds. photorealistic, highly detailed".
Proof. reflexivity. Qed.

Example buildPromptFromParams_example :
  buildPromptFromParams sample_params =
  "soft studio lighting, rule of thirds composition, photorealistic, highly detailed".
Proof. reflexivity. Qed.

(** With a working API, background_remove is answered 200 with the URL of
    the result. *)
Example POST_background_remove_example :
  POST (sample_request (Some "background_remove") None) working_world =
  ([removeBackground_request "data:image/png;base64,AAAA" (Some "token")],
   inr (NextResponse_json
          (JObj [ ("imageUrl", JStr "https://cdn.example/out.png");
                  ("seed", JUndefined) ]) 200)).
Proof. reflexivity. Qed.

(** An inpainting operation with a mask goes to gen_fill, an unknown
    operation without a mask to image/generate. *)
Example POST_generation_example :
  map url (sent (POST (sample_request (Some "inpaint_add")
                         (Some "data:image/png;base64,MMMM"))) working_world)
    = [BRIA_EDIT_BASE ++ "/gen_fill"]
  /\ map url (sent (POST (sample_request (Some "style_transfer") None)) working_world)
    = [BRIA_API_BASE ++ "/image/generate"].
Proof. split; reflexivity. Qed.

(** The scale [blurBackground] sends for the intensities 9, 10, 29, 30, 50,
    100, 250 and -40. *)
Example blur_scale_example :
  map (fun i => opt_chain (Http.body (blurBackground_request "AAAA" (num_of_Z i) (Some "t")))
                  "scale")
    [9; 10; 29; 30; 50; 100; 250; -40]%Z
  = map (fun k => JNum (num_of_Z k)) [1; 1; 1; 2; 3; 5; 5; 1]%Z.
Proof. reflexivity. Qed.

(** Pulling the south-east corner to the right and upwards: the width stops
    at the right edge of the image and the height at 50. *)
Example crop_resize_example :
  Crop.cropArea (CropSpec.session CropSpec.sample_state CropSpec.sample_resize)
  = {| Crop.x := num_of_Z 80; Crop.y := num_of_Z 60;
       Crop.width := num_of_Z 720; Crop.height := num_of_Z 50 |}.
Proof. vm_compute. reflexivity. Qed.

(** The crop of a photograph of 4032 by 3024 starts at [x] 403.20000000000005,
    not at 403.2: the margin is the double nearest to 0.1. *)
Example crop_margin_example :
  Crop.x (Crop.cropArea (Crop.initializeCrop CropSpec.photograph))
  = Num (1773292353277133 # 4398046511104)
  /\ (2016 # 5 < 1773292353277133 # 4398046511104)%Q.
Proof. split; [vm_compute; reflexivity | reflexivity]. Qed.

(** The photograph shown 402 pixels wide, step by step.  East handle pulled
    past the edge, west handle one pixel to the right: [x] is
    413.2298507462687 and the width 3618.7701492537317.  West handle pulled
    until the width is 50: [x] is 3982.0000000000005, so that
    [image width - x] is 49.999999999999545, which the width becomes when
    the east handle moves. *)
Example crop_rounding_example :
  let edge := Crop.cropArea (CropSpec.session CropSpec.photograph CropSpec.to_the_edge) in
  let narrow := CropSpec.session CropSpec.photograph CropSpec.narrowed in
  Crop.x edge = Num (7269616413434615 # 17592186044416)
  /\ Crop.width edge = Num (3978879857353169 # 1099511627776)
  /\ Double.add (Crop.x edge) (Crop.width edge)
     = Num (8866461766385665 # 2199023255552)
  /\ (4032 < 8866461766385665 # 2199023255552)%Q
  /\ Crop.x (Crop.cropArea narrow) = Num (8756510603608065 # 2199023255552)
  /\ Crop.width (Crop.cropArea narrow) = Num 50
  /\ Crop.width (Crop.cropArea (CropSpec.step narrow CropSpec.nudge))
     = Num (109951162777599 # 2199023255552)
  /\ (109951162777599 # 2199023255552 < 50)%Q.
Proof. vm_compute. repeat split. Qed.

(** With [Math.random()] at the double nearest to 0.29 the seed of the
    placeholder is 290000: the product is rounded up to a whole number. *)
Example random_seed_example (w : World) :
  Math_random w = Double.round64 (29 # 100) -> random_seed w = 290000.
Proof. intros H. unfold random_seed. rewrite H. vm_compute. reflexivity. Qed.

(** After 60 strokes the history holds 50 states and the index is 49. *)
Example history_cap_example :
  let stroke := [Canvas.PointerDown HistorySpec.red; Canvas.PointerUp] in
  let s := Canvas.run ([Canvas.CanvasMounted 1 1; Canvas.ImageLoaded 1 1]
                       ++ concat (replicate 60 stroke))%list in
  length (Canvas.history s) = 50%nat /\ Canvas.historyIndex s = 49.
Proof. vm_compute. split; reflexivity. Qed.

(** * Further properties *)

(** ** Texts *)

Lemma prefix_empty (s : string) : String.prefix "" s = true.
Proof. now destruct s. Qed.

Lemma includes_char (c : ascii) (s : string) :
  includes s (String c "") = has_char c s.
Proof.
  unfold includes. induction s as [| a rest IH]; [reflexivity |].
  cbn [String.index has_char String.prefix].
  destruct (ascii_dec c a) as [<- | Hne].
  - now rewrite prefix_empty, Ascii.eqb_refl.
  - destruct (Ascii.eqb a c) eqn:E; [apply Ascii.eqb_eq in E; congruence |].
    simpl. now destruct (String.index 0 (String c "") rest).
Qed.

Lemma split_no_char (c : ascii) (s : string) :
  Forall (fun piece => has_char c piece = false) (split c s).
Proof.
  induction s as [| a rest IH]; simpl.
  - now constructor.
  - destruct (Ascii.eqb a c) eqn:E.
    + now constructor.
    + destruct (split c rest) as [| piece pieces]; inversion IH; subst;
        constructor; simpl; try rewrite E; auto.
Qed.

Lemma split_without_char (c : ascii) (s : string) :
  has_char c s = false -> split c s = [s].
Proof.
  induction s as [| a rest IH]; simpl; [reflexivity |].
  intros H. apply orb_false_iff in H as [Ha Hr]. rewrite Ha, (IH Hr). reflexivity.
Qed.

Lemma split_app_char (c : ascii) (p q : string) :
  has_char c p = false -> split c (p ++ String c q) = p :: split c q.
Proof.
  induction p as [| a rest IH]; simpl; intros H.
  - now rewrite Ascii.eqb_refl.
  - apply orb_false_iff in H as [Ha Hr]. rewrite Ha, (IH Hr). reflexivity.
Qed.

Lemma has_char_app (c : ascii) (p q : string) :
  has_char c (p ++ q) = has_char c p || has_char c q.
Proof.
  induction p as [| a rest IH]; simpl; [reflexivity |].
  now rewrite IH, orb_assoc.
Qed.

Lemma stripDataUrl_has_no_comma (s : string) : has_char "," (stripDataUrl s) = false.
Proof.
  unfold stripDataUrl. rewrite includes_char.
  destruct (has_char "," s) eqn:E; [| assumption].
  pose proof (split_no_char "," s) as H.
  destruct (split "," s) as [| p0 [| p1 rest]]; simpl; try reflexivity.
  inversion H as [| ? ? _ H']; subst. now inversion H'.
Qed.

(** X1.  What [stripDataUrl] returns never holds a comma, so stripping twice
    is stripping once; a string without a comma is returned as it is; and
    from a prefix and a payload without commas joined by a comma, the
    payload comes back whole. *)
Theorem stripDataUrl_keeps_the_payload (s prefix payload : string) :
  includes (stripDataUrl s) "," = false
  /\ stripDataUrl (stripDataUrl s) = stripDataUrl s
  /\ (includes s "," = false -> stripDataUrl s = s)
  /\ (includes prefix "," = false -> includes payload "," = false ->
      stripDataUrl (prefix ++ "," ++ payload) = payload).
Proof.
  rewrite !includes_char.
  pose proof (stripDataUrl_has_no_comma s) as Hs.
  assert (Hid : forall t, has_char "," t = false -> stripDataUrl t = t).
  { intros t Ht. unfold stripDataUrl. now rewrite includes_char, Ht. }
  split; [assumption |]. split; [now apply Hid |]. split; [apply Hid |].
  intros Hp Hq.
  change (prefix ++ "," ++ payload) with (prefix ++ String "," payload).
  unfold stripDataUrl. rewrite includes_char, has_char_app.
  cbn [has_char]. rewrite Ascii.eqb_refl, orb_true_r.
  rewrite (split_app_char "," prefix payload Hp), (split_without_char "," payload Hq).
  reflexivity.
Qed.

Lemma stripDataUrl_keeps_the_payload_witness :
  stripDataUrl ("data:image/png;base64" ++ "," ++ "iVBORw0KGgo=") = "iVBORw0KGgo=".
Proof.
  apply (stripDataUrl_keeps_the_payload "" "data:image/png;base64" "iVBORw0KGgo=");
    reflexivity.
Defined.

(** ** What the handler sends *)

Lemma client_call_token tok call rq :
  client_call tok call rq -> api_token rq = token tok.
Proof. intros Hc. destruct Hc; reflexivity. Qed.

Lemma client_call_url tok call rq :
  client_call tok call rq -> String.prefix BRIA_API_BASE (url rq) = true.
Proof. intros Hc. destruct Hc; reflexivity. Qed.

Lemma client_call_payloads tok call rq :
  client_call tok call rq ->
  Forall (fun s => has_char "," s = false) (payloads rq).
Proof.
  intros Hc.
  destruct Hc as [ | | | img direction amount pr | | | | | img m p pr Hm];
    unfold payloads;
    try solve [cbn; repeat constructor; apply stripDataUrl_has_no_comma].
  - unfold expandImage_request.
    destruct pr as [pr |];
      [destruct (negb (String.eqb pr "") && negb (String.eqb (trim pr) "")) |];
      cbn; repeat constructor; apply stripDataUrl_has_no_comma.
  - unfold generateStandard_request.
    destruct (negb (String.eqb img ""));
      cbn; repeat constructor; apply stripDataUrl_has_no_comma.
Qed.

(** The handler makes at most one call, whatever the request. *)
Lemma POST_cases (request : NextRequest) (w : World) :
  (exists reply, POST request w = ([], inr reply)
                 /\ (response_status reply = 400 \/ response_status reply = 500))
  \/ (exists call rq, client_call (BRIA_API_TOKEN w) call rq
        /\ POST request w = try_catch (respond call) on_error w).
Proof.
  destruct (request_json request) as [e | body] eqn:Hj.
  { left. unfold POST, try_catch, bind, lift. rewrite Hj. simpl. eauto. }
  destruct (image body) as [img |] eqn:Hi.
  2: { left. unfold POST, try_catch, bind, lift. rewrite Hj, Hi. simpl. eauto. }
  destruct (String.eqb img "") eqn:He.
  { apply String.eqb_eq in He. subst img. left.
    unfold POST, try_catch, bind, lift. rewrite Hj, Hi. simpl. eauto. }
  apply String.eqb_neq in He.
  destruct (params body) as [p |] eqn:Hp.
  2: { left. unfold POST, try_catch, bind, lift. rewrite Hj, Hi, Hp.
       destruct img; [congruence |]. simpl. eauto. }
  rewrite (POST_routed request body img p w Hj Hi He Hp).
  destruct (route_cases img (mask body) p (prompt body) (operation body)
              (BRIA_API_TOKEN w) He)
    as [(name & Ho & Hn & Hm & Hr) | (call & rq & Hc & Hr)].
  - left. rewrite Hr. unfold try_catch, ret. simpl. eexists. split; [reflexivity |].
    left. now destruct (String.eqb name "erase_element").
  - right. exists call, rq. now rewrite Hr.
Qed.

Lemma respond_status (call : M GenerateResponse) (w : World) :
  exists reply, outcome (try_catch (respond call) on_error) w = inr reply
    /\ (response_status reply = 200 \/ response_status reply = 500).
Proof.
  unfold outcome. destruct (call w) as [tr [e | r]] eqn:H.
  - rewrite (respond_thrown _ _ _ _ H). simpl. eauto.
  - rewrite (respond_ok _ _ _ _ H). simpl. eauto.
Qed.

Lemma client_call_sent_cases tok call rq (w : World) :
  client_call tok call rq -> sent call w = [] \/ (str_truthy tok = true /\ sent call w = [rq]).
Proof.
  intros Hc. destruct (str_truthy tok) eqn:Ht.
  - right. split; [reflexivity |]. now apply (client_call_sent tok).
  - left. now apply (client_call_silent tok call rq).
Qed.

(** X2.  [POST /api/generate] never lets an error escape and never makes a
    second call: whatever the request (even one whose body cannot be parsed)
    and whatever the network answers, it returns a reply whose status is 200,
    400 or 500, and it has sent at most one request to the external API. *)
Theorem POST_always_answers (request : NextRequest) (w : World) :
  exists reply,
    outcome (POST request) w = inr reply
    /\ In (response_status reply) [200; 400; 500]
    /\ (length (sent (POST request) w) <= 1)%nat.
Proof.
  destruct (POST_cases request w) as [(reply & HP & Hs) | (call & rq & Hc & HP)].
  - exists reply. unfold outcome, sent. rewrite HP. simpl.
    repeat split; [| lia]. destruct Hs as [-> | ->]; tauto.
  - destruct (respond_status call w) as (reply & Ho & Hs).
    exists reply. unfold outcome, sent in *. rewrite HP. split; [assumption |].
    split; [destruct Hs as [-> | ->]; simpl; tauto |].
    pose proof (sent_respond call w) as Hsr. unfold sent in Hsr. rewrite Hsr.
    destruct (client_call_sent_cases _ _ _ w Hc) as [H | [_ H]];
      unfold sent in H; rewrite H; simpl; lia.
Qed.

(** X3.  A request leaves the handler only when [BRIA_API_TOKEN] is set to a
    non-empty value; the request carries that value as its token and goes to
    a URL under the base URL of the Bria API. *)
Theorem requests_carry_the_token (request : NextRequest) (w : World) (rq : Request) :
  In rq (sent (POST request) w) ->
  exists t, BRIA_API_TOKEN w = Some t /\ t <> ""
    /\ api_token rq = t
    /\ String.prefix BRIA_API_BASE (url rq) = true.
Proof.
  intros Hin.
  destruct (POST_cases request w) as [(reply & HP & _) | (call & rq' & Hc & HP)];
    unfold sent in Hin; rewrite HP in Hin; [destruct Hin |].
  pose proof (sent_respond call w) as Hsr. unfold sent in Hsr. rewrite Hsr in Hin.
  destruct (client_call_sent_cases _ _ _ w Hc) as [H | [Ht H]];
    unfold sent in H; rewrite H in Hin; [destruct Hin |].
  destruct Hin as [<- | []].
  destruct (BRIA_API_TOKEN w) as [t |] eqn:Et; [| discriminate].
  exists t. split; [reflexivity |]. split.
  - intros ->. discriminate.
  - split; [now rewrite (client_call_token _ _ _ Hc) | now apply (client_call_url _ _ _ Hc)].
Qed.

Lemma requests_carry_the_token_witness :
  exists t, BRIA_API_TOKEN working_world = Some t /\ t <> ""
    /\ api_token (removeBackground_request "data:image/png;base64,AAAA" (Some "token")) = t.
Proof.
  destruct (requests_carry_the_token
              (sample_request (Some "background_remove") None) working_world
              (removeBackground_request "data:image/png;base64,AAAA" (Some "token"))
              ltac:(left; reflexivity))
    as (t & Ht & Hne & Ha & _).
  exists t. auto.
Defined.

(** X4.  No request of the handler carries a data URL: the image, the mask
    and the images in its body hold no comma, the prefix up to the comma
    having been cut off. *)
Theorem requests_carry_raw_base64 (request : NextRequest) (w : World) (rq : Request) :
  In rq (sent (POST request) w) ->
  Forall (fun s => includes s "," = false) (payloads rq).
Proof.
  intros Hin.
  destruct (POST_cases request w) as [(reply & HP & _) | (call & rq' & Hc & HP)];
    unfold sent in Hin; rewrite HP in Hin; [destruct Hin |].
  pose proof (sent_respond call w) as Hsr. unfold sent in Hsr. rewrite Hsr in Hin.
  destruct (client_call_sent_cases _ _ _ w Hc) as [H | [Ht H]];
    unfold sent in H; rewrite H in Hin; [destruct Hin |].
  destruct Hin as [<- | []].
  eapply Forall_impl; [apply (client_call_payloads _ _ _ Hc) |].
  intros s Hs. simpl. now rewrite includes_char.
Qed.

Lemma requests_carry_raw_base64_witness :
  Forall (fun s => includes s "," = false)
    (payloads (eraseElements_request "data:image/png;base64,AAAA"
                 "data:image/png;base64,MMMM" (Some "token"))).
Proof.
  apply (requests_carry_raw_base64
           (sample_request (Some "erase_element") (Some "data:image/png;base64,MMMM"))
           working_world).
  left. reflexivity.
Defined.

(** ** Prompts *)

Lemma str_or_fallback (s d : string) : d <> "" -> str_or (Some s) d <> "".
Proof.
  intros Hd. unfold str_or. destruct (String.eqb s "") eqn:E; [assumption |].
  now apply String.eqb_neq in E.
Qed.

Lemma str_or_nonempty (a : option string) (d : string) : d <> "" -> str_or a d <> "".
Proof.
  intros Hd. destruct a as [s |]; [now apply str_or_fallback | assumption].
Qed.

Lemma starts_with_app u parts more :
  starts_with u parts -> starts_with u (parts ++ more)%list.
Proof. intros [rest ->]. now exists (rest ++ more)%list. Qed.

Lemma push_if_starts u c x parts :
  starts_with u parts -> starts_with u (push_if c x parts).
Proof.
  intros H. unfold push_if. destruct c; [now apply starts_with_app | assumption].
Qed.

Lemma push_opt_starts u s parts :
  starts_with u parts -> starts_with u (push_opt s parts).
Proof.
  intros H. destruct s as [x |]; [now apply push_if_starts | assumption].
Qed.

Lemma push_mapped_starts u key table parts :
  starts_with u parts -> starts_with u (push_mapped key table parts).
Proof.
  intros H. unfold push_mapped.
  destruct (negb (String.eqb key "")); [now apply push_opt_starts | assumption].
Qed.

Lemma prefix_app (u r : string) : String.prefix u (u ++ r) = true.
Proof.
  induction u as [| c u IH]; simpl; [now destruct r |].
  destruct (Ascii.ascii_dec c c); [assumption | congruence].
Qed.

Lemma join_starts sep u parts :
  starts_with u parts -> exists r, join sep parts = u ++ r.
Proof.
  intros [rest ->]. unfold join. destruct rest as [| y rest]; simpl.
  - exists "". clear. induction u as [| c u IH]; [reflexivity |].
    change (String c u = String c (u ++ "")). now f_equal.
  - eauto.
Qed.

Lemma append_nonempty (u r : string) : u <> "" -> u ++ r <> "".
Proof. destruct u; [congruence | discriminate]. Qed.

(** X5.  The prompts the code builds are never empty: [buildRichPrompt] and
    [buildPromptFromParams] fall back on a fixed sentence, and so does the
    prompt of the [default:] branch of the handler.  A non-empty prompt of
    the user is the beginning of the prompt [buildRichPrompt] returns. *)
Theorem prompts_are_never_empty (p : FIBOParams) (prompt operation : option string)
    (u : string) :
  buildRichPrompt p prompt <> ""
  /\ buildPromptFromParams p <> ""
  /\ effective_prompt p prompt operation <> ""
  /\ (u <> "" -> String.prefix u (buildRichPrompt p (Some u)) = true).
Proof.
  assert (Hb : buildPromptFromParams p <> "")
    by (apply str_or_fallback; discriminate).
  split; [apply str_or_fallback; discriminate |].
  split; [exact Hb |]. split.
  - unfold effective_prompt.
    destruct (op_is operation "inpaint_remove");
      [apply str_or_nonempty; discriminate |].
    destruct (String.eqb (str_or prompt "") "") eqn:E; [exact Hb |].
    now apply String.eqb_neq in E.
  - intros Hu. unfold buildRichPrompt.
    match goal with
    | |- String.prefix u (str_or (Some (join ?sep ?parts)) ?d) = true =>
        assert (Hs : starts_with u parts)
    end.
    { assert (H0 : starts_with u (push_opt (Some u) []%list)).
      { exists []%list. simpl. unfold push_if.
        apply String.eqb_neq in Hu. now rewrite Hu. }
      assert (H1 := push_opt_starts u (subject_description p) _ H0).
      assert (H2 := push_mapped_starts u (lighting p) lighting_mapping _ H1).
      assert (H3 := push_mapped_starts u (composition p) composition_rich _ H2).
      destruct (color_palette p) as [c |];
        [apply (push_if_starts u (negb (String.eqb c "")) (c ++ " color palette")) in H3 |];
        destruct (String.eqb (realism_level p) "high");
        try (now apply starts_with_app);
        destruct (String.eqb (realism_level p) "stylized");
        try (now apply starts_with_app); assumption. }
    destruct (join_starts ". " u _ Hs) as [r Hr]. rewrite Hr.
    unfold str_or.
    pose proof (append_nonempty u r Hu) as Hne.
    apply String.eqb_neq in Hne. rewrite Hne. apply prefix_app.
Qed.

Lemma prompts_are_never_empty_witness :
  String.prefix "a red chair" (buildRichPrompt sample_params (Some "a red chair")) = true.
Proof.
  apply (prompts_are_never_empty sample_params None None "a red chair").
  discriminate.
Defined.

(** ** Answers without a result *)

Ltac run_answer Hf Hok Hj Hres :=
  rewrite (fetch_bind_answer _ _ _ _ Hf); rewrite Hok; cbn [negb snd];
  unfold bind, lift, result_image_url, result_seed, get_prop, ret, bind;
  rewrite Hj; cbn [lookup_field]; rewrite Hres; reflexivity.

(** X6.  A successful answer of the API whose JSON object has no [result]:
    the seven editing functions do not notice and return an [imageUrl] read
    from [result_url] (undefined when that is missing too), while the two
    generating functions throw the TypeError of reading [image_url] of
    undefined. *)
Theorem answer_without_result tok call rq (w : World) (resp : Response)
    (fields : list (string * JsVal)) :
  client_call tok call rq ->
  str_truthy tok = true ->
  fetch_answer w rq = inr resp ->
  ok resp = true ->
  json resp = inr (JObj fields) ->
  lookup_field "result" fields = JUndefined ->
  outcome call w =
    if is_generation_url (url rq)
    then inl (type_error_read "undefined" "image_url")
    else inr (JObj [ ("imageUrl", lookup_field "result_url" fields);
                     ("seed", JUndefined) ]).
Proof.
  intros Hc Ht Hf Hok Hj Hres.
  destruct Hc;
    try (rewrite generateImage_fill by assumption);
    try (rewrite generateImage_standard by assumption);
    unfold outcome;
    try (unfold generateWithGenFill, generateStandard; rewrite try_catch_rethrow);
    try (unfold removeBackground, blurBackground, replaceBackground,
           expandImage, upscaleImage, enhanceImage, eraseElements;
         rewrite Ht; cbn [negb]);
    change (is_generation_url _) with false || change (is_generation_url _) with true;
    cbv iota;
    run_answer Hf Hok Hj Hres.
Qed.

Lemma answer_without_result_witness :
  outcome (upscaleImage "data:image/png;base64,AAAA" (num_of_Z 2) (Some "token"))
    hollow_world
  = inr (JObj [("imageUrl", JUndefined); ("seed", JUndefined)]).
Proof.
  apply (answer_without_result (Some "token") _ _ hollow_world
           {| status := 200; text := "{}"; json := inr (JObj []) |} []
           (call_upscaleImage (Some "token") "data:image/png;base64,AAAA" (num_of_Z 2)));
    reflexivity.
Defined.

(** ** Expanding an image *)

Lemma all_white_space_Blank_1 (s : string) : Blank s -> all_white_space s = true.
Proof.
  induction 1 as [| cp s Hin _ IH]; [reflexivity |].
  unfold white_space_code_points in Hin.
  repeat (destruct Hin as [<- | Hin]; [exact IH |]).
  destruct Hin.
Qed.

Ltac in_code_points :=
  unfold white_space_code_points; cbv [In];
  repeat (first [left; reflexivity | right]).

Lemma one_of_In (a : ascii) (l : list ascii) : one_of a l = true -> In a l.
Proof.
  unfold one_of. intros H. apply existsb_exists in H. destruct H as (b & Hb & E).
  apply Ascii.eqb_eq in E. now subst.
Qed.

Lemma white_space_1_Blank (a : ascii) (s : string) :
  white_space_1 a = true -> Blank s -> Blank (String a s).
Proof.
  intros H Hs. apply one_of_In in H. cbv [In] in H.
  repeat (destruct H as [<- | H];
          [match goal with
           | |- Blank (String ?a s) =>
               apply (Blank_more (N_of_ascii a) s); [in_code_points | exact Hs]
           end |]).
  destruct H.
Qed.

Lemma white_space_2_Blank (a b : ascii) (s : string) :
  white_space_2 a b = true -> Blank s -> Blank (String a (String b s)).
Proof.
  unfold white_space_2. intros H Hs. apply andb_true_iff in H. destruct H as [Ha Hb].
  apply Ascii.eqb_eq in Ha, Hb. subst.
  apply (Blank_more 0xA0%N s); [in_code_points | exact Hs].
Qed.

Lemma white_space_3_Blank (a b c : ascii) (s : string) :
  white_space_3 a b c = true -> Blank s -> Blank (String a (String b (String c s))).
Proof.
  unfold white_space_3. intros H Hs.
  repeat rewrite orb_true_iff in H. repeat rewrite andb_true_iff in H.
  repeat rewrite Ascii.eqb_eq in H.
  assert (Hc : forall a b c, In (code_point_3 a b c) white_space_code_points ->
                 utf8 (code_point_3 a b c) = String a (String b (String c "")) ->
                 Blank (String a (String b (String c s)))).
  { intros a' b' c' Hin He.
    change (Blank ((String a' (String b' (String c' ""))) ++ s)).
    rewrite <- He. now apply Blank_more. }
  destruct H as [[[[H | H] | H] | H] | H].
  - destruct H as [[-> ->] ->]. apply Hc; [in_code_points | reflexivity].
  - destruct H as [[-> ->] H]. apply one_of_In in H. cbv [In] in H.
    repeat (destruct H as [<- | H]; [apply Hc; [in_code_points | reflexivity] |]).
    destruct H.
  - destruct H as [[-> ->] ->]. apply Hc; [in_code_points | reflexivity].
  - destruct H as [[-> ->] ->]. apply Hc; [in_code_points | reflexivity].
  - destruct H as [[-> ->] ->]. apply Hc; [in_code_points | reflexivity].
Qed.

(** Induction on texts by their length. *)
Lemma by_length (P : string -> Prop) :
  (forall s, (forall t, (String.length t < String.length s)%nat -> P t) -> P s) ->
  forall s, P s.
Proof.
  intros H s.
  assert (Hn : forall n t, (String.length t < n)%nat -> P t).
  { induction n as [| n IH]; intros t Ht; [lia |].
    apply H. intros u Hu. apply IH. lia. }
  apply (Hn (S (String.length s))). lia.
Qed.

Lemma trim_start_unfold (a : ascii) (s1 : string) :
  trim_start (String a s1) =
  if white_space_1 a then trim_start s1
  else match s1 with
       | EmptyString => String a s1
       | String b s2 =>
           if white_space_2 a b then trim_start s2
           else match s2 with
                | EmptyString => String a s1
                | String c s3 =>
                    if white_space_3 a b c then trim_start s3 else String a s1
                end
       end.
Proof. destruct s1 as [| b [| c s3]]; reflexivity. Qed.

Lemma all_white_space_unfold (a : ascii) (s1 : string) :
  all_white_space (String a s1) =
  if white_space_1 a then all_white_space s1
  else match s1 with
       | EmptyString => false
       | String b s2 =>
           if white_space_2 a b then all_white_space s2
           else match s2 with
                | EmptyString => false
                | String c s3 =>
                    if white_space_3 a b c then all_white_space s3 else false
                end
       end.
Proof. destruct s1 as [| b [| c s3]]; reflexivity. Qed.

(** What [trim_start] and [all_white_space] do at the front of a text: the
    text is empty, or it starts with white space and both go on with a
    shorter rest, or it starts with something else. *)
Lemma front (s : string) :
  s = ""
  \/ (exists rest, (String.length rest < String.length s)%nat
        /\ trim_start s = trim_start rest
        /\ all_white_space s = all_white_space rest)
  \/ (s <> "" /\ trim_start s = s /\ all_white_space s = false).
Proof.
  destruct s as [| a s1]; [now left | right].
  rewrite trim_start_unfold, all_white_space_unfold.
  destruct (white_space_1 a); [left; exists s1; cbn; auto |].
  destruct s1 as [| b s2]; [right; repeat split; discriminate |].
  destruct (white_space_2 a b); [left; exists s2; cbn; auto |].
  destruct s2 as [| c s3]; [right; repeat split; discriminate |].
  destruct (white_space_3 a b c); [left; exists s3; cbn; auto |].
  right; repeat split; discriminate.
Qed.

Lemma all_white_space_Blank_2 (s : string) : all_white_space s = true -> Blank s.
Proof.
  induction s as [s IH] using by_length.
  destruct s as [| a s1]; [constructor |].
  rewrite all_white_space_unfold.
  destruct (white_space_1 a) eqn:E1.
  { intros H. apply white_space_1_Blank; [exact E1 |]. apply IH; [cbn; lia | exact H]. }
  destruct s1 as [| b s2]; [discriminate |].
  destruct (white_space_2 a b) eqn:E2.
  { intros H. apply white_space_2_Blank; [exact E2 |]. apply IH; [cbn; lia | exact H]. }
  destruct s2 as [| c s3]; [discriminate |].
  destruct (white_space_3 a b c) eqn:E3; [| discriminate].
  intros H. apply white_space_3_Blank; [exact E3 |]. apply IH; [cbn; lia | exact H].
Qed.

Lemma all_white_space_Blank (s : string) : all_white_space s = true <-> Blank s.
Proof. split; [apply all_white_space_Blank_2 | apply all_white_space_Blank_1]. Qed.

Lemma trim_start_empty (s : string) : String.eqb (trim_start s) "" = all_white_space s.
Proof.
  induction s as [s IH] using by_length.
  destruct (front s) as [-> | [(rest & Hl & -> & ->) | (Hne & -> & ->)]].
  - reflexivity.
  - now apply IH.
  - now apply String.eqb_neq.
Qed.

Lemma all_white_space_trim_start (s : string) :
  all_white_space (trim_start s) = all_white_space s.
Proof.
  induction s as [s IH] using by_length.
  destruct (front s) as [-> | [(rest & Hl & Ht & Ha) | (Hne & Ht & Ha)]].
  - reflexivity.
  - rewrite Ht, Ha. now apply IH.
  - now rewrite Ht.
Qed.

Lemma trim_end_empty (s : string) : String.eqb (trim_end s) "" = all_white_space s.
Proof.
  destruct s as [| a rest].
  - reflexivity.
  - unfold trim_end; fold trim_end.
    destruct (all_white_space (String a rest)); reflexivity.
Qed.

Lemma trim_empty (s : string) : String.eqb (trim s) "" = all_white_space s.
Proof. unfold trim. now rewrite trim_end_empty, all_white_space_trim_start. Qed.

(** [trim] on texts with white space beyond ASCII: the ideographic space,
    the byte order mark, the line separator and the no-break space. *)
Example trim_example :
  trim (utf8 0x3000 ++ "a b" ++ utf8 0xFEFF ++ utf8 0x2028) = "a b"
  /\ trim (utf8 0xA0 ++ " " ++ utf8 0x3000) = "".
Proof. split; reflexivity. Qed.

(** X7.  [expandImage] sends a prompt only when the prompt has a character
    that is not white space, white space being the white space and the line
    terminators of ECMAScript, U+00A0, U+2028, U+3000 and U+FEFF among them:
    a prompt of white space only gives the request of no prompt at all, any
    other prompt is sent as it is, untrimmed.  The aspect ratio sent is 3:2,
    2:3 or 4:3, and the amount of the expansion has no part in the call. *)
Theorem expandImage_drops_a_blank_prompt (image direction p : string)
    (amount amount' : number) (prompt apiToken : option string) :
  (Blank p ->
     expandImage_request image direction (Some p) apiToken
     = expandImage_request image direction None apiToken)
  /\ (~ Blank p ->
      body_field (expandImage_request image direction (Some p) apiToken) "prompt" = JStr p)
  /\ In (body_field (expandImage_request image direction prompt apiToken) "aspect_ratio")
        [JStr "3:2"; JStr "2:3"; JStr "4:3"]
  /\ expandImage image direction amount prompt apiToken
     = expandImage image direction amount' prompt apiToken.
Proof.
  repeat split.
  - intros Hb. apply all_white_space_Blank in Hb. unfold expandImage_request.
    now rewrite trim_empty, Hb, andb_false_r.
  - intros Hb. unfold expandImage_request, body_field.
    rewrite trim_empty.
    destruct (all_white_space p) eqn:Ea;
      [exfalso; apply Hb; now apply all_white_space_Blank |].
    destruct (String.eqb p "") eqn:E.
    + apply String.eqb_eq in E. subst p. discriminate.
    + reflexivity.
  - unfold expandImage_request, body_field, expand_aspect_ratio.
    destruct prompt as [q |];
      [destruct (negb (String.eqb q "") && negb (String.eqb (trim q) "")) |];
      cbn;
      destruct (String.eqb direction "left" || String.eqb direction "right");
      try (destruct (String.eqb direction "up" || String.eqb direction "down"));
      simpl; tauto.
Qed.

Lemma expandImage_drops_a_blank_prompt_witness :
  expandImage_request "data:image/png;base64,AAAA" "left"
    (Some (utf8 0x3000 ++ utf8 0x20 ++ "")) (Some "token")
  = expandImage_request "data:image/png;base64,AAAA" "left" None (Some "token").
Proof.
  apply (expandImage_drops_a_blank_prompt "data:image/png;base64,AAAA" "left"
           (utf8 0x3000 ++ utf8 0x20 ++ "") (num_of_Z 25) (num_of_Z 50) None (Some "token")).
  apply (Blank_more 0x3000); [in_code_points |].
  apply (Blank_more 0x20); [in_code_points |].
  apply Blank_empty.
Defined.

(** ** The camera in words *)

Lemma Qle_bool_false (a b : Q) : Qle_bool a b = false <-> (b < a)%Q.
Proof.
  split.
  - intros H. apply Qnot_le_lt. intros Hle. apply Qle_bool_iff in Hle. congruence.
  - intros H. destruct (Qle_bool a b) eqn:E; [| reflexivity].
    apply Qle_bool_iff in E. lra.
Qed.


(** How a signed angle stands to a threshold [k]: beyond it on the positive
    side, beyond it on the negative side, or within it. *)
Lemma signed_threshold (x : Q) (k : Z) :
  (0 <= k)%Z ->
  let far := negb (Qle_bool (Qabs x) (inject_Z k)) in
  let positive := negb (Qle_bool x (inject_Z 0)) in
  ((inject_Z k < x)%Q /\ far = true /\ positive = true)
  \/ ((x < - inject_Z k)%Q /\ far = true /\ positive = false)
  \/ ((Qabs x <= inject_Z k)%Q /\ (- inject_Z k <= x <= inject_Z k)%Q /\ far = false).
Proof.
  intros Hk far positive. subst far positive.
  assert (H0 : (0 <= inject_Z k)%Q) by (change 0%Q with (inject_Z 0); now rewrite <- Zle_Qle).
  change (inject_Z 0) with 0%Q.
  destruct (Qlt_le_dec x 0) as [H | H];
    [pose proof (Qabs_neg x (Qlt_le_weak _ _ H)) as Ha
    | pose proof (Qabs_pos x H) as Ha];
    destruct (Qle_bool (Qabs x) (inject_Z k)) eqn:E1;
    [apply Qle_bool_iff in E1 | apply Qle_bool_false in E1
    |apply Qle_bool_iff in E1 | apply Qle_bool_false in E1];
    destruct (Qle_bool x 0) eqn:E2;
    [apply Qle_bool_iff in E2 | apply Qle_bool_false in E2
    |apply Qle_bool_iff in E2 | apply Qle_bool_false in E2
    |apply Qle_bool_iff in E2 | apply Qle_bool_false in E2
    |apply Qle_bool_iff in E2 | apply Qle_bool_false in E2];
    simpl;
    first [ left; split; [lra | tauto]
          | right; left; split; [lra | tauto]
          | right; right; split; [lra | split; [lra | reflexivity]]
          | exfalso; lra ].
Qed.

(** X8.  [describeCameraAngle] on finite angles: the answer is "straight on"
    exactly when pitch and yaw are within 10 degrees and the roll within 5;
    it says "high angle" exactly when the pitch is above 10, "low angle"
    exactly when it is below -10, "from the right" and "from the left"
    likewise for the yaw, and "dutch angle" exactly when the roll is beyond
    5 degrees on either side. *)
Theorem camera_angle_in_words (p y r f : Q) :
  let c := {| yaw := Num y; pitch := Num p; roll := Num r; fov := Num f |} in
  (describeCameraAngle c = "straight on"
     <-> (Qabs p <= 10 /\ Qabs y <= 10 /\ Qabs r <= 5)%Q)
  /\ (includes (describeCameraAngle c) "high angle" = true <-> (10 < p)%Q)
  /\ (includes (describeCameraAngle c) "low angle" = true <-> (p < -10)%Q)
  /\ (includes (describeCameraAngle c) "from the right" = true <-> (10 < y)%Q)
  /\ (includes (describeCameraAngle c) "from the left" = true <-> (y < -10)%Q)
  /\ (includes (describeCameraAngle c) "dutch angle" = true <-> (5 < Qabs r)%Q).
Proof.
  intros c. subst c.
  unfold describeCameraAngle, num_gtb, num_ltb, Math_abs, num_of_Z, push_if.
  cbn [yaw pitch roll fov].
  pose proof (Qle_Qabs p) as Ap. pose proof (Qle_Qabs (- p)) as Ap'.
  pose proof (Qle_Qabs y) as Ay. pose proof (Qle_Qabs (- y)) as Ay'.
  rewrite Qabs_opp in Ap', Ay'.
  destruct (signed_threshold p 10 ltac:(lia)) as [(Hp & -> & ->) | [(Hp & -> & ->) | (Hp & Hp' & ->)]];
  destruct (signed_threshold y 10 ltac:(lia)) as [(Hy & -> & ->) | [(Hy & -> & ->) | (Hy & Hy' & ->)]];
  (destruct (Qle_bool (Qabs r) (inject_Z 5)) eqn:Er;
    [apply Qle_bool_iff in Er | apply Qle_bool_false in Er]);
  unfold inject_Z in *; cbn;
  repeat split; intros; try discriminate; try reflexivity; try lra;
  match goal with H : _ /\ _ /\ _ |- _ => destruct H as (? & ? & ?); lra end.
Qed.

Lemma camera_angle_in_words_witness :
  includes (describeCameraAngle
              {| yaw := num_of_Z (-30); pitch := num_of_Z 20;
                 roll := num_of_Z 0; fov := num_of_Z 50 |}) "from the left" = true.
Proof.
  apply (camera_angle_in_words (inject_Z 20) (inject_Z (-30)) (inject_Z 0) (inject_Z 50)).
  reflexivity.
Defined.

Ltac q_cases :=
  repeat match goal with
  | |- context [Qle_bool ?a ?b] =>
      let E := fresh "E" in
      destruct (Qle_bool a b) eqn:E;
      [apply Qle_bool_iff in E | apply Qle_bool_false in E]
  end.

(** X9.  The two readings of the field of view in a structured prompt
    agree: a depth of field "shallow" comes only with the 135mm or the 85mm
    lens, the 135mm lens always with a shallow depth of field, and the 50mm,
    35mm and 24mm lenses always with a medium one. *)
Theorem shallow_depth_means_a_long_lens (params : FIBOParams) (subject : option string) :
  let sp := paramsToStructuredPrompt params subject in
  (photographic sp "depth_of_field" = JStr "shallow" ->
     In (photographic sp "lens_focal_length") [JStr "135mm telephoto"; JStr "85mm portrait"])
  /\ (photographic sp "lens_focal_length" = JStr "135mm telephoto" ->
      photographic sp "depth_of_field" = JStr "shallow")
  /\ (In (photographic sp "lens_focal_length")
         [JStr "50mm standard"; JStr "35mm wide"; JStr "24mm ultra-wide"] ->
      photographic sp "depth_of_field" = JStr "medium").
Proof.
  intros sp. subst sp.
  unfold paramsToStructuredPrompt, photographic, fovToFocalLength.
  cbn [opt_chain lookup_field String.eqb Ascii.eqb Bool.eqb].
  destruct (fov (camera params)) as [ | | | q]; cbn [num_ltb num_of_Z].
  1-3: cbn; repeat split; intros; try discriminate; try tauto;
       repeat match goal with H : _ \/ _ |- _ => destruct H end; try discriminate; tauto.
  q_cases; unfold inject_Z in *; cbn;
    repeat split; intros; try discriminate; try reflexivity; try tauto; try lra;
    repeat match goal with H : _ \/ _ |- _ => destruct H end;
    try discriminate; try tauto; try lra.
Qed.

Lemma shallow_depth_means_a_long_lens_witness :
  photographic (paramsToStructuredPrompt sample_params None) "depth_of_field"
  = JStr "medium".
Proof.
  apply (shallow_depth_means_a_long_lens sample_params None).
  right. left. reflexivity.
Defined.

(** ** Polling and the HD generation *)

Lemma poll_attempt_sent url tok (w : World) :
  fst (poll_attempt url tok w) = [poll_request url tok].
Proof.
  change (sent (poll_attempt url tok) w = [poll_request url tok]).
  unfold poll_attempt. apply sent_fetch_bind. intros r.
  silence.
Qed.

Lemma poll_loop_turn url tok worlds turns i :
  poll_loop url tok worlds (S turns) i =
    match snd (poll_attempt url tok (worlds i)) with
    | inr Pending =>
        (poll_request url tok :: fst (poll_loop url tok worlds turns (S i)),
         snd (poll_loop url tok worlds turns (S i)))
    | o => ([poll_request url tok], poll_end o)
    end.
Proof.
  cbn [poll_loop]. pose proof (poll_attempt_sent url tok (worlds i)) as Hs.
  destruct (poll_attempt url tok (worlds i)) as [tr [e | [r |]]];
    simpl in Hs; subst tr; try reflexivity.
  simpl. now destruct (poll_loop url tok worlds turns (S i)).
Qed.

Lemma poll_loop_bounded url tok worlds turns i :
  (length (fst (poll_loop url tok worlds turns i)) <= turns)%nat
  /\ Forall (eq (poll_request url tok)) (fst (poll_loop url tok worlds turns i)).
Proof.
  revert i. induction turns as [| turns IH]; intros i.
  - simpl. split; [lia | constructor].
  - rewrite poll_loop_turn. destruct (IH (S i)) as [Hl Hf].
    destruct (snd (poll_attempt url tok (worlds i))) as [e | [r |]]; simpl;
      (split; [lia | repeat constructor; assumption]).
Qed.

Lemma poll_loop_pending url tok worlds turns i :
  (forall j, (j < turns)%nat ->
     snd (poll_attempt url tok (worlds (i + j)%nat)) = inr Pending) ->
  poll_loop url tok worlds turns i = (replicate turns (poll_request url tok), timed_out).
Proof.
  revert i. induction turns as [| turns IH]; intros i H; [reflexivity |].
  rewrite poll_loop_turn.
  pose proof (H 0%nat ltac:(lia)) as H0. rewrite Nat.add_0_r in H0. rewrite H0.
  rewrite IH; [reflexivity |].
  intros j Hj. specialize (H (S j) ltac:(lia)). now rewrite Nat.add_succ_r in H.
Qed.

Lemma poll_loop_first url tok worlds turns i k :
  (k < turns)%nat ->
  (forall j, (j < k)%nat ->
     snd (poll_attempt url tok (worlds (i + j)%nat)) = inr Pending) ->
  snd (poll_attempt url tok (worlds (i + k)%nat)) <> inr Pending ->
  poll_loop url tok worlds turns i =
    (replicate (S k) (poll_request url tok),
     poll_end (snd (poll_attempt url tok (worlds (i + k)%nat)))).
Proof.
  revert i k. induction turns as [| turns IH]; intros i k Hk Hp Hn; [lia |].
  rewrite poll_loop_turn. destruct k as [| k].
  - rewrite Nat.add_0_r in *.
    destruct (snd (poll_attempt url tok (worlds i))) as [e | [r |]];
      [reflexivity | reflexivity | congruence].
  - pose proof (Hp 0%nat ltac:(lia)) as H0. rewrite Nat.add_0_r in H0. rewrite H0.
    rewrite (IH (S i) k); try lia.
    + simpl. now rewrite Nat.add_succ_r.
    + intros j Hj. specialize (Hp (S j) ltac:(lia)). now rewrite Nat.add_succ_r in Hp.
    + now rewrite Nat.add_succ_r in Hn.
Qed.

(** X10.  [pollGenerationStatus] asks the status URL at most [maxAttempts]
    times and nothing else.  With [maxAttempts] zero or negative it times out
    without a request; when every turn finds the generation pending it times
    out after exactly [maxAttempts] requests; and it stops at the first turn
    that is not pending, after that turn's request, with the result or the
    error of that turn. *)
Theorem polling_is_bounded (statusUrl apiToken : string) (maxAttempts : Z)
    (worlds : nat -> World) (k : nat) :
  let run := pollGenerationStatus statusUrl apiToken maxAttempts worlds in
  let attempt i := snd (poll_attempt statusUrl apiToken (worlds i)) in
  (length (fst run) <= Z.to_nat maxAttempts)%nat
  /\ Forall (eq (poll_request statusUrl apiToken)) (fst run)
  /\ (maxAttempts <= 0 -> run = ([], timed_out))
  /\ ((forall i, (i < Z.to_nat maxAttempts)%nat -> attempt i = inr Pending) ->
      run = (replicate (Z.to_nat maxAttempts) (poll_request statusUrl apiToken), timed_out))
  /\ ((k < Z.to_nat maxAttempts)%nat ->
      (forall i, (i < k)%nat -> attempt i = inr Pending) ->
      attempt k <> inr Pending ->
      run = (replicate (S k) (poll_request statusUrl apiToken), poll_end (attempt k))).
Proof.
  intros run attempt. subst run attempt. unfold pollGenerationStatus.
  destruct (poll_loop_bounded statusUrl apiToken worlds (Z.to_nat maxAttempts) 0) as [Hl Hf].
  repeat split; try assumption.
  - intros Hm. replace (Z.to_nat maxAttempts) with 0%nat by lia. reflexivity.
  - intros H. now apply poll_loop_pending.
  - intros Hk Hp Hn. now apply (poll_loop_first _ _ _ _ 0%nat k).
Qed.

Lemma polling_is_bounded_witness :
  pollGenerationStatus "https://status.example/1" "token" 30 sample_worlds
  = (replicate 3 (poll_request "https://status.example/1" "token"),
     inr (JObj [ ("imageUrl", JStr "https://cdn.example/out.png");
                 ("seed", JUndefined);
                 ("structuredPrompt", JUndefined) ])).
Proof.
  destruct (polling_is_bounded "https://status.example/1" "token" 30 sample_worlds 2)
    as (_ & _ & _ & _ & H).
  apply H.
  - vm_compute. lia.
  - intros i Hi. destruct i as [| [| i]]; [reflexivity | reflexivity | lia].
  - discriminate.
Defined.

(** X11.  [generateHDImage] sends one request when it has a token and none
    without.  When the API refuses, the error thrown depends on the status of
    the answer alone: the text of the answer is not read into it. *)
Theorem generateHDImage_sends_once (prompt : string) (apiToken : option string)
    (w w' : World) (resp resp' : Response) :
  sent (generateHDImage prompt apiToken) w
    = (if str_truthy apiToken then [generateHDImage_request prompt apiToken] else [])
  /\ (str_truthy apiToken = true ->
      fetch_answer w (generateHDImage_request prompt apiToken) = inr resp ->
      fetch_answer w' (generateHDImage_request prompt apiToken) = inr resp' ->
      ok resp = false -> status resp' = status resp ->
      outcome (generateHDImage prompt apiToken) w'
      = outcome (generateHDImage prompt apiToken) w).
Proof.
  unfold generateHDImage. split.
  - destruct (str_truthy apiToken); cbn [negb].
    + apply sent_fetch_bind. intros r. silence.
    + apply silent_mockGenerateResponse.
  - intros Ht Hw Hw' Hok Hst. rewrite Ht. cbn [negb]. unfold outcome.
    rewrite (fetch_bind_answer _ _ _ _ Hw), (fetch_bind_answer _ _ _ _ Hw').
    assert (Hok' : ok resp' = false) by (unfold ok in *; now rewrite Hst).
    rewrite Hok, Hok'. cbn [negb]. now rewrite Hst.
Qed.

Lemma generateHDImage_sends_once_witness :
  outcome (generateHDImage "a lake" (Some "token")) (refusing_world "quota exceeded")
  = outcome (generateHDImage "a lake" (Some "token")) (refusing_world "Service Unavailable").
Proof.
  apply (generateHDImage_sends_once "a lake" (Some "token") _ _
           {| status := 503; text := "Service Unavailable";
              json := inl (Error "Unexpected token in JSON at position 0") |}
           {| status := 503; text := "quota exceeded";
              json := inl (Error "Unexpected token in JSON at position 0") |});
    reflexivity.
Defined.

(** ** The mask editor, further *)

Module EditorFacts.
Import Canvas HistorySpec StrokeSpec.
Local Open Scope list_scope.
Local Open Scope Z_scope.



(** Whatever finishes with a save leaves nothing to redo. *)
Lemma redo_at_the_end (s : Editor) :
  historyIndex s = Z.of_nat (length (history s)) - 1 -> redo s = s.
Proof.
  intros H. unfold redo.
  destruct (Z.leb_spec (Z.of_nat (length (history s)) - 1) (historyIndex s)); [reflexivity | lia].
Qed.

Lemma saveToHistory_at_the_end (s : Editor) (c : ImageData) :
  maskCanvas s = Some c ->
  historyIndex (saveToHistory s) = Z.of_nat (length (history (saveToHistory s))) - 1.
Proof. intros Hc. unfold saveToHistory. now rewrite Hc. Qed.


(** X13.  The first stroke on a freshly loaded image cannot be undone: once
    it is finished the history holds that one state, and both [undo] and
    [redo] leave the editor as it is, the stroke still on the canvas. *)
Theorem first_stroke_cannot_be_undone (s : Editor) (c painted : ImageData) (w h : nat) :
  maskCanvas s = Some c ->
  let s' := handlePointerUp (handlePointerDown painted (imageLoaded w h s)) in
  maskCanvas s' = Some painted
  /\ history s' = [painted]
  /\ undo s' = s'
  /\ redo s' = s'.
Proof.
  intros Hc s'. subst s'.
  unfold imageLoaded. rewrite Hc.
  unfold handlePointerUp, handlePointerDown, drawStroke. cbn.
  repeat split.
Qed.

Lemma first_stroke_cannot_be_undone_witness :
  undo (run one_saved_stroke) = run one_saved_stroke.
Proof.
  apply (first_stroke_cannot_be_undone
           (run [CanvasMounted 1 1])
           {| width := 1%nat; height := 1%nat; data := clear_pixels 1 1 |}
           red 1 1).
  reflexivity.
Defined.



(** X15.  Whatever ends with a save leaves nothing to redo: after a stroke
    is finished, and after [Clear], [redo] leaves the editor as it is. *)
Theorem a_save_leaves_nothing_to_redo (s : Editor) (c : ImageData) :
  maskCanvas s = Some c ->
  (isDrawing s = true -> redo (handlePointerUp s) = handlePointerUp s)
  /\ redo (clearMask s) = clearMask s
  /\ (forall painted,
        redo (handlePointerUp (handlePointerDown painted s))
        = handlePointerUp (handlePointerDown painted s)).
Proof.
  intros Hc. repeat split.
  - intros Hd. apply redo_at_the_end. unfold handlePointerUp. rewrite Hd.
    cbn [setIsDrawing exportMask onMaskChange historyIndex history].
    now apply (saveToHistory_at_the_end s c).
  - apply redo_at_the_end. unfold clearMask. rewrite Hc.
    cbn [onMaskChange historyIndex history].
    now apply (saveToHistory_at_the_end _ (cleared c)).
  - intros painted. apply redo_at_the_end.
    unfold handlePointerUp, handlePointerDown, drawStroke.
    cbn [setIsDrawing maskCanvas]. rewrite Hc.
    cbn [setIsDrawing setHasMask set_canvas isDrawing exportMask onMaskChange
         historyIndex history].
    now apply (saveToHistory_at_the_end _ painted).
Qed.

Lemma a_save_leaves_nothing_to_redo_witness :
  redo (clearMask (run one_saved_stroke)) = clearMask (run one_saved_stroke).
Proof.
  destruct (a_save_leaves_nothing_to_redo (run one_saved_stroke) red eq_refl)
    as (_ & H & _).
  exact H.
Defined.

End EditorFacts.

(** ** Zoom, brush and filters *)

Module EditorRestFacts.
Import Js Bria EditorRest Page EditorRestSpec.
Local Open Scope Q_scope.

(** X16.  [handleWheel] changes the zoom only with the zoom tool or the
    Ctrl key, and then leaves it between 0.25 and 4.  From a zoom in that
    range, scrolling down never zooms in and scrolling up never zooms
    out. *)
Theorem wheel_keeps_the_zoom_in_range (tool : string) (ctrlKey : bool) (deltaY zoom : Q) :
  let zoom' := handleWheel tool ctrlKey deltaY zoom in
  (String.eqb tool "zoom" || ctrlKey = false -> zoom' = zoom)
  /\ (String.eqb tool "zoom" || ctrlKey = true -> 1 # 4 <= zoom' <= 4)
  /\ (1 # 4 <= zoom <= 4 ->
      1 # 4 <= zoom' <= 4
      /\ (0 < deltaY -> zoom' <= zoom)
      /\ (deltaY <= 0 -> zoom <= zoom')).
Proof.
  intros zoom'. subst zoom'. unfold handleWheel.
  destruct (String.eqb tool "zoom" || ctrlKey).
  - split; [discriminate |].
    destruct (Qle_bool deltaY 0) eqn:E;
      [apply Qle_bool_iff in E | apply Qle_bool_false in E];
      cbn [negb]; repeat split; intros; minmax; lra.
  - repeat split; intros; try discriminate; lra.
Qed.

Lemma wheel_keeps_the_zoom_in_range_witness :
  handleWheel "zoom" false 120 4 <= 4.
Proof.
  destruct (wheel_keeps_the_zoom_in_range "zoom" false 120 4) as (_ & _ & H).
  destruct H as (_ & H & _); [split; discriminate |].
  apply H. reflexivity.
Defined.

(** X17.  While the eraser is being resized, [handleEraserResize] leaves the
    brush between 5 and 150 and remembers the pointer.  Dragging up never
    makes a brush of at most 150 smaller, and dragging down never makes a
    brush of at least 5 larger.  A brush below 5, which the keys of the page
    can give, is brought to 5 by a drag downwards, and so grows; a brush
    above 150 is brought to 150 by a drag upwards.  [handleEraserResize]
    does nothing when no resize is under way, in particular after
    [handleEraserResizeEnd], and [handleEraserResizeStart] does nothing with
    another tool than the eraser. *)
Theorem eraser_resize_keeps_the_brush_in_range (clientY : Q) (tool : string)
    (s : EraserResize) :
  (isResizingEraser s = false -> handleEraserResize clientY s = s)
  /\ (isResizingEraser s = true ->
      let s' := handleEraserResize clientY s in
      5 <= brushSize s' <= 150
      /\ eraserResizeStartY s' = clientY
      /\ (clientY <= eraserResizeStartY s -> brushSize s <= 150 ->
          brushSize s <= brushSize s')
      /\ (eraserResizeStartY s <= clientY -> 5 <= brushSize s ->
          brushSize s' <= brushSize s)
      /\ (eraserResizeStartY s <= clientY -> brushSize s <= 5 ->
          brushSize s' == 5)
      /\ (clientY <= eraserResizeStartY s -> 150 <= brushSize s ->
          brushSize s' == 150))
  /\ handleEraserResize clientY (handleEraserResizeEnd s) = handleEraserResizeEnd s
  /\ (String.eqb tool "eraser" = false ->
      handleEraserResizeStart tool clientY s = s).
Proof.
  unfold handleEraserResize, handleEraserResizeEnd, handleEraserResizeStart.
  split; [now intros -> |].
  split; [| split; [reflexivity | now intros ->]].
  intros ->. cbn.
  repeat split; intros; minmax; lra.
Qed.

Lemma eraser_resize_keeps_the_brush_in_range_witness :
  let s := {| isResizingEraser := true; eraserResizeStartY := 1000; brushSize := 3 |} in
  5 <= brushSize (handleEraserResize 0 s) <= 150
  /\ brushSize (handleEraserResize 1001 s) == 5.
Proof.
  intros s.
  split.
  - destruct (eraser_resize_keeps_the_brush_in_range 0 "eraser" s) as (_ & H & _).
    apply H. reflexivity.
  - destruct (eraser_resize_keeps_the_brush_in_range 1001 "eraser" s) as (_ & H & _).
    destruct (H eq_refl) as (_ & _ & _ & _ & H5 & _).
    apply H5; cbn; lra.
Defined.

(** X18.  The keys [[] and []] of the page move the size of the brush by at
    most 5 and, from a size between 1 and 100, leave it between 1 and
    100. *)
Theorem brush_keys_keep_the_size_in_range (k : BrushKey) (prev : Q) :
  1 <= prev <= 100 ->
  1 <= brush_key k prev <= 100
  /\ match k with
     | SmallerBrush => prev - 5 <= brush_key k prev <= prev
     | LargerBrush => prev <= brush_key k prev <= prev + 5
     end.
Proof.
  intros H. destruct k; unfold brush_key; minmax; lra.
Qed.

Lemma brush_keys_keep_the_size_in_range_witness :
  1 <= brush_key SmallerBrush 3 <= 100.
Proof.
  apply (brush_keys_keep_the_size_in_range SmallerBrush 3).
  split; discriminate.
Defined.

Lemma join_not_none (parts : list string) (a : ascii) (rest : string) :
  starts_with (String a rest) parts -> a <> "n"%char ->
  (if (0 <? length parts)%nat then join " " parts else "none") <> "none".
Proof.
  intros Hs Ha. destruct (join_starts " " _ _ Hs) as [r Hr].
  destruct Hs as [more ->]. cbn [length Nat.ltb Nat.leb].
  rewrite Hr. cbn. intros H. injection H as H _. contradiction.
Qed.

Ltac not_none :=
  split; [| discriminate]; intros H; exfalso; revert H;
  eapply join_not_none;
  [repeat apply push_if_starts; eexists; cbn; reflexivity | discriminate].

(** X19.  [getFilterString] answers "none" exactly when no filter departs
    from its default: brightness, contrast and saturation are 100, the hue
    is 0, and blur, sepia and grayscale are not above 0.  Whatever the
    numbers print as, no list of filters reads "none". *)
Theorem no_filter_exactly_at_the_defaults (show : number -> string)
    (filters : ImageFilters) :
  getFilterString show filters = "none" <-> neutral filters = true.
Proof.
  unfold getFilterString, neutral.
  destruct (num_eqb (brightness filters) (num_of_Z 100));
    cbn [negb andb Bria.push_if app]; [| not_none].
  destruct (num_eqb (contrast filters) (num_of_Z 100));
    cbn [negb andb Bria.push_if app]; [| not_none].
  destruct (num_eqb (saturation filters) (num_of_Z 100));
    cbn [negb andb Bria.push_if app]; [| not_none].
  destruct (num_eqb (hue filters) (num_of_Z 0));
    cbn [negb andb Bria.push_if app]; [| not_none].
  destruct (num_gtb (blur filters) (num_of_Z 0));
    cbn [negb andb Bria.push_if app]; [not_none |].
  destruct (num_gtb (sepia filters) (num_of_Z 0));
    cbn [negb andb Bria.push_if app]; [not_none |].
  destruct (num_gtb (grayscale filters) (num_of_Z 0));
    cbn [negb andb Bria.push_if app]; [not_none |].
  cbn. tauto.
Qed.

Lemma no_filter_exactly_at_the_defaults_witness :
  getFilterString (fun _ => "100") default_filters = "none".
Proof.
  apply (no_filter_exactly_at_the_defaults (fun _ => "100") default_filters).
  reflexivity.
Defined.

End EditorRestFacts.

(** ** The crop rectangle, further *)

Module CropFurther.
Import Js Crop CropSpec.

(** X20.  A resize leaves alone what its handle does not name: without the
    letter w the rectangle keeps its [x], without n its [y]; with neither e
    nor w it keeps its width, with neither s nor n its height.  With w, [x]
    and the width are [x + d] and [width - d] for one and the same [d],
    [Math.max(-x, Math.min(deltaX, width - 50))], and the letter e has no
    effect; likewise with n for [y], the height and [deltaY].  Whether the
    opposite edge [x + width] stays is left open: the two roundings need not
    agree. *)
Theorem resizing_keeps_what_the_handle_does_not_name (dims : Dimensions)
    (start : Area) (handle : string) (deltaX deltaY : number) :
  let r := resized dims start handle deltaX deltaY in
  let dX := Math_max (Double.neg (x start))
              (Math_min deltaX (Double.sub (width start) minSize)) in
  let dY := Math_max (Double.neg (y start))
              (Math_min deltaY (Double.sub (height start) minSize)) in
  (includes handle "w" = false -> x r = x start)
  /\ (includes handle "n" = false -> y r = y start)
  /\ (includes handle "e" = false -> includes handle "w" = false ->
      width r = width start)
  /\ (includes handle "s" = false -> includes handle "n" = false ->
      height r = height start)
  /\ (includes handle "w" = true ->
      x r = Double.add (x start) dX /\ width r = Double.sub (width start) dX)
  /\ (includes handle "n" = true ->
      y r = Double.add (y start) dY /\ height r = Double.sub (height start) dY).
Proof.
  intros r dX dY. subst r dX dY. unfold resized.
  destruct (includes handle "e"), (includes handle "w"),
    (includes handle "s"), (includes handle "n");
    cbn [x y width height]; repeat split; intros; try discriminate; reflexivity.
Qed.

Lemma resizing_keeps_what_the_handle_does_not_name_witness :
  let start := {| x := num_of_Z 80; y := num_of_Z 60;
                  width := num_of_Z 640; height := num_of_Z 480 |} in
  let r := resized {| dim_width := num_of_Z 800; dim_height := num_of_Z 600 |}
             start "se" (num_of_Z 1000) (num_of_Z (-1000)) in
  x r = num_of_Z 80 /\ y r = num_of_Z 60.
Proof.
  intros start r.
  destruct (resizing_keeps_what_the_handle_does_not_name
              {| dim_width := num_of_Z 800; dim_height := num_of_Z 600 |}
              start "se" (num_of_Z 1000) (num_of_Z (-1000)))
    as (Hx & Hy & _).
  split; [apply Hx; reflexivity | apply Hy; reflexivity].
Defined.

End CropFurther.

(** ** The studio page *)

Module PageFacts.
Import QuickActions Page PageSpec.

Lemma str_truthy_inv (o : option string) :
  str_truthy o = true -> exists s, o = Some s /\ s <> "".
Proof.
  destruct o as [s |]; [| discriminate]. simpl. intros H.
  exists s. split; [reflexivity |]. intros ->. discriminate.
Qed.

(** What a quick action posts, when it posts. *)
Lemma handleQuickAction_posts (s : Studio) (action : QuickAction)
    (answer : option string) (b : GenerateRequestBody) :
  handleQuickAction_body s action answer = Some b ->
  exists img, imageToEdit s = Some img /\ img <> ""
    /\ (action = erase_element -> str_truthy (maskData s) = true)
    /\ (action = background_replace -> str_truthy answer = true)
    /\ b = {| image := Some img;
              secondImage := None;
              mask := if QuickAction_eqb action erase_element then maskData s else None;
              params := Some (with_new_background (studio_params s)
                                (if QuickAction_eqb action background_replace
                                 then answer else None));
              prompt := if QuickAction_eqb action background_replace then answer else None;
              operation := Some (QuickAction_name action) |}.
Proof.
  unfold handleQuickAction_body.
  destruct (str_truthy (imageToEdit s)) eqn:Hi; [| discriminate]. cbn [negb].
  destruct (str_truthy_inv _ Hi) as (img & Himg & Hne).
  destruct (QuickAction_eqb action erase_element && negb (str_truthy (maskData s))) eqn:He;
    [discriminate |].
  destruct (QuickAction_eqb action background_replace
            && negb (str_truthy (if QuickAction_eqb action background_replace
                                 then answer else None))) eqn:Hb; [discriminate |].
  intros [= <-]. exists img. rewrite Himg. repeat split; try assumption.
  - intros ->. simpl in He. now destruct (str_truthy (maskData s)).
  - intros ->. simpl in Hb. now destruct (str_truthy answer).
Qed.

(** X21.  What a quick action posts is never refused: the handler answers
    200 or 500, never 400, since the page has checked the image, the mask of
    an erase and the text of a new background before.  With a token, exactly
    one request goes out, to the editing endpoint of the action; a
    background replacement carries the text the user typed as its prompt, an
    erase the mask of the page without its data URL prefix. *)
Theorem quick_action_reaches_its_endpoint (s : Studio) (action : QuickAction)
    (answer : option string) (b : GenerateRequestBody) (w : World) :
  handleQuickAction_body s action answer = Some b ->
  (exists reply, outcome (POST (posted b)) w = inr reply
                 /\ In (response_status reply) [200; 500])
  /\ (str_truthy (BRIA_API_TOKEN w) = true ->
      exists rq, sent (POST (posted b)) w = [rq]
        /\ url rq = BRIA_EDIT_BASE ++ endpoint action
        /\ (action = background_replace -> body_field rq "prompt" = of_opt_str answer)
        /\ (action = erase_element ->
            exists m, maskData s = Some m
                      /\ body_field rq "mask" = JStr (stripDataUrl m))).
Proof.
  intros Hb.
  destruct (handleQuickAction_posts s action answer b Hb)
    as (img & Hi & Hne & Hm & Ha & ->).
  unfold outcome, sent.
  match goal with
  | |- context [POST (posted ?body)] =>
      rewrite (POST_routed (posted body) body img _ w eq_refl eq_refl Hne eq_refl)
  end.
  cbn [mask prompt operation].
  assert (Hcall : exists call rq,
            client_call (BRIA_API_TOKEN w) call rq
            /\ route img
                 (if QuickAction_eqb action erase_element then maskData s else None)
                 (with_new_background (studio_params s)
                    (if QuickAction_eqb action background_replace then answer else None))
                 (if QuickAction_eqb action background_replace then answer else None)
                 (Some (QuickAction_name action)) (BRIA_API_TOKEN w)
               = respond call
            /\ url rq = BRIA_EDIT_BASE ++ endpoint action
            /\ (action = background_replace -> body_field rq "prompt" = of_opt_str answer)
            /\ (action = erase_element ->
                exists m, maskData s = Some m
                          /\ body_field rq "mask" = JStr (stripDataUrl m))).
  { destruct action; cbn [QuickAction_eqb QuickAction_name].
    - eexists _, _. split; [apply call_removeBackground |].
      repeat split; discriminate.
    - eexists _, _. split; [apply call_blurBackground |].
      repeat split; discriminate.
    - destruct (str_truthy_inv _ (Ha eq_refl)) as (t & -> & Ht).
      eexists _, _. split; [apply call_replaceBackground |].
      split; [reflexivity |]. split; [reflexivity |].
      split; [| discriminate]. intros _. cbn.
      apply String.eqb_neq in Ht. now rewrite Ht.
    - eexists _, _. split; [apply call_expandImage |].
      repeat split; discriminate.
    - eexists _, _. split; [apply call_upscaleImage |].
      repeat split; discriminate.
    - destruct (str_truthy_inv _ (Hm eq_refl)) as (m & Hmask & Hmne).
      rewrite Hmask.
      eexists _, _. split; [apply (call_eraseElements _ img m) |].
      split; [| split; [reflexivity | split; [discriminate |]]].
      + unfold route. cbn. destruct m; [congruence | reflexivity].
      + intros _. exists m. split; reflexivity.
    - eexists _, _. split; [apply call_enhanceImage |].
      repeat split; discriminate. }
  destruct Hcall as (call & rq & Hc & -> & Hu & Hp & He).
  split.
  - destruct (respond_status call w) as (reply & Ho & Hs). unfold outcome in Ho.
    exists reply. split; [assumption |]. destruct Hs as [-> | ->]; simpl; tauto.
  - intros Ht. exists rq.
    pose proof (sent_respond call w) as Hsr. unfold sent in Hsr. rewrite Hsr.
    pose proof (client_call_sent _ _ _ w Hc Ht) as Hs. unfold sent in Hs.
    now rewrite Hs.
Qed.

Lemma quick_action_reaches_its_endpoint_witness :
  exists b rq,
    handleQuickAction_body sample_studio image_upscale None = Some b
    /\ sent (POST (posted b)) working_world = [rq]
    /\ url rq = BRIA_EDIT_BASE ++ "/increase_resolution".
Proof.
  destruct (quick_action_reaches_its_endpoint sample_studio image_upscale None _
              working_world eq_refl) as [_ H].
  destruct (H eq_refl) as (rq & Hs & Hu & _).
  eexists _, rq. split; [reflexivity |]. split; assumption.
Defined.

(** What Generate posts, when it posts. *)
Lemma handleGenerate_posts (s : Studio) (b : GenerateRequestBody) :
  handleGenerate_body s = Some b ->
  exists img, imageToEdit s = Some img /\ img <> ""
    /\ (forall op, pending_op s = Some op -> In op inpaint_operations ->
          str_truthy (maskData s) = true)
    /\ b = {| image := Some img;
              secondImage := None;
              mask := maskData s;
              params := Some (studio_params s);
              prompt := pending_text s;
              operation := pending_op s |}.
Proof.
  unfold handleGenerate_body.
  destruct (str_truthy (imageToEdit s)) eqn:Hi; [| discriminate]. cbn [negb].
  destruct (str_truthy_inv _ Hi) as (img & Himg & Hne).
  destruct (_ && negb (str_truthy (maskData s))) eqn:Hg; [discriminate |].
  intros [= <-]. exists img. rewrite Himg. repeat split; try assumption.
  intros op Hop Hin. rewrite Hop in Hg.
  destruct (str_truthy (maskData s)); [reflexivity |]. exfalso.
  rewrite andb_true_r in Hg.
  simpl in Hin. unfold is_inpaint in Hg.
  destruct Hin as [<- | [<- | [<- | []]]]; discriminate.
Qed.

(** X22.  What Generate posts is refused in one case only: the pending
    operation is erase_element and no mask is drawn.  The page checks the
    mask for the three inpainting operations but not for the erase, so that
    request is posted, and answered with the refusal 400 without a call of
    the API; every other request Generate posts is answered 200 or 500. *)
Theorem generate_is_refused_only_for_erase (s : Studio) (b : GenerateRequestBody)
    (w : World) :
  handleGenerate_body s = Some b ->
  exists reply,
    outcome (POST (posted b)) w = inr reply
    /\ (pending_op s = Some "erase_element" -> str_truthy (maskData s) = false ->
        reply = erase_needs_mask /\ sent (POST (posted b)) w = [])
    /\ (~ (pending_op s = Some "erase_element" /\ str_truthy (maskData s) = false) ->
        In (response_status reply) [200; 500]).
Proof.
  intros Hb.
  destruct (handleGenerate_posts s b Hb) as (img & Hi & Hne & Hg & ->).
  unfold outcome, sent.
  match goal with
  | |- context [POST (posted ?body)] =>
      rewrite (POST_routed (posted body) body img _ w eq_refl eq_refl Hne eq_refl)
  end.
  cbn [mask prompt operation].
  assert (Hcalled : forall call rq,
            client_call (BRIA_API_TOKEN w) call rq ->
            exists reply,
              snd (try_catch (respond call) on_error w) = inr reply
              /\ In (response_status reply) [200; 500]).
  { intros call rq _. destruct (respond_status call w) as (reply & Hr & Hs).
    exists reply. split; [exact Hr |]. destruct Hs as [-> | ->]; simpl; tauto. }
  destruct (str_truthy (maskData s)) eqn:Hm.
  - destruct (route_cases img (maskData s) (studio_params s) (pending_text s)
                (pending_op s) (BRIA_API_TOKEN w) Hne)
      as [(name & _ & _ & Hf & _) | (call & rq & Hc & ->)]; [congruence |].
    destruct (Hcalled call rq Hc) as (reply & Hr & Hs).
    exists reply. split; [exact Hr |]. split; [discriminate | now intros _].
  - destruct (op_is (pending_op s) "erase_element") eqn:He.
    + apply op_is_true in He. rewrite He. unfold route. cbn.
      assert (Hret : (match maskData s with
                      | Some (String _ _ as m) =>
                          respond (eraseElements img m (BRIA_API_TOKEN w))
                      | _ => ret erase_needs_mask
                      end) = ret erase_needs_mask).
      { destruct (maskData s) as [[| a m] |]; try reflexivity. discriminate. }
      rewrite Hret. eexists. split; [reflexivity |]. split.
      * intros _ _. split; reflexivity.
      * intros H. exfalso. apply H. now split.
    + destruct (route_cases img (maskData s) (studio_params s) (pending_text s)
                  (pending_op s) (BRIA_API_TOKEN w) Hne)
        as [(name & Ho & Hn & _ & _) | (call & rq & Hc & ->)].
      * exfalso. simpl in Hn. destruct Hn as [<- | Hn].
        -- rewrite Ho in He. discriminate.
        -- assert (Ht : false = true) by (apply (Hg name Ho); simpl; tauto).
           discriminate.
      * destruct (Hcalled call rq Hc) as (reply & Hr & Hs).
        exists reply. split; [exact Hr |]. split; [| now intros _].
        intros Ho. rewrite Ho in He. discriminate.
Qed.

Lemma generate_is_refused_only_for_erase_witness :
  exists b,
    handleGenerate_body erase_pending = Some b
    /\ outcome (POST (posted b)) working_world = inr erase_needs_mask.
Proof.
  destruct (generate_is_refused_only_for_erase erase_pending _ working_world eq_refl)
    as (reply & Ho & H & _).
  destruct (H eq_refl eq_refl) as [-> _].
  eexists. split; [reflexivity | exact Ho].
Defined.

(** X23.  The handler never reads [secondImage]: with another second image,
    or none, its run is the same.  So combining two images, with a token,
    sends one request of plain generation that carries the first image only,
    its prompt built from the fixed sentence of the page. *)
Theorem combining_sends_only_the_first_image (dataUrl1 dataUrl2 : string)
    (p : FIBOParams) (b : GenerateRequestBody) (second : option string) (w : World) :
  POST (posted (with_secondImage b second)) w = POST (posted b) w
  /\ (dataUrl1 <> "" -> str_truthy (BRIA_API_TOKEN w) = true ->
      exists rq,
        sent (POST (posted (handleCombineImages_body dataUrl1 dataUrl2 p))) w = [rq]
        /\ url rq = BRIA_API_BASE ++ "/image/generate"
        /\ payloads rq = [stripDataUrl dataUrl1]
        /\ body_field rq "prompt" = JStr (buildRichPrompt p (Some combine_prompt))).
Proof.
  split; [now destruct b |].
  intros Hne Ht. unfold sent.
  rewrite (POST_routed (posted (handleCombineImages_body dataUrl1 dataUrl2 p))
             (handleCombineImages_body dataUrl1 dataUrl2 p) dataUrl1 p w
             eq_refl eq_refl Hne eq_refl).
  cbn [handleCombineImages_body mask prompt operation].
  rewrite route_default.
  2: { intros name Hin. simpl in Hin.
       repeat destruct Hin as [<- | Hin]; try discriminate; destruct Hin. }
  2: { intros name Hin. simpl in Hin.
       repeat destruct Hin as [<- | Hin]; try discriminate; destruct Hin. }
  rewrite default_generation_call.
  change (effective_prompt p
            (Some "Combine these two images seamlessly into one cohesive image")
            (Some "combine_images")) with combine_prompt.
  pose proof (sent_respond
                (generateImage dataUrl1 None p (Some combine_prompt) (BRIA_API_TOKEN w)) w)
    as Hsr.
  unfold sent in Hsr. rewrite Hsr.
  pose proof (client_call_sent _ _ _ w
                (call_generateImage_standard (BRIA_API_TOKEN w) dataUrl1 None p
                   (Some combine_prompt) (or_intror eq_refl)) Ht) as Hs.
  unfold sent in Hs. rewrite Hs. eexists. split; [reflexivity |].
  unfold generateStandard_request, payloads, body_field.
  apply String.eqb_neq in Hne. rewrite Hne. cbn. repeat split.
Qed.

Lemma combining_sends_only_the_first_image_witness :
  exists rq,
    sent (POST (posted (handleCombineImages_body "data:image/png;base64,AAAA"
                          "data:image/png;base64,BBBB" sample_params)))
      working_world = [rq]
    /\ payloads rq = ["AAAA"].
Proof.
  destruct (combining_sends_only_the_first_image "data:image/png;base64,AAAA"
              "data:image/png;base64,BBBB" sample_params
              (sample_body None None) None working_world) as [_ H].
  destruct H as (rq & Hs & _ & Hp & _); [discriminate | reflexivity |].
  exists rq. split; [exact Hs | exact Hp].
Defined.

Lemma existsb_eqb_In (id : string) (l : list string) :
  existsb (String.eqb id) l = true <-> In id l.
Proof.
  rewrite existsb_exists. split.
  - intros (y & Hy & E). apply String.eqb_eq in E. now subst.
  - intros H. exists id. split; [assumption | apply String.eqb_refl].
Qed.

(** X24.  [handleToggleCombineSelection]: an id that is selected is taken
    out; one that is not is added at the end while fewer than two are
    selected, and has no effect otherwise.  A selection of at most two ids
    stays one, and so does a selection without repetition. *)
Theorem combine_selection_holds_two_at_most (id : string) (prev : list string) :
  let next := handleToggleCombineSelection id prev in
  (In id prev -> ~ In id next)
  /\ (~ In id prev -> (length prev < 2)%nat -> next = (prev ++ [id])%list)
  /\ (~ In id prev -> (2 <= length prev)%nat -> next = prev)
  /\ ((length prev <= 2)%nat -> (length next <= 2)%nat)
  /\ (List.NoDup prev -> List.NoDup next).
Proof.
  intros next. subst next. unfold handleToggleCombineSelection.
  destruct (existsb (String.eqb id) prev) eqn:E.
  - apply existsb_eqb_In in E. repeat split; try contradiction.
    + intros _ H. apply filter_In in H. destruct H as [_ H].
      now rewrite String.eqb_refl in H.
    + intros H.
      pose proof (filter_length_le (fun imgId => negb (String.eqb imgId id)) prev).
      lia.
    + intros H. now apply List.NoDup_filter.
  - assert (Hn : ~ In id prev).
    { intros H. apply existsb_eqb_In in H. congruence. }
    destruct (Nat.ltb_spec (length prev) 2); repeat split;
      try contradiction; try lia; try tauto.
    + rewrite length_app. simpl. lia.
    + intros H'. apply NoDup_ListNoDup. apply NoDup_ListNoDup in H'.
      apply NoDup_app. repeat split; [assumption | | apply NoDup_singleton].
      intros y Hy Hy'. apply list_elem_of_In in Hy.
      apply list_elem_of_singleton in Hy'. now subst.
Qed.

Lemma combine_selection_holds_two_at_most_witness :
  handleToggleCombineSelection "img-3" ["img-1"; "img-2"] = ["img-1"; "img-2"].
Proof.
  destruct (combine_selection_holds_two_at_most "img-3" ["img-1"; "img-2"])
    as (_ & _ & H & _).
  apply H.
  - simpl. intros [E | [E | []]]; discriminate.
  - simpl. lia.
Defined.

(** X25.  [handleDeleteLayer] removes the layers with the given id and keeps
    the others.  When the deleted layer was the active one and some layer
    remains, the last remaining layer becomes active and its data the image
    shown.  When it was the active one and none remains, the active id is
    left naming the deleted layer and the image shown stays.  Deleting
    another layer changes neither. *)
Theorem deleting_a_layer (id : string) (s : Layers) :
  let s' := handleDeleteLayer id s in
  ~ In id (layer_ids s')
  /\ (forall l, In l (layers s') <-> In l (layers s) /\ layer_id l <> id)
  /\ (activeLayerId s = Some id -> layers s' <> [] ->
      exists l, activeLayerId s' = Some (layer_id l)
                /\ In l (layers s') /\ last (layers s') = Some l
                /\ shown s' = (if str_truthy (layer_data l) then layer_data l else None))
  /\ (activeLayerId s = Some id -> layers s' = [] ->
      activeLayerId s' = Some id /\ shown s' = shown s)
  /\ (activeLayerId s <> Some id ->
      activeLayerId s' = activeLayerId s /\ shown s' = shown s).
Proof.
  intros s'. subst s'. unfold handleDeleteLayer, layer_ids.
  set (keep := fun l : Layer => negb (String.eqb (layer_id l) id)).
  assert (Hlayers : layers
            (match last (List.filter keep (layers s)) with
             | Some l =>
                 if is_active s id then
                   {| layers := List.filter keep (layers s);
                      activeLayerId := Some (layer_id l);
                      shown := if str_truthy (layer_data l) then layer_data l else None |}
                 else {| layers := List.filter keep (layers s);
                         activeLayerId := activeLayerId s; shown := shown s |}
             | None => {| layers := List.filter keep (layers s);
                          activeLayerId := activeLayerId s; shown := shown s |}
             end) = List.filter keep (layers s)).
  { destruct (last _); [destruct (is_active s id) |]; reflexivity. }
  assert (Hkeep : forall l, keep l = true <-> layer_id l <> id).
  { intros l. unfold keep. rewrite negb_true_iff. apply String.eqb_neq. }
  assert (Hother : activeLayerId s <> Some id -> is_active s id = false).
  { intros Ha. unfold is_active. destruct (activeLayerId s) as [a |]; [| reflexivity].
    apply String.eqb_neq. congruence. }
  rewrite Hlayers.
  split; [| split; [| split; [| split]]].
  - intros H. apply in_map_iff in H. destruct H as (l & Hl & H).
    apply filter_In in H. destruct H as [_ H]. apply Hkeep in H. contradiction.
  - intros l. rewrite filter_In, Hkeep. tauto.
  - intros Ha Hne. unfold is_active. rewrite Ha, String.eqb_refl.
    destruct (last (List.filter keep (layers s))) as [l |] eqn:El.
    + exists l. cbn. repeat split.
      apply last_Some in El. destruct El as [l' El]. rewrite El.
      apply in_or_app. right. now left.
    + apply last_None in El. contradiction.
  - intros Ha He. rewrite He. cbn. split; [exact Ha | reflexivity].
  - intros Ha. rewrite (Hother Ha). now destruct (last _).
Qed.

Lemma deleting_a_layer_witness :
  activeLayerId (handleDeleteLayer "layer-2" two_layers) = Some "layer-1"
  /\ shown (handleDeleteLayer "layer-2" two_layers) = Some "data:image/png;base64,AAAA".
Proof.
  destruct (deleting_a_layer "layer-2" two_layers) as (_ & _ & H & _).
  destruct H as (l & Ha & _ & Hl & Hs); [reflexivity | discriminate |].
  injection Hl as <-. split; [exact Ha | exact Hs].
Defined.

End PageFacts.

(** ** The unused helper of the handler *)

Import RouteRest.

Lemma split_nonempty (c : ascii) (s : string) : split c s <> [].
Proof.
  destruct s as [| a rest]; simpl; [discriminate |].
  destruct (Ascii.eqb a c); [discriminate |].
  destruct (split c rest); discriminate.
Qed.

Lemma split_with_char (c : ascii) (s : string) :
  has_char c s = true -> exists p0 p1 rest, split c s = p0 :: p1 :: rest.
Proof.
  induction s as [| a s IH]; simpl; [discriminate |].
  destruct (Ascii.eqb a c) eqn:E.
  - intros _. pose proof (split_nonempty c s) as Hne.
    destruct (split c s) as [| p1 rest]; [congruence |]. eauto.
  - simpl. intros H. destruct (IH H) as (p0 & p1 & rest & ->). eauto.
Qed.

(** X26.  [extractBase64], the helper the handler defines and does not
    call, returns what [stripDataUrl] returns on every input that starts
    with data: and has a payload after its first comma; it returns the input
    itself when the input does not start with data: or when that payload is
    empty, and so never turns a text into the empty one. *)
Theorem extractBase64_agrees_with_stripDataUrl (input : string) :
  (String.prefix "data:" input = false -> extractBase64 input = input)
  /\ (String.prefix "data:" input = true -> stripDataUrl input <> "" ->
      extractBase64 input = stripDataUrl input)
  /\ (String.prefix "data:" input = true -> stripDataUrl input = "" ->
      extractBase64 input = input)
  /\ (input <> "" -> extractBase64 input <> "").
Proof.
  unfold extractBase64, stripDataUrl. rewrite includes_char.
  destruct (has_char "," input) eqn:Hc.
  - destruct (split_with_char _ _ Hc) as (p0 & p1 & rest & ->). cbn [nth_error nth].
    repeat split.
    + now intros ->.
    + intros -> Hne. unfold str_or. apply String.eqb_neq in Hne. now rewrite Hne.
    + intros -> ->. reflexivity.
    + intros Hne. destruct (String.prefix "data:" input); [| assumption].
      now apply str_or_nonempty.
  - rewrite (split_without_char _ _ Hc). cbn [nth_error str_or].
    repeat split; intros; destruct (String.prefix "data:" input); congruence.
Qed.

Lemma extractBase64_agrees_with_stripDataUrl_witness :
  extractBase64 "data:image/png;base64,AAAA" = "AAAA".
Proof.
  destruct (extractBase64_agrees_with_stripDataUrl "data:image/png;base64,AAAA")
    as (_ & H & _).
  apply H; [reflexivity | discriminate].
Defined.

(** ** Uploads and layers *)

Module PageRestFacts.
Import Js Page PageRest PageRestSpec.

Lemma toggle_twice (id : string) (l : Layer) :
  (fun l => if String.eqb (layer_id l) id
            then {| layer_id := layer_id l;
                    layer_visible := negb (layer_visible l);
                    layer_data := layer_data l |}
            else l)
    (if String.eqb (layer_id l) id
     then {| layer_id := layer_id l;
             layer_visible := negb (layer_visible l);
             layer_data := layer_data l |}
     else l) = l.
Proof.
  destruct (String.eqb (layer_id l) id) eqn:E; cbn; rewrite E; [| reflexivity].
  destruct l as [i v d]. cbn. now rewrite negb_involutive.
Qed.

(** Showing and hiding a layer twice changes nothing, and touches neither
    the ids nor the data; selecting a layer twice is selecting it once, and
    selecting an id no layer has changes the active id only. *)
Lemma layer_controls (id : string) (ls : list Layer) (s : Layers) :
  handleToggleLayerVisibility id (handleToggleLayerVisibility id ls) = ls
  /\ map layer_id (handleToggleLayerVisibility id ls) = map layer_id ls
  /\ map layer_data (handleToggleLayerVisibility id ls) = map layer_data ls
  /\ (forall l, In l ls -> layer_id l <> id -> In l (handleToggleLayerVisibility id ls))
  /\ handleSelectLayer id (handleSelectLayer id s) = handleSelectLayer id s
  /\ (~ In id (map layer_id (layers s)) ->
      handleSelectLayer id s
      = {| layers := layers s; activeLayerId := Some id; shown := shown s |}).
Proof.
  unfold handleToggleLayerVisibility.
  split; [| split; [| split; [| split; [| split]]]].
  - rewrite map_map. rewrite <- (map_id ls) at 2. apply map_ext. apply toggle_twice.
  - rewrite map_map. apply map_ext. intros l.
    now destruct (String.eqb (layer_id l) id).
  - rewrite map_map. apply map_ext. intros l.
    now destruct (String.eqb (layer_id l) id).
  - intros l Hin Hne. apply in_map_iff. exists l. split; [| assumption].
    apply String.eqb_neq in Hne. now rewrite Hne.
  - unfold handleSelectLayer. cbn [layers shown]. f_equal.
    destruct (List.find _ (layers s)) as [l |]; [| reflexivity].
    destruct (str_truthy (layer_data l)); reflexivity.
  - intros Hn. unfold handleSelectLayer.
    destruct (List.find _ (layers s)) as [l |] eqn:E; [| reflexivity].
    exfalso. apply find_some in E. destruct E as [Hin E].
    apply String.eqb_eq in E. apply Hn. apply in_map_iff. now exists l.
Qed.

(** X30.  [handleRemoveImage] takes the upload out of the list and out of
    the selection.  When no upload remains, the images, the layers and the
    active layer are reset.  When some remain, the layers stay, and: if the
    first upload with the removed id is the image shown, the first remaining
    upload becomes both the original and the current image; if it is not, or
    no upload has the id, or no image is shown, the original and the current
    image stay. *)
Theorem removing_an_upload (id : string) (g : Gallery) :
  let g' := handleRemoveImage id g in
  let removed := List.find (fun img => String.eqb (upload_id img) id) (uploadedImages g) in
  ~ In id (map upload_id (uploadedImages g'))
  /\ ~ In id (selectedForCombine g')
  /\ (forall img, In img (uploadedImages g') <->
                  In img (uploadedImages g) /\ upload_id img <> id)
  /\ (uploadedImages g' = [] ->
      gallery_originalImage g' = None /\ gallery_currentImage g' = None
      /\ gallery_layers g' = [] /\ gallery_activeLayerId g' = None)
  /\ (uploadedImages g' <> [] ->
      gallery_layers g' = gallery_layers g
      /\ gallery_activeLayerId g' = gallery_activeLayerId g)
  /\ (forall r first,
        removed = Some r -> gallery_currentImage g = Some (dataUrl r) ->
        hd_error (uploadedImages g') = Some first ->
        gallery_currentImage g' = Some (dataUrl first)
        /\ gallery_originalImage g' = Some (dataUrl first))
  /\ (uploadedImages g' <> [] ->
      (forall r, removed = Some r -> gallery_currentImage g <> Some (dataUrl r)) ->
      gallery_currentImage g' = gallery_currentImage g
      /\ gallery_originalImage g' = gallery_originalImage g).
Proof.
  intros g' removed. subst g' removed. unfold handleRemoveImage.
  set (keep := fun img : UploadedImage => negb (String.eqb (upload_id img) id)).
  set (other := fun imgId : string => negb (String.eqb imgId id)).
  set (is_it := fun img : UploadedImage => String.eqb (upload_id img) id).
  assert (Hkeep : forall img, keep img = true <-> upload_id img <> id).
  { intros img. unfold keep. rewrite negb_true_iff. apply String.eqb_neq. }
  assert (Hsel : ~ In id (List.filter other (selectedForCombine g))).
  { intros H. apply filter_In in H. destruct H as [_ H]. unfold other in H.
    now rewrite String.eqb_refl in H. }
  assert (Hmem : forall img, In img (List.filter keep (uploadedImages g)) <->
                             In img (uploadedImages g) /\ upload_id img <> id).
  { intros img. rewrite filter_In, Hkeep. tauto. }
  assert (Hgone : ~ In id (map upload_id (List.filter keep (uploadedImages g)))).
  { intros H. apply in_map_iff in H. destruct H as (img & Hi & H).
    apply Hmem in H. destruct H as [_ H]. contradiction. }
  destruct (List.filter keep (uploadedImages g)) as [| first rest] eqn:Ef.
  - cbn. split; [assumption |]. split; [assumption |]. split; [assumption |].
    split; [auto |]. split; [congruence |]. split; [discriminate | congruence].
  - destruct (List.find is_it (uploadedImages g)) as [r |] eqn:Er.
    + destruct (gallery_currentImage g) as [c |] eqn:Ec.
      * destruct (String.eqb (dataUrl r) c) eqn:E; cbn.
        -- apply String.eqb_eq in E. subst c.
           split; [assumption |]. split; [assumption |]. split; [assumption |].
           split; [discriminate |]. split; [auto |].
           split.
           ++ intros r' first' _ _ Hf. injection Hf as <-. auto.
           ++ intros _ Hn. exfalso. now apply (Hn r).
        -- apply String.eqb_neq in E.
           split; [assumption |]. split; [assumption |]. split; [assumption |].
           split; [discriminate |]. split; [auto |].
           split; [| auto].
           intros r' first' Hr Hc. injection Hr as <-. injection Hc as Hc.
           congruence.
      * cbn. split; [assumption |]. split; [assumption |]. split; [assumption |].
        split; [discriminate |]. split; [auto |]. split; [discriminate | auto].
    + cbn. split; [assumption |]. split; [assumption |]. split; [assumption |].
      split; [discriminate |]. split; [auto |]. split; [discriminate | auto].
Qed.

Lemma removing_an_upload_witness :
  gallery_currentImage (handleRemoveImage "img-1" two_uploads)
  = Some "data:image/png;base64,BBBB".
Proof.
  destruct (removing_an_upload "img-1" two_uploads) as (_ & _ & _ & _ & _ & H & _).
  destruct (H {| upload_id := "img-1"; dataUrl := "data:image/png;base64,AAAA" |}
              {| upload_id := "img-2"; dataUrl := "data:image/png;base64,BBBB" |})
    as [Hc _]; [reflexivity | reflexivity | reflexivity |].
  exact Hc.
Defined.

End PageRestFacts.
